(** * Hero CRT effect: a shallow embedding of [assets/hero-crt-effect.js]

    The controller class [HeroCRTEffect] is embedded method by method, with
    the state it shares with the browser passed explicitly:
    - [this] is a record [HeroCRTEffect]; what lives outside it (layout of
      the page, [Math.random], GL objects, listeners, timers and animation
      frames) is a record [Browser];
    - a call that may throw returns a [JS.Completion]; an object reference
      that may be null or undefined is an [option];
    - JavaScript numbers are exact rationals ([Q]): every arithmetic
      expression of the source is kept as written, and the rounding of IEEE
      doubles is not modelled;
    - the GLSL fragment shader is modelled over the real numbers, because it
      takes a square root.

    Fields of [this] are grouped as follows:
    - [EffectParameters]: curvature, vignette, scanlineIntensity,
      chromaticAberration, mouseSensitivity, momentum;
    - [PointerState]: mouseX, mouseY, targetMouseX, targetMouseY, velocityX,
      velocityY, isHovering;
    - the remaining fields stay in [HeroCRTEffect] itself.

    The functions that initialise a page ([initHeroCRTEffects] and the
    listener of [shopify:section:load]) take the constructor as a
    parameter; the vertex shader and the buffers of [setupGeometry] are
    modelled over the real numbers, like the fragment shader. *)

From Stdlib Require Import QArith Qabs Lqa ZArith Lia List Bool String.
From Stdlib Require Import Qpower.
From Stdlib Require Reals Lra.
Import ListNotations.

(** ** JavaScript numbers and the outcome of a call *)

Module JS.

Local Open Scope Q_scope.

(** [a < b] on numbers, as a boolean. *)
Definition ltb (a b : Q) : bool := negb (Qle_bool b a).

(** [a > b]. *)
Definition gtb (a b : Q) : bool := ltb b a.

(** A call either completes with a value or throws. *)
Inductive Exn : Type :=
| TypeError          (* property access on null or undefined *)
| DOMException.      (* raised by a canvas drawing call *)

Inductive Completion (A : Type) : Type :=
| Normal (a : A)
| Throw (e : Exn).
Arguments Normal {A} a.
Arguments Throw {A} e.

Definition bind {A B} (c : Completion A) (k : A -> Completion B)
  : Completion B :=
  match c with
  | Normal a => k a
  | Throw e => Throw e
  end.

(** [try { body } catch (e) { handler }]. *)
Definition try_catch {A} (body : Completion A) (handler : Exn -> Completion A)
  : Completion A :=
  match body with
  | Normal a => Normal a
  | Throw e => handler e
  end.

(** [o.f] or [o.m(...)] on a receiver that may be null or undefined. *)
Definition deref {A} (o : option A) : Completion A :=
  match o with
  | Some a => Normal a
  | None => Throw TypeError
  end.

(** Truthiness of an object reference. *)
Definition truthy {A} (o : option A) : bool :=
  match o with
  | Some _ => true
  | None => false
  end.

(** [xs.forEach(f)], threading the state the callback mutates. *)
Fixpoint forEach {A S} (f : S -> A -> Completion S) (xs : list A) (s : S)
  : Completion S :=
  match xs with
  | [] => Normal s
  | x :: rest => bind (f s x) (forEach f rest)
  end.

(** [Math.random()]: the sequence of draws still to come. *)
Definition Rand : Type := nat -> Q.

Definition random (r : Rand) : Q * Rand := (r 0%nat, fun n => r (S n)).

(** Every draw lies in [0, 1). *)
Definition uniform (r : Rand) : Prop := forall n, 0 <= r n /\ r n < 1.

(** The sequence that starts with the draws of [l] and continues with [d]. *)
Definition draws (l : list Q) (d : Q) : Rand := fun n => nth n l d.

End JS.

Declare Scope js_scope.
Notation "x <- c ;; k" := (JS.bind c (fun x => k))
  (at level 61, c at next level, right associativity) : js_scope.
Notation "' pat <- c ;; k" :=
  (JS.bind c (fun x => match x with pat => k end))
  (at level 61, pat pattern, c at next level, right associativity) : js_scope.
Delimit Scope js_scope with js.

(** ** Data model *)

Local Open Scope Q_scope.

Record EffectParameters : Type := {
  curvature : Q;
  vignette : Q;
  scanlineIntensity : Q;
  chromaticAberration : Q;
  mouseSensitivity : Q;
  momentum : Q
}.

Record PointerState : Type := {
  mouseX : Q;
  mouseY : Q;
  targetMouseX : Q;
  targetMouseY : Q;
  velocityX : Q;
  velocityY : Q;
  isHovering : bool
}.

(** Handles of DOM nodes, GL objects, animation frames and timers. *)
Definition Node : Type := nat.
Definition GLContext : Type := nat.
Definition GLShader : Type := nat.
Definition GLProgram : Type := nat.
Definition GLTexture : Type := nat.

(** What has been painted on a 2d canvas since it was last blank. *)
Inductive DrawOp : Type :=
| FillRect (fillStyle : string) (x y w h : Q)
| DrawImage (source : Node) (x y w h : Q).

Record Canvas : Type := {
  cwidth : Q;
  cheight : Q;
  pixels : list DrawOp
}.

Record Context2D : Type := {
  fillStyle : string
}.

(** The closures the controller registers as listeners. *)
Inductive Handler : Type :=
| MouseMoveHandler
| MouseLeaveHandler
| ResizeHandler.

Record HeroCRTEffect : Type := {
  sectionId : string;
  canvas : option Node;
  container : option Node;
  gl : option GLContext;
  program : option GLProgram;
  texture : option GLTexture;
  sourceCanvas : option Canvas;
  sourceContext : option Context2D;
  animationFrameId : option positive;
  time : Q;
  pointer : PointerState;
  params : EffectParameters;
  this_mouseMoveHandler : option Handler;   (* this.mouseMoveHandler *)
  this_mouseLeaveHandler : option Handler   (* this.mouseLeaveHandler *)
}.

(** ** The page and the browser around the controller *)

(** [getBoundingClientRect()].  The model divides exactly, so a rectangle
    of width or height zero (where JavaScript yields NaN or Infinity) is
    outside it. *)
Record DOMRect : Type := {
  left : Q;
  top : Q;
  width : Q;
  height : Q
}.

Record MouseEvent : Type := {
  clientX : Q;
  clientY : Q
}.

(** [window.getComputedStyle(el)]. *)
Record Style : Type := {
  display : string;
  visibility : string;
  opacity : string;
  backgroundColor : string
}.

(** An element matched by [querySelectorAll('img, video, canvas')].
    [drawFails] tells whether [drawImage] throws on it. *)
Record Media : Type := {
  node : Node;
  style : Style;
  rect : DOMRect;
  drawFails : bool
}.

Record Page : Type := {
  containerRect : DOMRect;
  containerStyle : Style;
  mediaElements : list Media
}.

(** The values uploaded to the shader for one draw call. *)
Record Uniforms : Type := {
  u_resolution : Q * Q;
  u_time : Q;
  u_curvature : Q;
  u_vignette : Q;
  u_scanlineIntensity : Q;
  u_chromaticAberration : Q;
  u_mouseOffset : Q * Q
}.

(** State of the WebGL context of [this.canvas]. *)
Record GLState : Type := {
  programs : list GLProgram;          (* live program objects *)
  textures : list GLTexture;          (* live texture objects *)
  nextObject : nat;
  viewport : Q * Q;
  textureImage : option Canvas;       (* last [texImage2D] upload *)
  drawn : list Uniforms               (* draw calls, latest first *)
}.

Inductive EventTarget : Type :=
| Window
| Container
| Observer.                           (* a ResizeObserver on the container *)

Record Listener : Type := {
  target : EventTarget;
  type : string;
  callback : Handler
}.

Inductive TimerTask : Type :=
| InitialCapture
| ResizeCapture.

Record Timer : Type := {
  timerId : positive;
  due : Z;
  task : TimerTask
}.

Record Scheduler : Type := {
  now : Z;                            (* milliseconds *)
  timers : list Timer;
  nextTimer : positive;
  frames : list positive;             (* pending animation frames *)
  nextFrame : positive
}.

Record Browser : Type := {
  page : Page;
  rand : JS.Rand;
  canvasSize : Q * Q;                 (* width and height of [this.canvas] *)
  glState : GLState;
  scheduler : Scheduler;
  listeners : list Listener;
  resizeTimeout : option positive;    (* the variable closed over in [setupResize] *)
  recaptures : nat                    (* ghost: re-captures started by resize *)
}.

(** What the platform answers during construction. *)
Record Platform : Type := {
  canvasElement : option Node;        (* getElementById(`hero-crt-canvas-${sectionId}`) *)
  containerElement : option Node;     (* getElementById(`hero-crt-container-${sectionId}`) *)
  webgl : option GLContext;           (* getContext('webgl') || getContext('experimental-webgl') *)
  context2d : bool;                   (* the offscreen canvas yields a 2d context *)
  vertexCompiles : bool;
  fragmentCompiles : bool;
  programLinks : bool;
  hasResizeObserver : bool
}.

(** ** Field assignment *)

Section Assignment.

Definition set_mouseX (v : Q) (p : PointerState) : PointerState :=
  {| mouseX := v; mouseY := mouseY p;
     targetMouseX := targetMouseX p; targetMouseY := targetMouseY p;
     velocityX := velocityX p; velocityY := velocityY p;
     isHovering := isHovering p |}.

Definition set_mouseY (v : Q) (p : PointerState) : PointerState :=
  {| mouseX := mouseX p; mouseY := v;
     targetMouseX := targetMouseX p; targetMouseY := targetMouseY p;
     velocityX := velocityX p; velocityY := velocityY p;
     isHovering := isHovering p |}.

Definition set_targetMouseX (v : Q) (p : PointerState) : PointerState :=
  {| mouseX := mouseX p; mouseY := mouseY p;
     targetMouseX := v; targetMouseY := targetMouseY p;
     velocityX := velocityX p; velocityY := velocityY p;
     isHovering := isHovering p |}.

Definition set_targetMouseY (v : Q) (p : PointerState) : PointerState :=
  {| mouseX := mouseX p; mouseY := mouseY p;
     targetMouseX := targetMouseX p; targetMouseY := v;
     velocityX := velocityX p; velocityY := velocityY p;
     isHovering := isHovering p |}.

Definition set_velocityX (v : Q) (p : PointerState) : PointerState :=
  {| mouseX := mouseX p; mouseY := mouseY p;
     targetMouseX := targetMouseX p; targetMouseY := targetMouseY p;
     velocityX := v; velocityY := velocityY p;
     isHovering := isHovering p |}.

Definition set_velocityY (v : Q) (p : PointerState) : PointerState :=
  {| mouseX := mouseX p; mouseY := mouseY p;
     targetMouseX := targetMouseX p; targetMouseY := targetMouseY p;
     velocityX := velocityX p; velocityY := v;
     isHovering := isHovering p |}.

Definition set_isHovering (v : bool) (p : PointerState) : PointerState :=
  {| mouseX := mouseX p; mouseY := mouseY p;
     targetMouseX := targetMouseX p; targetMouseY := targetMouseY p;
     velocityX := velocityX p; velocityY := velocityY p;
     isHovering := v |}.

Definition set_pointer (v : PointerState) (this : HeroCRTEffect)
  : HeroCRTEffect :=
  {| sectionId := sectionId this; canvas := canvas this;
     container := container this; gl := gl this; program := program this;
     texture := texture this; sourceCanvas := sourceCanvas this;
     sourceContext := sourceContext this;
     animationFrameId := animationFrameId this; time := time this;
     pointer := v; params := params this;
     this_mouseMoveHandler := this_mouseMoveHandler this;
     this_mouseLeaveHandler := this_mouseLeaveHandler this |}.

Definition set_time (v : Q) (this : HeroCRTEffect) : HeroCRTEffect :=
  {| sectionId := sectionId this; canvas := canvas this;
     container := container this; gl := gl this; program := program this;
     texture := texture this; sourceCanvas := sourceCanvas this;
     sourceContext := sourceContext this;
     animationFrameId := animationFrameId this; time := v;
     pointer := pointer this; params := params this;
     this_mouseMoveHandler := this_mouseMoveHandler this;
     this_mouseLeaveHandler := this_mouseLeaveHandler this |}.

Definition set_animationFrameId (v : option positive) (this : HeroCRTEffect)
  : HeroCRTEffect :=
  {| sectionId := sectionId this; canvas := canvas this;
     container := container this; gl := gl this; program := program this;
     texture := texture this; sourceCanvas := sourceCanvas this;
     sourceContext := sourceContext this;
     animationFrameId := v; time := time this;
     pointer := pointer this; params := params this;
     this_mouseMoveHandler := this_mouseMoveHandler this;
     this_mouseLeaveHandler := this_mouseLeaveHandler this |}.

Definition set_gl (v : option GLContext) (this : HeroCRTEffect)
  : HeroCRTEffect :=
  {| sectionId := sectionId this; canvas := canvas this;
     container := container this; gl := v; program := program this;
     texture := texture this; sourceCanvas := sourceCanvas this;
     sourceContext := sourceContext this;
     animationFrameId := animationFrameId this; time := time this;
     pointer := pointer this; params := params this;
     this_mouseMoveHandler := this_mouseMoveHandler this;
     this_mouseLeaveHandler := this_mouseLeaveHandler this |}.

Definition set_program (v : option GLProgram) (this : HeroCRTEffect)
  : HeroCRTEffect :=
  {| sectionId := sectionId this; canvas := canvas this;
     container := container this; gl := gl this; program := v;
     texture := texture this; sourceCanvas := sourceCanvas this;
     sourceContext := sourceContext this;
     animationFrameId := animationFrameId this; time := time this;
     pointer := pointer this; params := params this;
     this_mouseMoveHandler := this_mouseMoveHandler this;
     this_mouseLeaveHandler := this_mouseLeaveHandler this |}.

Definition set_texture (v : option GLTexture) (this : HeroCRTEffect)
  : HeroCRTEffect :=
  {| sectionId := sectionId this; canvas := canvas this;
     container := container this; gl := gl this; program := program this;
     texture := v; sourceCanvas := sourceCanvas this;
     sourceContext := sourceContext this;
     animationFrameId := animationFrameId this; time := time this;
     pointer := pointer this; params := params this;
     this_mouseMoveHandler := this_mouseMoveHandler this;
     this_mouseLeaveHandler := this_mouseLeaveHandler this |}.

Definition set_sourceCanvas (v : option Canvas) (this : HeroCRTEffect)
  : HeroCRTEffect :=
  {| sectionId := sectionId this; canvas := canvas this;
     container := container this; gl := gl this; program := program this;
     texture := texture this; sourceCanvas := v;
     sourceContext := sourceContext this;
     animationFrameId := animationFrameId this; time := time this;
     pointer := pointer this; params := params this;
     this_mouseMoveHandler := this_mouseMoveHandler this;
     this_mouseLeaveHandler := this_mouseLeaveHandler this |}.

Definition set_sourceContext (v : option Context2D) (this : HeroCRTEffect)
  : HeroCRTEffect :=
  {| sectionId := sectionId this; canvas := canvas this;
     container := container this; gl := gl this; program := program this;
     texture := texture this; sourceCanvas := sourceCanvas this;
     sourceContext := v;
     animationFrameId := animationFrameId this; time := time this;
     pointer := pointer this; params := params this;
     this_mouseMoveHandler := this_mouseMoveHandler this;
     this_mouseLeaveHandler := this_mouseLeaveHandler this |}.

Definition set_handlers (move leave : option Handler) (this : HeroCRTEffect)
  : HeroCRTEffect :=
  {| sectionId := sectionId this; canvas := canvas this;
     container := container this; gl := gl this; program := program this;
     texture := texture this; sourceCanvas := sourceCanvas this;
     sourceContext := sourceContext this;
     animationFrameId := animationFrameId this; time := time this;
     pointer := pointer this; params := params this;
     this_mouseMoveHandler := move; this_mouseLeaveHandler := leave |}.

Definition set_glState (v : GLState) (b : Browser) : Browser :=
  {| page := page b; rand := rand b; canvasSize := canvasSize b;
     glState := v; scheduler := scheduler b; listeners := listeners b;
     resizeTimeout := resizeTimeout b; recaptures := recaptures b |}.

Definition set_scheduler (v : Scheduler) (b : Browser) : Browser :=
  {| page := page b; rand := rand b; canvasSize := canvasSize b;
     glState := glState b; scheduler := v; listeners := listeners b;
     resizeTimeout := resizeTimeout b; recaptures := recaptures b |}.

Definition set_rand (v : JS.Rand) (b : Browser) : Browser :=
  {| page := page b; rand := v; canvasSize := canvasSize b;
     glState := glState b; scheduler := scheduler b;
     listeners := listeners b;
     resizeTimeout := resizeTimeout b; recaptures := recaptures b |}.

Definition set_page (v : Page) (b : Browser) : Browser :=
  {| page := v; rand := rand b; canvasSize := canvasSize b;
     glState := glState b; scheduler := scheduler b;
     listeners := listeners b;
     resizeTimeout := resizeTimeout b; recaptures := recaptures b |}.

Definition set_canvasSize (v : Q * Q) (b : Browser) : Browser :=
  {| page := page b; rand := rand b; canvasSize := v;
     glState := glState b; scheduler := scheduler b;
     listeners := listeners b;
     resizeTimeout := resizeTimeout b; recaptures := recaptures b |}.

Definition set_listeners (v : list Listener) (b : Browser) : Browser :=
  {| page := page b; rand := rand b; canvasSize := canvasSize b;
     glState := glState b; scheduler := scheduler b; listeners := v;
     resizeTimeout := resizeTimeout b; recaptures := recaptures b |}.

Definition set_resizeTimeout (v : option positive) (b : Browser) : Browser :=
  {| page := page b; rand := rand b; canvasSize := canvasSize b;
     glState := glState b; scheduler := scheduler b;
     listeners := listeners b;
     resizeTimeout := v; recaptures := recaptures b |}.

Definition set_recaptures (v : nat) (b : Browser) : Browser :=
  {| page := page b; rand := rand b; canvasSize := canvasSize b;
     glState := glState b; scheduler := scheduler b;
     listeners := listeners b;
     resizeTimeout := resizeTimeout b; recaptures := v |}.

End Assignment.

(** ** Browser interfaces used by the controller *)

Section HostAPI.

Definition requestAnimationFrame (b : Browser) : positive * Browser :=
  let s := scheduler b in
  let id := nextFrame s in
  (id, set_scheduler {| now := now s; timers := timers s;
                        nextTimer := nextTimer s;
                        frames := id :: frames s;
                        nextFrame := Pos.succ id |} b).

(** Cancelling a frame that is not pending does nothing. *)
Definition cancelAnimationFrame (id : positive) (b : Browser) : Browser :=
  let s := scheduler b in
  set_scheduler {| now := now s; timers := timers s;
                   nextTimer := nextTimer s;
                   frames := filter (fun i => negb (Pos.eqb i id)) (frames s);
                   nextFrame := nextFrame s |} b.

Definition setTimeout (tk : TimerTask) (delay : Z) (b : Browser)
  : positive * Browser :=
  let s := scheduler b in
  let id := nextTimer s in
  (id, set_scheduler {| now := now s;
                        timers := timers s ++
                          [{| timerId := id; due := (now s + delay)%Z;
                              task := tk |}];
                        nextTimer := Pos.succ id;
                        frames := frames s;
                        nextFrame := nextFrame s |} b).

(** [clearTimeout(undefined)] and clearing a fired timer do nothing. *)
Definition clearTimeout (id : option positive) (b : Browser) : Browser :=
  match id with
  | None => b
  | Some i =>
      let s := scheduler b in
      set_scheduler {| now := now s;
                       timers := filter (fun t => negb (Pos.eqb (timerId t) i))
                                        (timers s);
                       nextTimer := nextTimer s;
                       frames := frames s;
                       nextFrame := nextFrame s |} b
  end.

Definition Handler_eqb (h k : Handler) : bool :=
  match h, k with
  | MouseMoveHandler, MouseMoveHandler => true
  | MouseLeaveHandler, MouseLeaveHandler => true
  | ResizeHandler, ResizeHandler => true
  | _, _ => false
  end.

Definition EventTarget_eqb (t u : EventTarget) : bool :=
  match t, u with
  | Window, Window => true
  | Container, Container => true
  | Observer, Observer => true
  | _, _ => false
  end.

Definition Listener_eqb (l m : Listener) : bool :=
  EventTarget_eqb (target l) (target m)
  && String.eqb (type l) (type m)
  && Handler_eqb (callback l) (callback m).

Definition registered (l : Listener) (b : Browser) : bool :=
  existsb (Listener_eqb l) (listeners b).

(** Adding a listener that is already registered does nothing. *)
Definition addEventListener (tg : EventTarget) (ty : string) (h : Handler)
           (b : Browser) : Browser :=
  let l := {| target := tg; type := ty; callback := h |} in
  if registered l b then b else set_listeners (listeners b ++ [l]) b.

(** Removing an absent listener, or a listener that is [undefined], does
    nothing. *)
Definition removeEventListener (tg : EventTarget) (ty : string)
           (h : option Handler) (b : Browser) : Browser :=
  match h with
  | None => b
  | Some h =>
      let l := {| target := tg; type := ty; callback := h |} in
      set_listeners (filter (fun m => negb (Listener_eqb l m)) (listeners b)) b
  end.

(** [gl.createShader], [shaderSource], [compileShader] and the status
    check of [createShader]: a shader that does not compile is deleted. *)
Definition createShader (compiles : bool) (g : GLState)
  : option GLShader * GLState :=
  let shader := nextObject g in
  let g := {| programs := programs g; textures := textures g;
              nextObject := S shader; viewport := viewport g;
              textureImage := textureImage g; drawn := drawn g |} in
  if negb compiles then (None, g) else (Some shader, g).

(** Deleting an object that is not live does nothing. *)
Definition deleteProgram (p : GLProgram) (g : GLState) : GLState :=
  {| programs := filter (fun q => negb (Nat.eqb q p)) (programs g);
     textures := textures g; nextObject := nextObject g;
     viewport := viewport g; textureImage := textureImage g;
     drawn := drawn g |}.

Definition deleteTexture (t : GLTexture) (g : GLState) : GLState :=
  {| programs := programs g;
     textures := filter (fun q => negb (Nat.eqb q t)) (textures g);
     nextObject := nextObject g;
     viewport := viewport g; textureImage := textureImage g;
     drawn := drawn g |}.

(** [createProgram]: attach, link and check; a program that does not link
    is deleted. *)
Definition createProgram (links : bool) (g : GLState)
  : option GLProgram * GLState :=
  let program := nextObject g in
  let g := {| programs := program :: programs g; textures := textures g;
              nextObject := S program; viewport := viewport g;
              textureImage := textureImage g; drawn := drawn g |} in
  if negb links then (None, deleteProgram program g) else (Some program, g).

Definition createTexture (g : GLState) : GLTexture * GLState :=
  let t := nextObject g in
  (t, {| programs := programs g; textures := t :: textures g;
         nextObject := S t; viewport := viewport g;
         textureImage := textureImage g; drawn := drawn g |}).

Definition gl_viewport (w h : Q) (g : GLState) : GLState :=
  {| programs := programs g; textures := textures g;
     nextObject := nextObject g; viewport := (w, h);
     textureImage := textureImage g; drawn := drawn g |}.

Definition texImage2D (c : Canvas) (g : GLState) : GLState :=
  {| programs := programs g; textures := textures g;
     nextObject := nextObject g; viewport := viewport g;
     textureImage := Some c; drawn := drawn g |}.

Definition drawArrays (u : Uniforms) (g : GLState) : GLState :=
  {| programs := programs g; textures := textures g;
     nextObject := nextObject g; viewport := viewport g;
     textureImage := textureImage g; drawn := u :: drawn g |}.

(** [ctx.drawImage(el, x, y, w, h)]. *)
Definition drawImage (el : Media) (x y w h : Q) (c : Canvas)
  : JS.Completion Canvas :=
  if drawFails el then JS.Throw JS.DOMException
  else JS.Normal {| cwidth := cwidth c; cheight := cheight c;
                    pixels := pixels c ++ [DrawImage (node el) x y w h] |}.

End HostAPI.

(** ** The methods of [HeroCRTEffect] *)

Section Methods.

Import JS.
Local Open Scope js_scope.
Local Open Scope string_scope.

(** [resize()]. Assigning the width or height of a canvas clears it. *)
Definition resize (this : HeroCRTEffect) (b : Browser)
  : Completion (HeroCRTEffect * Browser) :=
  if negb (truthy (container this)) || negb (truthy (canvas this)) then
    Normal (this, b)
  else
    let rect := containerRect (page b) in
    let width := width rect in
    let height := height rect in
    let b := set_canvasSize (width, height) b in
    _ <- deref (sourceCanvas this) ;;
    let this :=
      set_sourceCanvas
        (Some {| cwidth := width; cheight := height; pixels := [] |}) this in
    let b := if truthy (gl this)
             then set_glState (gl_viewport width height (glState b)) b
             else b in
    Normal (this, b).

(** [el === this.canvas]. *)
Definition same_node (el : Node) (c : option Node) : bool :=
  match c with
  | Some n => Nat.eqb el n
  | None => false
  end.

(** The callback of [forEach] in [captureContainer]; the canvas [c] is the
    raster behind [this.sourceContext], [canvasWidth] and [canvasHeight]
    are the variables [width] and [height] it closes over. *)
Definition captureElement (this : HeroCRTEffect) (containerRect : DOMRect)
           (canvasWidth canvasHeight : Q) (c : Canvas) (el : Media)
  : Completion Canvas :=
  if same_node (node el) (canvas this) then Normal c
  else
    let style := style el in
    if negb (display style =? "none")
       && negb (visibility style =? "hidden")
       && negb (opacity style =? "0")
    then
      try_catch
        (let rect := rect el in
         let x := left rect - left containerRect in
         let y := top rect - top containerRect in
         let w := width rect in
         let h := height rect in
         if gtb (x + w) 0 && gtb (y + h) 0
            && ltb x canvasWidth && ltb y canvasHeight
         then drawImage el x y w h c
         else Normal c)
        (fun _ => Normal c)
    else Normal c.

(** [async captureContainer()]: [Throw] stands for a rejected promise,
    [None] for the value [null]. *)
Definition captureContainer (this : HeroCRTEffect) (b : Browser)
  : Completion (option Canvas * HeroCRTEffect) :=
  if negb (truthy (container this)) || negb (truthy (sourceContext this)) then
    Normal (None, this)
  else
    sc <- deref (sourceCanvas this) ;;
    let width := cwidth sc in
    let height := cheight sc in
    (* clearRect(0, 0, width, height) *)
    let sc := {| cwidth := width; cheight := height; pixels := [] |} in
    let style := containerStyle (page b) in
    let fill :=
      if negb (backgroundColor style =? "")
         && negb (backgroundColor style =? "rgba(0, 0, 0, 0)")
         && negb (backgroundColor style =? "transparent")
      then backgroundColor style
      else "#000000" in
    let this := set_sourceContext (Some {| fillStyle := fill |}) this in
    let sc := {| cwidth := width; cheight := height;
                 pixels := pixels sc ++ [FillRect fill 0 0 width height] |} in
    let mediaElements := mediaElements (page b) in
    sc <- (if (0 <? List.length mediaElements)%nat then
             let containerRect := containerRect (page b) in
             forEach (captureElement this containerRect width height)
                     mediaElements sc
           else Normal sc) ;;
    let this := set_sourceCanvas (Some sc) this in
    Normal (sourceCanvas this, this).

(** The continuation [canvas => { if (canvas && this.gl) ... }] chained on
    [captureContainer()]. *)
Definition captureAndUpload (this : HeroCRTEffect) (b : Browser)
  : Completion (HeroCRTEffect * Browser) :=
  '(canvas, this) <- captureContainer this b ;;
  match canvas with
  | Some c =>
      if truthy (gl this)
      then Normal (this, set_glState (texImage2D c (glState b)) b)
      else Normal (this, b)
  | None => Normal (this, b)
  end.

(** The idle branch of [render()]: at most one nudge of the velocity. *)
Definition idleGlitch (p : PointerState) (r : Rand) : PointerState * Rand :=
  let (c, r) := random r in
  if ltb c 0.001 then
    let (a, r) := random r in
    let p := set_velocityX (velocityX p + (a - 0.5) * 0.002) p in
    let (a, r) := random r in
    let p := set_velocityY (velocityY p + (a - 0.5) * 0.002) p in
    (p, r)
  else
    let (c, r) := random r in
    if ltb c 0.01 then
      let (a, r) := random r in
      let p := set_velocityX (velocityX p + (a - 0.5) * 0.0005) p in
      let (a, r) := random r in
      let p := set_velocityY (velocityY p + (a - 0.5) * 0.0005) p in
      (p, r)
    else (p, r).

(** The momentum-based interpolation of [render()]. *)
Definition interpolate (P : EffectParameters) (p : PointerState)
  : PointerState :=
  let deltaX := targetMouseX p - mouseX p in
  let deltaY := targetMouseY p - mouseY p in
  let attraction := if isHovering p then 0.1 else 0.02 in
  let p := set_velocityX (velocityX p + deltaX * attraction) p in
  let p := set_velocityY (velocityY p + deltaY * attraction) p in
  let p := set_velocityX (velocityX p * momentum P) p in
  let p := set_velocityY (velocityY p * momentum P) p in
  let p := set_mouseX (mouseX p + velocityX p) p in
  let p := set_mouseY (mouseY p + velocityY p) p in
  p.

(** [render()]: one frame. *)
Definition render (this : HeroCRTEffect) (b : Browser)
  : HeroCRTEffect * Browser :=
  if negb (truthy (gl this)) || negb (truthy (program this)) then (this, b)
  else
    let '(p, r) := if negb (isHovering (pointer this))
                   then idleGlitch (pointer this) (rand b)
                   else (pointer this, rand b) in
    let b := set_rand r b in
    let p := interpolate (params this) p in
    let this := set_pointer p this in
    let this := set_time (time this + 0.016) this in
    let u := {| u_resolution := canvasSize b;
                u_time := time this;
                u_curvature := curvature (params this);
                u_vignette := vignette (params this);
                u_scanlineIntensity := scanlineIntensity (params this);
                u_chromaticAberration := chromaticAberration (params this);
                u_mouseOffset := (mouseX p, mouseY p) |} in
    let b := set_glState (drawArrays u (glState b)) b in
    let (id, b) := requestAnimationFrame b in
    (set_animationFrameId (Some id) this, b).

(** The [mousemove] listener of [setupMouseTracking()]. *)
Definition mouseMoveHandler (e : MouseEvent) (b : Browser)
           (this : HeroCRTEffect) : HeroCRTEffect :=
  let p := pointer this in
  let wasHovering := isHovering p in
  let p := set_isHovering true p in
  let p := if negb wasHovering then
             let p := set_targetMouseX 0 p in
             let p := set_targetMouseY 0 p in
             let p := set_mouseX 0 p in
             let p := set_mouseY 0 p in
             let p := set_velocityX 0 p in
             let p := set_velocityY 0 p in
             p
           else p in
  let rect := containerRect (page b) in
  let x := (clientX e - left rect) / width rect in
  let y := (clientY e - top rect) / height rect in
  let p := set_targetMouseX ((x - 0.5) * mouseSensitivity (params this)) p in
  let p := set_targetMouseY ((y - 0.5) * mouseSensitivity (params this)) p in
  set_pointer p this.

(** The [mouseleave] listener. *)
Definition mouseLeaveHandler (this : HeroCRTEffect) : HeroCRTEffect :=
  set_pointer (set_isHovering false (pointer this)) this.

(** [setupMouseTracking()]. *)
Definition setupMouseTracking (this : HeroCRTEffect) (b : Browser)
  : HeroCRTEffect * Browser :=
  if negb (truthy (container this)) then (this, b)
  else
    let b := addEventListener Container "mousemove" MouseMoveHandler b in
    let b := addEventListener Container "mouseleave" MouseLeaveHandler b in
    (set_handlers (Some MouseMoveHandler) (Some MouseLeaveHandler) this, b).

(** The debounced listener of [setupResize()]. *)
Definition resizeHandler (b : Browser) : Browser :=
  let b := clearTimeout (resizeTimeout b) b in
  let (id, b) := setTimeout ResizeCapture 100 b in
  set_resizeTimeout (Some id) b.

(** The function that [resizeHandler] hands to [setTimeout]. *)
Definition resizeCallback (this : HeroCRTEffect) (b : Browser)
  : Completion (HeroCRTEffect * Browser) :=
  '(this, b) <- resize this b ;;
  (* ghost: count the re-capture that starts here *)
  let b := set_recaptures (S (recaptures b)) b in
  captureAndUpload this b.

(** [setupResize()]. *)
Definition setupResize (pf : Platform) (this : HeroCRTEffect) (b : Browser)
  : Browser :=
  let b := set_resizeTimeout None b in
  let b := addEventListener Window "resize" ResizeHandler b in
  if hasResizeObserver pf && truthy (container this)
  then addEventListener Observer "resize" ResizeHandler b
  else b.

(** [setupWebGL()] with [createShader], [createProgram] and
    [setupGeometry]; texture parameters and vertex buffers have no effect
    on the modelled state. *)
Definition setupWebGL (pf : Platform) (this : HeroCRTEffect) (b : Browser)
  : Completion (HeroCRTEffect * Browser) :=
  let (vertexShader, g) := createShader (vertexCompiles pf) (glState b) in
  let (fragmentShader, g) := createShader (fragmentCompiles pf) g in
  let b := set_glState g b in
  if negb (truthy vertexShader) || negb (truthy fragmentShader) then
    Normal (this, b)
  else
    let (prog, g) := createProgram (programLinks pf) (glState b) in
    let b := set_glState g b in
    let this := set_program prog this in
    if negb (truthy (program this)) then Normal (this, b)
    else
      let (t, g) := createTexture (glState b) in
      let b := set_glState g b in
      let this := set_texture (Some t) this in
      resize this b.

(** [init()]. *)
Definition init (pf : Platform) (this : HeroCRTEffect) (b : Browser)
  : Completion (HeroCRTEffect * Browser) :=
  if negb (truthy (canvas this)) || negb (truthy (container this)) then
    Normal (this, b)
  else
    match webgl pf with
    | None => Normal (this, b)
    | Some g =>
        let this := set_gl (Some g) this in
        let this :=
          set_sourceCanvas
            (Some {| cwidth := 300; cheight := 150; pixels := [] |}) this in
        let this :=
          set_sourceContext
            (if context2d pf then Some {| fillStyle := "#000000" |} else None)
            this in
        '(this, b) <- setupWebGL pf this b ;;
        let b := setupResize pf this b in
        let (this, b) := setupMouseTracking this b in
        let (_, b) := setTimeout InitialCapture 500 b in
        Normal (render this b)
    end.

(** The object that [new] hands to the constructor.  A field that is not
    assigned yet is [undefined] in JavaScript; it is [None] here, or zero
    for a number, and no method reads the numbers of a controller whose
    constructor returned early. *)
Definition newObject : HeroCRTEffect :=
  {| sectionId := ""; canvas := None; container := None;
     gl := None; program := None; texture := None;
     sourceCanvas := None; sourceContext := None;
     animationFrameId := None; time := 0;
     pointer := {| mouseX := 0; mouseY := 0;
                   targetMouseX := 0; targetMouseY := 0;
                   velocityX := 0; velocityY := 0;
                   isHovering := false |};
     params := {| curvature := 0; vignette := 0; scanlineIntensity := 0;
                  chromaticAberration := 0; mouseSensitivity := 0;
                  momentum := 0 |};
     this_mouseMoveHandler := None; this_mouseLeaveHandler := None |}.

(** [new HeroCRTEffect(sectionId)]. *)
Definition constructor (sectionId : string) (pf : Platform) (b : Browser)
  : Completion (HeroCRTEffect * Browser) :=
  let this :=
    {| sectionId := sectionId;
       canvas := canvasElement pf;
       container := containerElement pf;
       gl := gl newObject; program := program newObject;
       texture := texture newObject;
       sourceCanvas := sourceCanvas newObject;
       sourceContext := sourceContext newObject;
       animationFrameId := animationFrameId newObject;
       time := time newObject;
       pointer := pointer newObject;
       params := params newObject;
       this_mouseMoveHandler := this_mouseMoveHandler newObject;
       this_mouseLeaveHandler := this_mouseLeaveHandler newObject |} in
  if negb (truthy (canvas this)) || negb (truthy (container this)) then
    Normal (this, b)
  else
    let this :=
      {| sectionId := sectionId;
         canvas := canvas this;
         container := container this;
         gl := None; program := None; texture := None;
         sourceCanvas := None; sourceContext := None;
         animationFrameId := None; time := 0;
         pointer := {| mouseX := 0.0; mouseY := 0.0;
                       targetMouseX := 0.0; targetMouseY := 0.0;
                       velocityX := 0.0; velocityY := 0.0;
                       isHovering := false |};
         params := {| curvature := 0.12; vignette := 0.74;
                      scanlineIntensity := 0.5;
                      chromaticAberration := 0.5;
                      mouseSensitivity := 0.008;
                      momentum := 0.85 |};
         this_mouseMoveHandler := this_mouseMoveHandler this;
         this_mouseLeaveHandler := this_mouseLeaveHandler this |} in
    init pf this b.

(** [destroy()]. *)
Definition destroy (this : HeroCRTEffect) (b : Browser) : Completion Browser :=
  let b := match animationFrameId this with
           | Some id => cancelAnimationFrame id b
           | None => b
           end in
  b <- (if truthy (container this) && truthy (this_mouseMoveHandler this) then
          _ <- deref (container this) ;;
          let b := removeEventListener Container "mousemove"
                                       (this_mouseMoveHandler this) b in
          _ <- deref (container this) ;;
          let b := removeEventListener Container "mouseleave"
                                       (this_mouseLeaveHandler this) b in
          Normal b
        else Normal b) ;;
  b <- (if truthy (gl this) && truthy (program this) then
          _ <- deref (gl this) ;;
          match program this with
          | Some p => Normal (set_glState (deleteProgram p (glState b)) b)
          | None => Normal b
          end
        else Normal b) ;;
  b <- (if truthy (texture this) && truthy (gl this) then
          _ <- deref (gl this) ;;
          match texture this with
          | Some t => Normal (set_glState (deleteTexture t (glState b)) b)
          | None => Normal b
          end
        else Normal b) ;;
  Normal b.

End Methods.

(** ** The event loop

    The browser runs one task at a time: an input event, an animation
    frame, a timer that is due, the passing of time or a change of layout. *)

Section EventLoop.

Import JS.
Local Open Scope js_scope.
Local Open Scope string_scope.

Inductive Task : Type :=
| Mousemove (e : MouseEvent)
| Mouseleave
| Resized (tg : EventTarget)
| AnimationFrame (id : positive)
| Timeout (id : positive)
| Elapse (ms : Z)
| Relayout (pg : Page).

Definition State : Type := (HeroCRTEffect * Browser)%type.

Definition set_now (t : Z) (b : Browser) : Browser :=
  let s := scheduler b in
  set_scheduler {| now := t; timers := timers s; nextTimer := nextTimer s;
                   frames := frames s; nextFrame := nextFrame s |} b.

Definition pendingTimer (id : positive) (b : Browser) : option Timer :=
  find (fun t => Pos.eqb (timerId t) id) (timers (scheduler b)).

Definition runTimer (t : Timer) (this : HeroCRTEffect) (b : Browser)
  : Completion State :=
  match task t with
  | InitialCapture => captureAndUpload this b
  | ResizeCapture => resizeCallback this b
  end.

Definition deliver (tk : Task) (st : State) : Completion State :=
  let (this, b) := st in
  match tk with
  | Mousemove e =>
      if registered {| target := Container; type := "mousemove";
                       callback := MouseMoveHandler |} b
      then Normal (mouseMoveHandler e b this, b)
      else Normal st
  | Mouseleave =>
      if registered {| target := Container; type := "mouseleave";
                       callback := MouseLeaveHandler |} b
      then Normal (mouseLeaveHandler this, b)
      else Normal st
  | Resized tg =>
      if registered {| target := tg; type := "resize";
                       callback := ResizeHandler |} b
      then Normal (this, resizeHandler b)
      else Normal st
  | AnimationFrame id =>
      if existsb (Pos.eqb id) (frames (scheduler b))
      then Normal (render this (cancelAnimationFrame id b))
      else Normal st
  | Timeout id =>
      match pendingTimer id b with
      | Some t =>
          if (due t <=? now (scheduler b))%Z
          then runTimer t this (clearTimeout (Some id) b)
          else Normal st
      | None => Normal st
      end
  | Elapse ms => Normal (this, set_now (now (scheduler b) + Z.max 0 ms)%Z b)
  | Relayout pg => Normal (this, set_page pg b)
  end.




Fixpoint run (tks : list Task) (st : State) : Completion State :=
  match tks with
  | [] => Normal st
  | tk :: rest => st <- deliver tk st ;; run rest st
  end.

End EventLoop.

(** ** The fragment shader

    GLSL floats are modelled by real numbers. *)

Module Shader.

Import Reals.
Local Open Scope R_scope.

Definition vec2 : Type := (R * R)%type.
Definition vec3 : Type := (R * R * R)%type.
Definition vec4 : Type := (R * R * R * R)%type.
Definition sampler2D : Type := vec2 -> vec4.

Record Uniform : Type := {
  u_texture : sampler2D;
  u_resolution : vec2;
  u_time : R;
  u_curvature : R;
  u_vignette : R;
  u_scanlineIntensity : R;
  u_chromaticAberration : R;
  u_mouseOffset : vec2
}.

(** Built-in functions of GLSL. *)
Definition length (v : vec2) : R := sqrt (fst v * fst v + snd v * snd v).

Definition distance (p q : vec2) : R :=
  length (fst p - fst q, snd p - snd q).

Definition normalize (v : vec2) : vec2 :=
  (fst v / length v, snd v / length v).

Definition mix (x y a : R) : R := x * (1 - a) + y * a.

Definition clamp (x lo hi : R) : R := Rmin (Rmax x lo) hi.

Definition smoothstep (edge0 edge1 x : R) : R :=
  let t := clamp ((x - edge0) / (edge1 - edge0)) 0 1 in
  t * t * (3 - 2 * t).

Definition texture2D (tex : sampler2D) (uv : vec2) : vec4 := tex uv.

Definition red (c : vec4) : R := fst (fst (fst c)).
Definition green (c : vec4) : R := snd (fst (fst c)).
Definition blue (c : vec4) : R := snd (fst c).

Definition scale (k : R) (c : vec3) : vec3 :=
  let '(r, g, b) := c in (r * k, g * k, b * k).

Section Program.

Variable U : Uniform.

(** Curvature distortion. *)
Definition distort (uv : vec2) : vec2 :=
  let center := (0.5, 0.5) in
  let coord := (fst uv - fst center, snd uv - snd center) in
  let dist := length coord in
  let factor := 1.0 + u_curvature U * dist * dist in
  (fst center + fst coord * factor, snd center + snd coord * factor).

Definition chromaticAberration (tex : sampler2D) (uv : vec2) (amount : R)
           (offset : vec2) : vec3 :=
  let r := red (texture2D tex (fst uv + (amount + fst offset),
                               snd uv + snd offset)) in
  let g := green (texture2D tex uv) in
  let b := blue (texture2D tex (fst uv - (amount + fst offset),
                                snd uv - snd offset)) in
  (r, g, b).

Definition vignette (uv : vec2) : R :=
  let center := (0.5, 0.5) in
  let dist := distance uv center in
  1.0 - smoothstep 0.3 0.8 dist * u_vignette U.

Definition scanlines (uv : vec2) : R :=
  let scanline := sin (snd uv * snd (u_resolution U) * 3.14159) * 0.5 + 0.5 in
  mix 1.0 scanline (u_scanlineIntensity U * 0.3).

Definition flicker (time : R) : R := 1.0 + sin (time * 10.0) * 0.02.

(** The test that guards the early [return] of [main]. *)
Definition outOfRange (distortedUV : vec2) : bool :=
  if Rlt_dec (fst distortedUV) 0.0 then true
  else if Rgt_dec (fst distortedUV) 1.0 then true
  else if Rlt_dec (snd distortedUV) 0.0 then true
  else if Rgt_dec (snd distortedUV) 1.0 then true
  else false.

(** [main] after the range test: the sampled and shaded colour. *)
Definition shade (uv distortedUV : vec2) : vec4 :=
  let center := (0.5, 0.5) in
  let centerToPixel := (fst uv - fst center, snd uv - snd center) in
  let aspect := fst (u_resolution U) / snd (u_resolution U) in
  let centerToPixelCorrected := (fst centerToPixel * aspect,
                                 snd centerToPixel) in
  let distFromCenter := length centerToPixelCorrected in
  let mouseIntensity := length (u_mouseOffset U) in
  let aberration :=
    if Rgt_dec mouseIntensity 0.001 then
      let mouseDirection := normalize (u_mouseOffset U) in
      (- fst mouseDirection * distFromCenter * mouseIntensity * 1.5,
       - snd mouseDirection * distFromCenter * mouseIntensity * 1.5)
    else (0.0, 0.0) in
  let color := chromaticAberration (u_texture U) distortedUV
                 (u_chromaticAberration U * 0.003) aberration in
  let color := scale (scanlines uv) color in
  let color := scale (vignette uv) color in
  let color := scale (flicker (u_time U)) color in
  (color, 1.0).

(** [main()]: the value of [gl_FragColor] at [v_texCoord]. *)
Definition main (v_texCoord : vec2) : vec4 :=
  let uv := v_texCoord in
  let distortedUV := distort uv in
  if outOfRange distortedUV then (0.0, 0.0, 0.0, 1.0)
  else shade uv distortedUV.

End Program.

End Shader.

(** ** Vocabulary of the properties *)

Section Vocabulary.

Import JS.
Local Open Scope string_scope.

(** The pointer is over a container that has a positive size. *)
Definition inside (e : MouseEvent) (r : DOMRect) : Prop :=
  0 < width r /\ 0 < height r
  /\ left r <= clientX e /\ clientX e <= left r + width r
  /\ top r <= clientY e /\ clientY e <= top r + height r.

(** [render()] goes past its first test. *)
Definition rendering (this : HeroCRTEffect) : bool :=
  truthy (gl this) && truthy (program this).

(** The idle branch of [render()] nudges the velocity on these draws. *)
Definition nudges (r : Rand) : bool := ltb (r 0%nat) 0.001 || ltb (r 1%nat) 0.01.

(** The idle perturbation as two independent events per frame: each nudge
    is decided by its own draw, whatever the other one did. *)
Definition idleGlitch_independent (p : PointerState) (r : Rand)
  : PointerState * Rand :=
  let (c, r) := random r in
  let '(p, r) :=
    if ltb c 0.001 then
      let (a, r) := random r in
      let p := set_velocityX (velocityX p + (a - 0.5) * 0.002) p in
      let (a, r) := random r in
      let p := set_velocityY (velocityY p + (a - 0.5) * 0.002) p in
      (p, r)
    else (p, r) in
  let (c, r) := random r in
  if ltb c 0.01 then
    let (a, r) := random r in
    let p := set_velocityX (velocityX p + (a - 0.5) * 0.0005) p in
    let (a, r) := random r in
    let p := set_velocityY (velocityY p + (a - 0.5) * 0.0005) p in
    (p, r)
  else (p, r).

(** Tasks the browser can really deliver: a [mousemove] on the container
    carries a position inside it. *)
Definition admissible (tk : Task) (st : State) : Prop :=
  match tk with
  | Mousemove e => inside e (containerRect (page (snd st)))
  | _ => True
  end.

(** The states a controller goes through, from its construction on. *)
Inductive Reachable : State -> Prop :=
| Reachable_new (sid : string) (pf : Platform) (b : Browser) (st : State) :
    uniform (rand b) ->
    constructor sid pf b = Normal st ->
    Reachable st
| Reachable_step (tk : Task) (st st' : State) :
    Reachable st ->
    admissible tk st ->
    deliver tk st = Normal st' ->
    Reachable st'.

(** A page, a platform where everything succeeds, and a quiet generator,
    for concrete runs. *)
Definition plainStyle : Style :=
  {| display := "block"; visibility := "visible"; opacity := "1";
     backgroundColor := "rgb(16, 16, 16)" |}.

Definition demoPage : Page :=
  {| containerRect := {| left := 0; top := 0; width := 800; height := 600 |};
     containerStyle := plainStyle;
     mediaElements := [] |}.

Definition demoPlatform : Platform :=
  {| canvasElement := Some 1%nat; containerElement := Some 2%nat;
     webgl := Some 3%nat; context2d := true;
     vertexCompiles := true; fragmentCompiles := true; programLinks := true;
     hasResizeObserver := true |}.

Definition freshBrowser (pg : Page) (r : Rand) : Browser :=
  {| page := pg; rand := r; canvasSize := (300, 150);
     glState := {| programs := []; textures := []; nextObject := 1%nat;
                   viewport := (300, 150); textureImage := None;
                   drawn := [] |};
     scheduler := {| now := 0%Z; timers := []; nextTimer := 1%positive;
                     frames := []; nextFrame := 1%positive |};
     listeners := []; resizeTimeout := None; recaptures := 0%nat |}.

Definition demoBrowser : Browser := freshBrowser demoPage (fun _ => 0.5).

(** The result of a call that completes. *)
Definition completed {A} (c : Completion A) (otherwise : A) : A :=
  match c with
  | Normal a => a
  | Throw _ => otherwise
  end.

(** A controller right after a construction in which nothing failed. *)
Definition demoState : State :=
  completed (constructor "hero" demoPlatform demoBrowser)
            (newObject, demoBrowser).

(** Two quadratic measures of one axis, offset [m] and velocity [v]: a
    frame without attraction to a target or nudge multiplies the first by
    the momentum while hovering, and the second while idle. *)
Definition energyHover (m v : Q) : Q :=
  34 * (m * m) + 26 * (m * v) + 340 * (v * v).

Definition energyIdle (m v : Q) : Q :=
  34 * (m * m) + 266 * (m * v) + 1700 * (v * v).

(** The invariant of the pointer state. *)
Definition settled (p : PointerState) : Prop :=
  Qabs (targetMouseX p) <= 0.004 /\ Qabs (targetMouseY p) <= 0.004
  /\ if isHovering p
     then energyHover (mouseX p) (velocityX p) <= 0.008
          /\ energyHover (mouseY p) (velocityY p) <= 0.008
     else energyIdle (mouseX p) (velocityX p) <= 0.28
          /\ energyIdle (mouseY p) (velocityY p) <= 0.28.

(** The parameters are those the constructor assigns, or the controller
    never got that far and does not render. *)
Definition calibrated (this : HeroCRTEffect) : Prop :=
  (mouseSensitivity (params this) == 0.008 /\ momentum (params this) == 0.85)
  \/ (mouseSensitivity (params this) == 0 /\ rendering this = false).

(** What every reachable state satisfies. *)
Definition Invariant (st : State) : Prop :=
  calibrated (fst st) /\ settled (pointer (fst st)) /\ uniform (rand (snd st)).


(** Animation frames with consecutive handles, starting at [id]. *)
Fixpoint framesFrom (id : positive) (count : nat) : list Task :=
  match count with
  | O => []
  | S k => AnimationFrame id :: framesFrom (Pos.succ id) k
  end.

(** The pointer enters near the right edge of the demo container, jumps
    near the left edge ten frames later, and back after eleven more. *)
Definition shake : list Task :=
  Mousemove {| clientX := 792; clientY := 300 |} :: framesFrom 1 10
  ++ Mousemove {| clientX := 8; clientY := 300 |} :: framesFrom 11 11
  ++ Mousemove {| clientX := 792; clientY := 300 |} :: framesFrom 22 11.

(** Pointer states that hold the same numbers. *)
Definition agree (p q : PointerState) : Prop :=
  mouseX p == mouseX q /\ mouseY p == mouseY q
  /\ targetMouseX p == targetMouseX q /\ targetMouseY p == targetMouseY q
  /\ velocityX p == velocityX q /\ velocityY p == velocityY q
  /\ isHovering p = isHovering q.

(** The same state with every fraction in lowest terms. *)
Definition reduced (p : PointerState) : PointerState :=
  {| mouseX := Qred (mouseX p); mouseY := Qred (mouseY p);
     targetMouseX := Qred (targetMouseX p);
     targetMouseY := Qred (targetMouseY p);
     velocityX := Qred (velocityX p); velocityY := Qred (velocityY p);
     isHovering := isHovering p |}.

(** [n] interpolations and a new target, computed in lowest terms. *)
Definition glide (P : EffectParameters) (n : nat) (p : PointerState)
  : PointerState :=
  Nat.iter n (fun q => reduced (interpolate P q)) p.

Definition aim (tx ty : Q) (p : PointerState) : PointerState :=
  reduced (set_targetMouseY ty (set_targetMouseX tx p)).

(** A controller of the demo page that renders, with exactly the frame
    [id] pending. *)
Definition poised (id : positive) (st : State) : Prop :=
  rendering (fst st) = true
  /\ params (fst st) = params (fst demoState)
  /\ frames (scheduler (snd st)) = [id]
  /\ nextFrame (scheduler (snd st)) = Pos.succ id
  /\ listeners (snd st) = listeners (snd demoState)
  /\ page (snd st) = demoPage.

(** The elements that [captureContainer] is meant to draw: not the
    controller's own canvas, displayed, visible and not fully transparent,
    overlapping the raster, and drawable. *)
Definition shown (el : Media) : bool :=
  negb (display (style el) =? "none")
  && negb (visibility (style el) =? "hidden")
  && negb (opacity (style el) =? "0").

Definition overlaps (containerRect : DOMRect) (canvasWidth canvasHeight : Q)
           (el : Media) : bool :=
  let x := left (rect el) - left containerRect in
  let y := top (rect el) - top containerRect in
  gtb (x + width (rect el)) 0 && gtb (y + height (rect el)) 0
  && ltb x canvasWidth && ltb y canvasHeight.

Definition valid (this : HeroCRTEffect) (containerRect : DOMRect)
           (canvasWidth canvasHeight : Q) (el : Media) : bool :=
  negb (same_node (node el) (canvas this))
  && shown el
  && overlaps containerRect canvasWidth canvasHeight el
  && negb (drawFails el).

Definition placed (containerRect : DOMRect) (el : Media) : DrawOp :=
  DrawImage (node el)
            (left (rect el) - left containerRect)
            (top (rect el) - top containerRect)
            (width (rect el)) (height (rect el)).

(** The fill colour of the raster. *)
Definition background (s : Style) : string :=
  if negb (backgroundColor s =? "")
     && negb (backgroundColor s =? "rgba(0, 0, 0, 0)")
     && negb (backgroundColor s =? "transparent")
  then backgroundColor s
  else "#000000".

(** The raster that a capture of the page [pg] leaves on a canvas of the
    size of [sc]. *)
Definition snapshot (this : HeroCRTEffect) (pg : Page) (sc : Canvas)
  : Canvas :=
  {| cwidth := cwidth sc; cheight := cheight sc;
     pixels :=
       FillRect (background (containerStyle pg)) 0 0 (cwidth sc) (cheight sc)
       :: map (placed (containerRect pg))
              (filter (valid this (containerRect pg) (cwidth sc) (cheight sc))
                      (mediaElements pg)) |}.

(** A controller that has a 2d context has the canvas it belongs to. *)
Definition initialised (this : HeroCRTEffect) : Prop :=
  truthy (sourceContext this) = true -> truthy (sourceCanvas this) = true.

(** Two lists of media elements that differ at most in the entries of
    the node [n]. *)
Definition sameElsewhere (n : Node) (ms ms' : list Media) : Prop :=
  Forall2 (fun m m' => node m = node m' /\ (node m <> n -> m = m')) ms ms'.

(** A page with a picture, a picture whose drawing fails, the
    controller's own canvas, a hidden video and a picture outside the
    container. *)
Definition galleryPage : Page :=
  let at_ (l t w h : Q) :=
    {| left := l; top := t; width := w; height := h |} in
  {| containerRect := at_ 0 100 800 600;
     containerStyle := plainStyle;
     mediaElements :=
       [ {| node := 10%nat; style := plainStyle; rect := at_ 0 100 400 300;
            drawFails := false |};
         {| node := 11%nat; style := plainStyle; rect := at_ 400 100 400 300;
            drawFails := true |};
         {| node := 1%nat; style := plainStyle; rect := at_ 0 100 800 600;
            drawFails := false |};
         {| node := 12%nat;
            style := {| display := "none"; visibility := "visible";
                        opacity := "1"; backgroundColor := "" |};
            rect := at_ 0 400 800 300; drawFails := false |};
         {| node := 13%nat; style := plainStyle; rect := at_ 900 100 100 100;
            drawFails := false |};
         {| node := 14%nat; style := plainStyle; rect := at_ 0 400 800 300;
            drawFails := false |} ] |}.





(** What the timers leave alone. *)
Definition sameSchedule (b b' : Browser) : Prop :=
  now (scheduler b') = now (scheduler b)
  /\ nextTimer (scheduler b') = nextTimer (scheduler b)
  /\ resizeTimeout b' = resizeTimeout b
  /\ listeners b' = listeners b.

(** What [destroy] leaves of the scheduler, of the listeners and of the
    GL objects. *)
Definition released (this : HeroCRTEffect) (s : Scheduler) : Scheduler :=
  match animationFrameId this with
  | Some id =>
      {| now := now s; timers := timers s; nextTimer := nextTimer s;
         frames := filter (fun i => negb (Pos.eqb i id)) (frames s);
         nextFrame := nextFrame s |}
  | None => s
  end.

Definition without (l : Listener) (ls : list Listener) : list Listener :=
  filter (fun m => negb (Listener_eqb l m)) ls.

Definition unlistened (this : HeroCRTEffect) (ls : list Listener)
  : list Listener :=
  match container this, this_mouseMoveHandler this with
  | Some _, Some move =>
      let ls := without {| target := Container; type := "mousemove";
                           callback := move |} ls in
      match this_mouseLeaveHandler this with
      | Some leave => without {| target := Container; type := "mouseleave";
                                 callback := leave |} ls
      | None => ls
      end
  | _, _ => ls
  end.

Definition deleted (this : HeroCRTEffect) (g : GLState) : GLState :=
  let g := match gl this, program this with
           | Some _, Some p => deleteProgram p g
           | _, _ => g
           end in
  match gl this, texture this with
  | Some _, Some t => deleteTexture t g
  | _, _ => g
  end.

Definition destroyed (this : HeroCRTEffect) (b : Browser) : Browser :=
  {| page := page b; rand := rand b; canvasSize := canvasSize b;
     glState := deleted this (glState b);
     scheduler := released this (scheduler b);
     listeners := unlistened this (listeners b);
     resizeTimeout := resizeTimeout b; recaptures := recaptures b |}.

End Vocabulary.

(** ** Vocabulary of the life cycle *)

Section Lifecycle.

Import JS.
Local Open Scope string_scope.

(** The debounced resize listener on the target [tg]. *)
Definition resizeListener (tg : EventTarget) : Listener :=
  {| target := tg; type := "resize"; callback := ResizeHandler |}.

(** The frame loop: a controller that renders has exactly one animation
    frame pending, the one whose handle it keeps; any other has none. *)
Definition oneFrame (st : State) : Prop :=
  if rendering (fst st)
  then exists id, frames (scheduler (snd st)) = [id]
                  /\ animationFrameId (fst st) = Some id
  else frames (scheduler (snd st)) = [].

(** Either the controller has its offscreen canvas, or no timer is pending
    and no resize listener is registered. *)
Definition safe (st : State) : Prop :=
  truthy (sourceCanvas (fst st)) = true
  \/ (timers (scheduler (snd st)) = []
      /\ forall tg, registered (resizeListener tg) (snd st) = false).

(** What a capture and a resize leave of the controller: everything but
    the offscreen canvas and its context. *)
Definition sameController (this this' : HeroCRTEffect) : Prop :=
  canvas this' = canvas this /\ container this' = container this
  /\ gl this' = gl this /\ program this' = program this
  /\ texture this' = texture this
  /\ animationFrameId this' = animationFrameId this
  /\ time this' = time this /\ pointer this' = pointer this
  /\ params this' = params this
  /\ this_mouseMoveHandler this' = this_mouseMoveHandler this
  /\ this_mouseLeaveHandler this' = this_mouseLeaveHandler this.

(** What they leave of the browser: everything but the size of the
    canvas, the viewport, the uploaded image and the count of re-captures. *)
Definition sameBrowser (b b' : Browser) : Prop :=
  page b' = page b /\ rand b' = rand b /\ scheduler b' = scheduler b
  /\ listeners b' = listeners b /\ resizeTimeout b' = resizeTimeout b
  /\ programs (glState b') = programs (glState b)
  /\ textures (glState b') = textures (glState b)
  /\ drawn (glState b') = drawn (glState b).

(** The controller as [init] hands it to [setupWebGL]: every field
    assigned by the constructor, the WebGL context, and the offscreen canvas
    with its context. *)
Definition prepared (sid : string) (pf : Platform) (cv ct : Node)
           (g : GLContext) : HeroCRTEffect :=
  {| sectionId := sid; canvas := Some cv; container := Some ct;
     gl := Some g; program := None; texture := None;
     sourceCanvas := Some {| cwidth := 300; cheight := 150; pixels := [] |};
     sourceContext :=
       (if context2d pf then Some {| fillStyle := "#000000" |} else None);
     animationFrameId := None; time := 0;
     pointer := {| mouseX := 0.0; mouseY := 0.0;
                   targetMouseX := 0.0; targetMouseY := 0.0;
                   velocityX := 0.0; velocityY := 0.0;
                   isHovering := false |};
     params := {| curvature := 0.12; vignette := 0.74;
                  scanlineIntensity := 0.5;
                  chromaticAberration := 0.5;
                  mouseSensitivity := 0.008;
                  momentum := 0.85 |};
     this_mouseMoveHandler := None; this_mouseLeaveHandler := None |}.

(** The steps of [init] that follow [setupWebGL], on a controller that has
    its container: the listeners, the timer of the initial capture and the
    first frame. *)
Definition finishInit (pf : Platform) (st : State) : Completion State :=
  let this := fst st in
  let b := setupResize pf this (snd st) in
  let b := addEventListener Container "mousemove" MouseMoveHandler b in
  let b := addEventListener Container "mouseleave" MouseLeaveHandler b in
  let this :=
    set_handlers (Some MouseMoveHandler) (Some MouseLeaveHandler) this in
  Normal (render this (snd (setTimeout InitialCapture 500 b))).

(** The two pointer listeners of [setupMouseTracking]. *)
Definition moveListener : Listener :=
  {| target := Container; type := "mousemove"; callback := MouseMoveHandler |}.

Definition leaveListener : Listener :=
  {| target := Container; type := "mouseleave";
     callback := MouseLeaveHandler |}.

(** A pointer listener is registered only if the controller keeps both
    handlers for its cleanup. *)
Definition tracked (st : State) : Prop :=
  registered moveListener (snd st) = true
  \/ registered leaveListener (snd st) = true ->
  truthy (container (fst st)) = true
  /\ this_mouseMoveHandler (fst st) = Some MouseMoveHandler
  /\ this_mouseLeaveHandler (fst st) = Some MouseLeaveHandler.

(** After teardown: no frame is pending and no pointer listener is
    registered. *)
Definition halted (st : State) : Prop :=
  frames (scheduler (snd st)) = []
  /\ registered moveListener (snd st) = false
  /\ registered leaveListener (snd st) = false.

(** The live GL objects are those the controller holds: its program and
    its texture, created on its own context. *)
Definition owns (st : State) : Prop :=
  programs (glState (snd st))
  = match program (fst st) with Some p => [p] | None => [] end
  /\ textures (glState (snd st))
     = match texture (fst st) with Some t => [t] | None => [] end
  /\ (truthy (gl (fst st)) = false ->
      program (fst st) = None /\ texture (fst st) = None).


(** The effect parameters that the constructor assigns. *)
Definition defaultParameters : EffectParameters :=
  {| curvature := 0.12; vignette := 0.74; scanlineIntensity := 0.5;
     chromaticAberration := 0.5; mouseSensitivity := 0.008;
     momentum := 0.85 |}.

(** A draw call made with the effect parameters [P]. *)
Definition carries (P : EffectParameters) (u : Uniforms) : Prop :=
  u_curvature u = curvature P /\ u_vignette u = vignette P
  /\ u_scanlineIntensity u = scanlineIntensity P
  /\ u_chromaticAberration u = chromaticAberration P.


End Lifecycle.

(** ** Initialisation of a page *)

Module Document.

(** An element of the document: its [id] and its [data-crt-enabled]
    attribute, which [dataset.crtEnabled] reads too. *)
Record Element : Type := {
  id : string;
  crtEnabled : option string
}.

End Document.

Section PageInit.

Import JS Document.
Local Open Scope js_scope.
Local Open Scope string_scope.

(** [s.replace(searchValue, replaceValue)] with a string to search for:
    the first occurrence is replaced, a string without one is returned as
    it is.  The patterns of [replaceValue] that start with a dollar sign
    are not modelled; the script replaces by the empty string. *)
Definition replace (searchValue replaceValue s : string) : string :=
  match index 0 searchValue s with
  | Some pos =>
      let after := (pos + String.length searchValue)%nat in
      substring 0 pos s ++ replaceValue
      ++ substring after (String.length s - after) s
  | None => s
  end.

(** The selector [[data-crt-enabled="true"]]. *)
Definition enabled (el : Element) : bool :=
  match crtEnabled el with
  | Some v => v =? "true"
  | None => false
  end.

(** [document.querySelectorAll('[data-crt-enabled="true"]')], in document
    order. *)
Definition querySelectorAll (doc : list Element) : list Element :=
  filter enabled doc.

(** [document.getElementById(i)]: the first element with that id. *)
Definition getElementById (doc : list Element) (i : string) : option Element :=
  find (fun el => id el =? i) doc.

Variable S : Type.

(** [new HeroCRTEffect(sectionId)], as it acts on the state of the page. *)
Variable new_HeroCRTEffect : string -> S -> Completion S.

(** [initHeroCRTEffects()]. *)
Definition initHeroCRTEffects (doc : list Element) (s : S) : Completion S :=
  let crtSections := querySelectorAll doc in
  forEach
    (fun s section =>
       let sectionId := replace "Hero-CRT-" "" (id section) in
       if negb (sectionId =? "") then new_HeroCRTEffect sectionId s
       else Normal s)
    crtSections s.

(** The listener of [shopify:section:load]; [sectionId] is
    [event.detail.sectionId], [None] when it is undefined. *)
Definition sectionLoad (doc : list Element) (sectionId : option string) (s : S)
  : Completion S :=
  match sectionId with
  | Some sectionId =>
      if negb (sectionId =? "") then
        match getElementById doc ("Hero-CRT-" ++ sectionId) with
        | Some section =>
            if enabled section then new_HeroCRTEffect sectionId s
            else Normal s
        | None => Normal s
        end
      else Normal s
  | None => Normal s
  end.

(** The section ids for which [initHeroCRTEffects] builds a controller. *)
Definition sectionIds (doc : list Element) : list string :=
  filter (fun sectionId => negb (sectionId =? ""))
         (map (fun section => replace "Hero-CRT-" "" (id section))
              (querySelectorAll doc)).

End PageInit.

(** ** Vocabulary of the shader properties *)

Section ShaderVocabulary.

Import Reals.
Local Open Scope R_scope.

(** A texture whose colour channels lie between 0 and 1. *)
Definition unitTexture (tex : Shader.sampler2D) : Prop :=
  forall uv,
    0 <= Shader.red (tex uv) <= 1
    /\ 0 <= Shader.green (tex uv) <= 1
    /\ 0 <= Shader.blue (tex uv) <= 1.

(** A texture coordinate inside the unit square. *)
Definition inSquare (uv : Shader.vec2) : Prop :=
  0 <= fst uv <= 1 /\ 0 <= snd uv <= 1.

(** The colour channels of a sample. *)
Definition rgb (c : Shader.vec4) : Shader.vec3 :=
  (Shader.red c, Shader.green c, Shader.blue c).

(** The uniforms of a frame of the demo page, with a grey texture. *)
Definition demoUniform : Shader.Uniform :=
  {| Shader.u_texture := fun _ => (0.5, 0.5, 0.5, 1);
     Shader.u_resolution := (800, 600);
     Shader.u_time := 0.016;
     Shader.u_curvature := 0.12;
     Shader.u_vignette := 0.74;
     Shader.u_scanlineIntensity := 0.5;
     Shader.u_chromaticAberration := 0.5;
     Shader.u_mouseOffset := (0.002, 0) |}.

End ShaderVocabulary.

(** ** The vertex stage

    The vertex shader, the two buffers of [setupGeometry] and the way
    [drawArrays(TRIANGLES, 0, 6)] reads them. *)

Module Geometry.

Import Reals.
Local Open Scope R_scope.

(** [main] of the vertex shader: [gl_Position] and [v_texCoord]. *)
Definition main (a_position a_texCoord : Shader.vec2)
  : Shader.vec4 * Shader.vec2 :=
  ((fst a_position, snd a_position, 0.0, 1.0), a_texCoord).

(** The quad of [setupGeometry]. *)
Definition positions : list R :=
  [ -1; -1;
     1; -1;
    -1;  1;
    -1;  1;
     1; -1;
     1;  1 ].

Definition texCoords : list R :=
  [ 0; 1;
    1; 1;
    0; 0;
    0; 0;
    1; 1;
    1; 0 ].

(** [vertexAttribPointer(location, 2, FLOAT, false, 0, 0)]: vertex [n]
    reads two consecutive floats of the buffer. *)
Definition attribute (buffer : list R) (n : nat) : Shader.vec2 :=
  (nth (2 * n) buffer 0, nth (2 * n + 1) buffer 0).

(** The output of the vertex shader for vertex [n]. *)
Definition vertex (n : nat) : Shader.vec4 * Shader.vec2 :=
  main (attribute positions n) (attribute texCoords n).

(** [drawArrays(TRIANGLES, 0, 6)]: the triangles start at the vertices 0
    and 3. *)
Definition triangles : list nat := [0%nat; 3%nat].

(** Weights of a point of a triangle: not negative, with sum 1. *)
Definition weights (w : R * R * R) : Prop :=
  let '(a, b, c) := w in 0 <= a /\ 0 <= b /\ 0 <= c /\ a + b + c = 1.

(** The value that the rasterizer gives a varying (or the position) at the
    point of weights [w], from its values [p], [q], [r] at the corners; all
    vertices have [w = 1], so the interpolation is affine. *)
Definition interpolated (w : R * R * R) (p q r : Shader.vec2) : Shader.vec2 :=
  let '(a, b, c) := w in
  (a * fst p + b * fst q + c * fst r, a * snd p + b * snd q + c * snd r).

(** The x and y of [gl_Position]. *)
Definition xy (v : Shader.vec4 * Shader.vec2) : Shader.vec2 :=
  (fst (fst (fst (fst v))), snd (fst (fst (fst v)))).

(** Position and [v_texCoord] of the fragment of weights [w] in the
    triangle that starts at vertex [n]. *)
Definition fragment (n : nat) (w : R * R * R) : Shader.vec2 * Shader.vec2 :=
  (interpolated w (xy (vertex n)) (xy (vertex (n + 1))) (xy (vertex (n + 2))),
   interpolated w (snd (vertex n)) (snd (vertex (n + 1)))
                (snd (vertex (n + 2)))).

End Geometry.

(** * Properties *)

(** ** Numbers *)

Lemma ltb_spec (a b : Q) : JS.ltb a b = true <-> a < b.
Proof.
  unfold JS.ltb. rewrite negb_true_iff. split; intro H.
  - apply Qnot_le_lt. intro L. apply Qle_bool_iff in L. congruence.
  - destruct (Qle_bool b a) eqn:E; [|reflexivity].
    apply Qle_bool_iff in E. exfalso. apply (Qlt_not_le _ _ H E).
Qed.

Lemma ltb_false (a b : Q) : JS.ltb a b = false <-> b <= a.
Proof.
  unfold JS.ltb. rewrite negb_false_iff. apply Qle_bool_iff.
Qed.

Lemma Qabs_bound (x c : Q) : - c <= x -> x <= c -> Qabs x <= c.
Proof. intros L U. apply Qabs_Qle_condition. split; assumption. Qed.

Lemma Qabs_bound_inv (x c : Q) : Qabs x <= c -> - c <= x /\ x <= c.
Proof. intro H. apply Qabs_Qle_condition in H. exact H. Qed.

Lemma Qabs_damped (k v : Q) : 0 <= k -> k <= 1 -> Qabs (k * v) <= Qabs v.
Proof.
  intros K0 K1. rewrite Qabs_Qmult, (Qabs_pos k K0).
  pose proof (Qabs_nonneg v) as N.
  assert (0 <= (1 - k) * Qabs v) by (apply Qmult_le_0_compat; lra). lra.
Qed.

Lemma Qsquare_nonneg (x : Q) : 0 <= x * x.
Proof. nra. Qed.

Lemma square_bound (t c : Q) : - c <= t -> t <= c -> t * t <= c * c.
Proof. intros. nra. Qed.

(** ** The pointer handlers *)

(** What [mouseMoveHandler] leaves in each field of the pointer state. *)
Lemma mouseMoveHandler_pointer (e : MouseEvent) (b : Browser)
      (this : HeroCRTEffect) :
  let p := pointer this in
  let p' := pointer (mouseMoveHandler e b this) in
  let rect := containerRect (page b) in
  isHovering p' = true
  /\ targetMouseX p'
     = ((clientX e - left rect) / width rect - 0.5) * mouseSensitivity (params this)
  /\ targetMouseY p'
     = ((clientY e - top rect) / height rect - 0.5) * mouseSensitivity (params this)
  /\ mouseX p' = (if isHovering p then mouseX p else 0)
  /\ mouseY p' = (if isHovering p then mouseY p else 0)
  /\ velocityX p' = (if isHovering p then velocityX p else 0)
  /\ velocityY p' = (if isHovering p then velocityY p else 0).
Proof.
  unfold mouseMoveHandler. destruct (isHovering (pointer this)); cbn; repeat split.
Qed.

(** The normalized position of a pointer inside the container, and the
    magnitude of the target it gives. *)
Lemma normalized_range (c l w : Q) :
  0 < w -> l <= c -> c <= l + w -> 0 <= (c - l) / w /\ (c - l) / w <= 1.
Proof.
  intros W L U.
  assert (E : (c - l) / w * w == c - l) by (field; lra).
  split; apply Qnot_lt_le; intro N; nra.
Qed.

Lemma target_range (x s : Q) :
  0 <= x -> x <= 1 -> 0 <= s -> Qabs ((x - 0.5) * s) <= 0.5 * s.
Proof.
  intros X0 X1 S.
  assert (0 <= x * s) by (apply Qmult_le_0_compat; assumption).
  assert (0 <= (1 - x) * s) by (apply Qmult_le_0_compat; lra).
  apply Qabs_bound; lra.
Qed.

(** ** One frame *)

Lemma render_inert (this : HeroCRTEffect) (b : Browser) :
  rendering this = false -> render this b = (this, b).
Proof.
  unfold rendering, render. intro H.
  destruct (JS.truthy (gl this)), (JS.truthy (program this));
    try discriminate H; reflexivity.
Qed.

Lemma render_pointer (this : HeroCRTEffect) (b : Browser) :
  rendering this = true ->
  pointer (fst (render this b))
  = interpolate (params this)
      (if isHovering (pointer this) then pointer this
       else fst (idleGlitch (pointer this) (rand b))).
Proof.
  unfold rendering, render. intro H.
  destruct (JS.truthy (gl this)), (JS.truthy (program this));
    try discriminate H. cbn [negb orb].
  destruct (isHovering (pointer this)); cbn [negb].
  - reflexivity.
  - destruct (idleGlitch (pointer this) (rand b)) as [q r]. reflexivity.
Qed.

Lemma render_rand_hovering (this : HeroCRTEffect) (b : Browser) :
  isHovering (pointer this) = true -> rand (snd (render this b)) = rand b.
Proof.
  unfold render. intro H.
  destruct (negb (JS.truthy (gl this)) || negb (JS.truthy (program this)));
    [reflexivity|].
  rewrite H. reflexivity.
Qed.

Lemma render_fixed (this : HeroCRTEffect) (b : Browser) :
  let this' := fst (render this b) in
  params this' = params this /\ gl this' = gl this
  /\ program this' = program this /\ texture this' = texture this
  /\ canvas this' = canvas this /\ container this' = container this
  /\ sourceCanvas this' = sourceCanvas this
  /\ sourceContext this' = sourceContext this
  /\ this_mouseMoveHandler this' = this_mouseMoveHandler this
  /\ this_mouseLeaveHandler this' = this_mouseLeaveHandler this.
Proof.
  unfold render.
  destruct (negb (JS.truthy (gl this)) || negb (JS.truthy (program this)));
    [cbn; repeat split|].
  destruct (if negb (isHovering (pointer this))
            then idleGlitch (pointer this) (rand b)
            else (pointer this, rand b)) as [q r].
  cbn. repeat split.
Qed.

Lemma render_browser (this : HeroCRTEffect) (b : Browser) :
  rendering this = true ->
  let b' := snd (render this b) in
  frames (scheduler b') = nextFrame (scheduler b) :: frames (scheduler b)
  /\ nextFrame (scheduler b') = Pos.succ (nextFrame (scheduler b))
  /\ listeners b' = listeners b /\ page b' = page b.
Proof.
  unfold rendering, render. intro R.
  destruct (JS.truthy (gl this)), (JS.truthy (program this));
    try discriminate R. cbn [negb orb].
  destruct (if negb (isHovering (pointer this))
            then idleGlitch (pointer this) (rand b)
            else (pointer this, rand b)) as [q r].
  cbn. repeat split.
Qed.

(** The fields of the state after the interpolation. *)
Lemma interpolate_fields (P : EffectParameters) (p : PointerState) :
  let a := if isHovering p then 0.1 else 0.02 in
  let p' := interpolate P p in
  velocityX p' = (velocityX p + (targetMouseX p - mouseX p) * a) * momentum P
  /\ velocityY p' = (velocityY p + (targetMouseY p - mouseY p) * a) * momentum P
  /\ mouseX p' = mouseX p + velocityX p'
  /\ mouseY p' = mouseY p + velocityY p'
  /\ targetMouseX p' = targetMouseX p
  /\ targetMouseY p' = targetMouseY p
  /\ isHovering p' = isHovering p.
Proof. cbn. repeat split. Qed.

(** The idle branch touches the velocity only. *)
Lemma idleGlitch_frame (p : PointerState) (r : JS.Rand) :
  let p' := fst (idleGlitch p r) in
  mouseX p' = mouseX p /\ mouseY p' = mouseY p
  /\ targetMouseX p' = targetMouseX p /\ targetMouseY p' = targetMouseY p
  /\ isHovering p' = isHovering p.
Proof.
  unfold idleGlitch, JS.random.
  destruct (JS.ltb (r 0%nat) 0.001); [cbn; repeat split|].
  destruct (JS.ltb (r 1%nat) 0.01); cbn; repeat split.
Qed.

(** The three outcomes of the idle branch. *)
Lemma idleGlitch_cases (p : PointerState) (r : JS.Rand) :
  let p' := fst (idleGlitch p r) in
  (r 0%nat < 0.001 ->
   velocityX p' = velocityX p + (r 1%nat - 0.5) * 0.002
   /\ velocityY p' = velocityY p + (r 2%nat - 0.5) * 0.002)
  /\ (0.001 <= r 0%nat -> r 1%nat < 0.01 ->
      velocityX p' = velocityX p + (r 2%nat - 0.5) * 0.0005
      /\ velocityY p' = velocityY p + (r 3%nat - 0.5) * 0.0005)
  /\ (0.001 <= r 0%nat -> 0.01 <= r 1%nat -> idleGlitch p r = (p, fun n => r (S (S n)))).
Proof.
  unfold idleGlitch, JS.random.
  destruct (JS.ltb (r 0%nat) 0.001) eqn:A.
  - apply ltb_spec in A. cbn. repeat split; intros; exfalso; lra.
  - apply ltb_false in A. destruct (JS.ltb (r 1%nat) 0.01) eqn:B.
    + apply ltb_spec in B. cbn. repeat split; intros; exfalso; lra.
    + apply ltb_false in B. cbn. repeat split; intros; exfalso; lra.
Qed.

Lemma idleGlitch_quiet (p : PointerState) (r : JS.Rand) :
  nudges r = false -> fst (idleGlitch p r) = p.
Proof.
  unfold nudges. intro H. apply orb_false_elim in H as [A B].
  apply ltb_false in A, B.
  destruct (idleGlitch_cases p r) as (_ & _ & Q).
  rewrite (Q A B). reflexivity.
Qed.

Lemma idleGlitch_rand (p : PointerState) (r : JS.Rand) :
  exists k, snd (idleGlitch p r) = fun n => r (k + n)%nat.
Proof.
  unfold idleGlitch, JS.random.
  destruct (JS.ltb (r 0%nat) 0.001); [exists 3%nat; reflexivity|].
  destruct (JS.ltb (r 1%nat) 0.01); [exists 4%nat|exists 2%nat]; reflexivity.
Qed.

Lemma nudge_bound (a k : Q) :
  0 <= a -> a < 1 -> 0 <= k -> Qabs ((a - 0.5) * k) <= 0.5 * k.
Proof.
  intros A0 A1 K.
  assert (0 <= a * k) by (apply Qmult_le_0_compat; assumption).
  assert (0 <= (1 - a) * k) by (apply Qmult_le_0_compat; lra).
  apply Qabs_bound; lra.
Qed.

(** The nudge of the idle branch, per axis. *)
Lemma idleGlitch_nudge (p : PointerState) (r : JS.Rand) :
  JS.uniform r ->
  let g := fst (idleGlitch p r) in
  exists nx ny,
    velocityX g == velocityX p + nx /\ velocityY g == velocityY p + ny
    /\ Qabs nx <= 0.001 /\ Qabs ny <= 0.001.
Proof.
  intros U g.
  destruct (idleGlitch_cases p r) as (Big & Tiny & Quiet). fold g in Big, Tiny.
  destruct (U 1%nat) as [L1 U1]. destruct (U 2%nat) as [L2 U2].
  destruct (U 3%nat) as [L3 U3].
  destruct (Qlt_le_dec (r 0%nat) 0.001) as [A|A].
  - destruct (Big A) as [Vx Vy].
    exists ((r 1%nat - 0.5) * 0.002), ((r 2%nat - 0.5) * 0.002).
    rewrite Vx, Vy. split; [reflexivity|]. split; [reflexivity|].
    split; (eapply Qle_trans; [apply nudge_bound; lra|lra]).
  - destruct (Qlt_le_dec (r 1%nat) 0.01) as [B|B].
    + destruct (Tiny A B) as [Vx Vy].
      exists ((r 2%nat - 0.5) * 0.0005), ((r 3%nat - 0.5) * 0.0005).
      rewrite Vx, Vy. split; [reflexivity|]. split; [reflexivity|].
      split; (eapply Qle_trans; [apply nudge_bound; lra|lra]).
    + exists 0, 0. unfold g. rewrite (Quiet A B). cbn [fst].
      split; [ring|]. split; [ring|]. split; apply Qabs_bound; lra.
Qed.

Lemma uniform_tail (r : JS.Rand) (k : nat) :
  JS.uniform r -> JS.uniform (fun n => r (k + n)%nat).
Proof. intros U n. apply U. Qed.

Lemma render_uniform (this : HeroCRTEffect) (b : Browser) :
  JS.uniform (rand b) -> JS.uniform (rand (snd (render this b))).
Proof.
  intro U. unfold render.
  destruct (negb (JS.truthy (gl this)) || negb (JS.truthy (program this)));
    [exact U|].
  destruct (negb (isHovering (pointer this))).
  - destruct (idleGlitch_rand (pointer this) (rand b)) as [k E].
    destruct (idleGlitch (pointer this) (rand b)) as [q r]. cbn in E. subst r.
    cbn. apply uniform_tail, U.
  - cbn. exact U.
Qed.

(** The velocity after a frame that renders: the velocity after the idle
    nudge, plus the attraction towards the target, times the momentum. *)
Lemma render_velocity (this : HeroCRTEffect) (b : Browser) :
  rendering this = true ->
  let p := pointer this in
  let q := if isHovering p then p else fst (idleGlitch p (rand b)) in
  let a := if isHovering p then 0.1 else 0.02 in
  let p' := pointer (fst (render this b)) in
  velocityX p'
  = (velocityX q + (targetMouseX p - mouseX p) * a) * momentum (params this)
  /\ velocityY p'
     = (velocityY q + (targetMouseY p - mouseY p) * a) * momentum (params this).
Proof.
  intros R p q a p'.
  unfold p'. rewrite (render_pointer this b R). fold p q.
  destruct (interpolate_fields (params this) q) as (Vx & Vy & _).
  rewrite Vx, Vy.
  assert (E : mouseX q = mouseX p /\ mouseY q = mouseY p
              /\ targetMouseX q = targetMouseX p
              /\ targetMouseY q = targetMouseY p
              /\ isHovering q = isHovering p).
  { unfold q. destruct (isHovering p) eqn:Hp.
    - rewrite Hp. repeat split.
    - destruct (idleGlitch_frame p (rand b)) as (E1 & E2 & E3 & E4 & E5).
      rewrite Hp in E5. repeat split; assumption. }
  destruct E as (-> & -> & -> & -> & ->). fold a. split; reflexivity.
Qed.

(** ** Pointer re-entry *)

(** C1, as stated, fails: the controller built on the demo page is not
    hovering, and a [mousemove] at (600, 450), right of and below the centre
    of the 800 x 600 container, leaves a target offset that is not zero. *)
Lemma reentry_target_not_zero :
  isHovering (pointer (fst demoState)) = false
  /\ exists st,
       deliver (Mousemove {| clientX := 600; clientY := 450 |}) demoState
       = JS.Normal st
       /\ ~ targetMouseX (pointer (fst st)) == 0
       /\ ~ targetMouseY (pointer (fst st)) == 0.
Proof.
  split; [reflexivity|].
  eexists. split; [vm_compute; reflexivity|].
  split; intro H; vm_compute in H; discriminate H.
Qed.

(** C1, amended: when a [mousemove] arrives while the controller is not
    hovering, the handler leaves the smoothed offset and the velocity at
    exactly zero and starts hovering; the target offset is not reset but is
    the one computed from the position of that event.  The first frame
    after it starts from that state, so it moves velocity and offset to
    target * 0.1 * momentum. *)
Theorem mouseMoveHandler_reentry (e : MouseEvent) (b : Browser)
        (this : HeroCRTEffect) :
  isHovering (pointer this) = false ->
  let this' := mouseMoveHandler e b this in
  let p' := pointer this' in
  let rect := containerRect (page b) in
  mouseX p' = 0 /\ mouseY p' = 0
  /\ velocityX p' = 0 /\ velocityY p' = 0
  /\ isHovering p' = true
  /\ targetMouseX p'
     = ((clientX e - left rect) / width rect - 0.5) * mouseSensitivity (params this)
  /\ targetMouseY p'
     = ((clientY e - top rect) / height rect - 0.5) * mouseSensitivity (params this)
  /\ (rendering this = true ->
      forall b',
        let p'' := pointer (fst (render this' b')) in
        velocityX p'' == targetMouseX p' * 0.1 * momentum (params this)
        /\ velocityY p'' == targetMouseY p' * 0.1 * momentum (params this)
        /\ mouseX p'' == velocityX p'' /\ mouseY p'' == velocityY p'').
Proof.
  intros H this' p' rect.
  destruct (mouseMoveHandler_pointer e b this) as (Hh & Tx & Ty & Mx & My & Vx & Vy).
  fold this' p' rect in Hh, Tx, Ty, Mx, My, Vx, Vy.
  rewrite H in Mx, My, Vx, Vy.
  split; [exact Mx|]. split; [exact My|]. split; [exact Vx|].
  split; [exact Vy|]. split; [exact Hh|]. split; [exact Tx|].
  split; [exact Ty|].
  intros R b' p''.
  assert (R' : rendering this' = true) by exact R.
  unfold p''. rewrite (render_pointer this' b' R'). fold p'. rewrite Hh.
  destruct (interpolate_fields (params this') p')
    as (Wx & Wy & Nx & Ny & _).
  rewrite Hh, Mx, Vx in Wx. rewrite Hh, My, Vy in Wy.
  rewrite Nx, Ny, Wx, Wy, Mx, My.
  change (params this') with (params this).
  repeat split; ring.
Qed.

Lemma mouseMoveHandler_reentry_witness :
  let p' := pointer (mouseMoveHandler {| clientX := 600; clientY := 450 |}
                                      (snd demoState) (fst demoState)) in
  isHovering (pointer (fst demoState)) = false
  /\ mouseX p' = 0 /\ velocityX p' = 0 /\ targetMouseX p' == 0.002.
Proof.
  assert (H : isHovering (pointer (fst demoState)) = false) by reflexivity.
  split; [exact H|].
  destruct (mouseMoveHandler_reentry {| clientX := 600; clientY := 450 |}
              (snd demoState) (fst demoState) H)
    as (Mx & _ & Vx & _ & _ & Tx & _).
  split; [exact Mx|]. split; [exact Vx|]. rewrite Tx. vm_compute. reflexivity.
Defined.

(** ** The target offset *)

(** C2: for a pointer inside the container, the normalized position lies
    in 0..1 on each axis and the target offset is that position, recentred,
    times [mouseSensitivity]; it is zero at the centre, its magnitude is at
    most half the sensitivity, reached on the edges, and it is proportional
    to the sensitivity. *)
Theorem mouseMoveHandler_target (e : MouseEvent) (b : Browser)
        (this : HeroCRTEffect) :
  inside e (containerRect (page b)) ->
  let rect := containerRect (page b) in
  let s := mouseSensitivity (params this) in
  let x := (clientX e - left rect) / width rect in
  let y := (clientY e - top rect) / height rect in
  let p' := pointer (mouseMoveHandler e b this) in
  (0 <= x /\ x <= 1 /\ 0 <= y /\ y <= 1)
  /\ targetMouseX p' = (x - 0.5) * s
  /\ targetMouseY p' = (y - 0.5) * s
  /\ (clientX e == left rect + 0.5 * width rect -> targetMouseX p' == 0)
  /\ (clientY e == top rect + 0.5 * height rect -> targetMouseY p' == 0)
  /\ (clientX e == left rect + width rect -> targetMouseX p' == 0.5 * s)
  /\ (clientX e == left rect -> targetMouseX p' == - (0.5 * s))
  /\ (clientY e == top rect + height rect -> targetMouseY p' == 0.5 * s)
  /\ (clientY e == top rect -> targetMouseY p' == - (0.5 * s))
  /\ (0 <= s -> Qabs (targetMouseX p') <= 0.5 * s /\ Qabs (targetMouseY p') <= 0.5 * s)
  /\ (forall (that : HeroCRTEffect) (k : Q),
        mouseSensitivity (params that) == k * s ->
        let q' := pointer (mouseMoveHandler e b that) in
        targetMouseX q' == k * targetMouseX p'
        /\ targetMouseY q' == k * targetMouseY p').
Proof.
  intros (Hw & Hh & Hx1 & Hx2 & Hy1 & Hy2) rect s x y p'.
  destruct (mouseMoveHandler_pointer e b this) as (_ & Tx & Ty & _).
  fold rect s x p' in Tx. fold rect s y p' in Ty.
  fold rect in Hw, Hh, Hx1, Hx2, Hy1, Hy2.
  destruct (normalized_range (clientX e) (left rect) (width rect) Hw Hx1 Hx2)
    as [X0 X1].
  destruct (normalized_range (clientY e) (top rect) (height rect) Hh Hy1 Hy2)
    as [Y0 Y1].
  fold x in X0, X1. fold y in Y0, Y1.
  split; [repeat split; assumption|].
  split; [exact Tx|]. split; [exact Ty|].
  rewrite Tx, Ty.
  split; [intro C; unfold x; rewrite C; field; lra|].
  split; [intro C; unfold y; rewrite C; field; lra|].
  split; [intro C; unfold x; rewrite C; field; lra|].
  split; [intro C; unfold x; rewrite C; field; lra|].
  split; [intro C; unfold y; rewrite C; field; lra|].
  split; [intro C; unfold y; rewrite C; field; lra|].
  split.
  - intro S. split; apply target_range; assumption.
  - intros that k K q'.
    destruct (mouseMoveHandler_pointer e b that) as (_ & Ux & Uy & _).
    fold rect x q' in Ux. fold rect y q' in Uy.
    rewrite Ux, Uy, K. split; ring.
Qed.

Lemma mouseMoveHandler_target_witness :
  inside {| clientX := 400; clientY := 300 |} (containerRect (page (snd demoState)))
  /\ targetMouseX (pointer (mouseMoveHandler {| clientX := 400; clientY := 300 |}
                                             (snd demoState) (fst demoState)))
     == 0.
Proof.
  assert (I : inside {| clientX := 400; clientY := 300 |}
                     (containerRect (page (snd demoState))))
    by (repeat split; vm_compute; congruence).
  split; [exact I|].
  destruct (mouseMoveHandler_target {| clientX := 400; clientY := 300 |}
              (snd demoState) (fst demoState) I) as (_ & _ & _ & C & _).
  apply C. vm_compute. reflexivity.
Defined.

(** ** Decay of the velocity *)

(** C3: a frame that renders multiplies the velocity, after the idle
    nudge and the attraction towards the target, by [momentum], hovering or
    not; with a momentum of 0.85, a zero delta and no idle nudge, the
    magnitude of the velocity does not grow on either axis. *)
Theorem render_velocity_decay (this : HeroCRTEffect) (b : Browser) :
  let p := pointer this in
  let q := if isHovering p then p else fst (idleGlitch p (rand b)) in
  let a := if isHovering p then 0.1 else 0.02 in
  let p' := pointer (fst (render this b)) in
  (rendering this = true ->
   velocityX p'
   = (velocityX q + (targetMouseX p - mouseX p) * a) * momentum (params this)
   /\ velocityY p'
      = (velocityY q + (targetMouseY p - mouseY p) * a) * momentum (params this))
  /\ (momentum (params this) == 0.85 ->
      targetMouseX p - mouseX p == 0 ->
      targetMouseY p - mouseY p == 0 ->
      isHovering p = true \/ nudges (rand b) = false ->
      Qabs (velocityX p') <= Qabs (velocityX p)
      /\ Qabs (velocityY p') <= Qabs (velocityY p)
      /\ (rendering this = true ->
          velocityX p' == 0.85 * velocityX p
          /\ velocityY p' == 0.85 * velocityY p)).
Proof.
  intros p q a p'.
  assert (A : rendering this = true ->
              velocityX p'
              = (velocityX q + (targetMouseX p - mouseX p) * a)
                * momentum (params this)
              /\ velocityY p'
                 = (velocityY q + (targetMouseY p - mouseY p) * a)
                   * momentum (params this))
    by (intro R; exact (render_velocity this b R)).
  split; [exact A|].
  intros M Dx Dy Hq.
  assert (Eq : q = p).
  { unfold q. destruct Hq as [H|H]; [rewrite H; reflexivity|].
    destruct (isHovering p); [reflexivity|apply idleGlitch_quiet, H]. }
  destruct (rendering this) eqn:R.
  - destruct (A eq_refl) as [Vx Vy]. rewrite Eq in Vx, Vy.
    assert (Ex : velocityX p' == 0.85 * velocityX p)
      by (rewrite Vx, M, Dx; ring).
    assert (Ey : velocityY p' == 0.85 * velocityY p)
      by (rewrite Vy, M, Dy; ring).
    split; [rewrite Ex; apply Qabs_damped; lra|].
    split; [rewrite Ey; apply Qabs_damped; lra|].
    intros _. split; assumption.
  - unfold p'. rewrite (render_inert this b R). cbn [fst]. fold p.
    split; [apply Qle_refl|]. split; [apply Qle_refl|].
    intro; discriminate.
Qed.

(** A hovering controller at rest on its target, still moving at 0.002. *)
Lemma render_velocity_decay_witness :
  let this :=
    set_pointer {| mouseX := 0.001; mouseY := 0; targetMouseX := 0.001;
                   targetMouseY := 0; velocityX := 0.002; velocityY := - 0.001;
                   isHovering := true |} (fst demoState) in
  momentum (params this) == 0.85
  /\ Qabs (velocityX (pointer (fst (render this (snd demoState))))) <= Qabs 0.002
  /\ Qabs (velocityY (pointer (fst (render this (snd demoState))))) <= Qabs (- 0.001).
Proof.
  intro this.
  assert (M : momentum (params this) == 0.85) by reflexivity.
  split; [exact M|].
  destruct (render_velocity_decay this (snd demoState)) as [_ D].
  destruct (D M) as (Vx & Vy & _);
    [reflexivity | reflexivity | left; reflexivity |].
  split; [exact Vx | exact Vy].
Defined.

(** ** The idle perturbation *)

(** C5, as stated, fails.  On the draws 0.0005, 0.75, 0.25, 0.005, 0.9,
    0.1 the test of the larger nudge succeeds and the next test draw, 0.005,
    is below 0.01 as well: two independent events would both nudge the
    velocity, to 0.0007 on the x axis, but [render()] applies the larger
    nudge alone and leaves 0.0005. *)
Lemma idleGlitch_not_independent :
  let r := JS.draws [0.0005; 0.75; 0.25; 0.005; 0.9; 0.1] 0.5 in
  let p := pointer newObject in
  velocityX (fst (idleGlitch p r)) == 0.0005
  /\ velocityX (fst (idleGlitch_independent p r)) == 0.0007
  /\ ~ velocityX (fst (idleGlitch p r))
       == velocityX (fst (idleGlitch_independent p r)).
Proof.
  cbv zeta. split; [vm_compute; reflexivity|].
  split; [vm_compute; reflexivity|].
  intro H. vm_compute in H. discriminate H.
Qed.

(** C5, amended: in a rendering frame with the pointer away, the idle
    branch tries a rare larger nudge (a draw below 0.001) and, only when
    that test fails, a more frequent tiny nudge (a further draw below 0.01),
    so at most one of them moves the velocity, by at most 0.001 per axis for
    the larger and 0.00025 for the tiny one; while hovering, no perturbation
    is applied and no number is drawn. *)
Theorem render_idle_perturbation (this : HeroCRTEffect) (b : Browser) :
  rendering this = true ->
  JS.uniform (rand b) ->
  let p := pointer this in
  let r := rand b in
  let g := fst (idleGlitch p r) in
  let p' := pointer (fst (render this b)) in
  (isHovering p = true ->
   p' = interpolate (params this) p /\ rand (snd (render this b)) = r)
  /\ (isHovering p = false -> p' = interpolate (params this) g)
  /\ (r 0%nat < 0.001 ->
      velocityX g = velocityX p + (r 1%nat - 0.5) * 0.002
      /\ velocityY g = velocityY p + (r 2%nat - 0.5) * 0.002
      /\ Qabs (velocityX g - velocityX p) <= 0.001
      /\ Qabs (velocityY g - velocityY p) <= 0.001)
  /\ (0.001 <= r 0%nat -> r 1%nat < 0.01 ->
      velocityX g = velocityX p + (r 2%nat - 0.5) * 0.0005
      /\ velocityY g = velocityY p + (r 3%nat - 0.5) * 0.0005
      /\ Qabs (velocityX g - velocityX p) <= 0.00025
      /\ Qabs (velocityY g - velocityY p) <= 0.00025)
  /\ (0.001 <= r 0%nat -> 0.01 <= r 1%nat -> g = p).
Proof.
  intros R U p r g p'.
  pose proof (render_pointer this b R) as E. fold p p' r in E.
  destruct (idleGlitch_cases p r) as (Big & Tiny & Quiet). fold g in Big, Tiny.
  split.
  { intro H. rewrite H in E. split; [exact E|].
    apply render_rand_hovering, H. }
  split.
  { intro H. rewrite H in E. exact E. }
  split.
  { intro A. destruct (Big A) as [Vx Vy].
    split; [exact Vx|]. split; [exact Vy|].
    destruct (U 1%nat) as [L1 U1]. destruct (U 2%nat) as [L2 U2].
    fold r in L1, U1, L2, U2.
    split.
    - setoid_replace (velocityX g - velocityX p) with ((r 1%nat - 0.5) * 0.002)
        by (rewrite Vx; ring).
      setoid_replace 0.001 with (0.5 * 0.002) by reflexivity.
      apply nudge_bound; lra.
    - setoid_replace (velocityY g - velocityY p) with ((r 2%nat - 0.5) * 0.002)
        by (rewrite Vy; ring).
      setoid_replace 0.001 with (0.5 * 0.002) by reflexivity.
      apply nudge_bound; lra. }
  split.
  { intros A B. destruct (Tiny A B) as [Vx Vy].
    split; [exact Vx|]. split; [exact Vy|].
    destruct (U 2%nat) as [L2 U2]. destruct (U 3%nat) as [L3 U3].
    fold r in L2, U2, L3, U3.
    split.
    - setoid_replace (velocityX g - velocityX p) with ((r 2%nat - 0.5) * 0.0005)
        by (rewrite Vx; ring).
      setoid_replace 0.00025 with (0.5 * 0.0005) by reflexivity.
      apply nudge_bound; lra.
    - setoid_replace (velocityY g - velocityY p) with ((r 3%nat - 0.5) * 0.0005)
        by (rewrite Vy; ring).
      setoid_replace 0.00025 with (0.5 * 0.0005) by reflexivity.
      apply nudge_bound; lra. }
  intros A B. unfold g. rewrite (Quiet A B). reflexivity.
Qed.

Lemma render_idle_perturbation_witness :
  rendering (fst demoState) = true
  /\ JS.uniform (rand (snd demoState))
  /\ fst (idleGlitch (pointer (fst demoState)) (rand (snd demoState)))
     = pointer (fst demoState).
Proof.
  assert (R : rendering (fst demoState) = true) by reflexivity.
  assert (U : JS.uniform (rand (snd demoState)))
    by (intro n; split; vm_compute; congruence).
  split; [exact R|]. split; [exact U|].
  destruct (render_idle_perturbation (fst demoState) (snd demoState) R U)
    as (_ & _ & _ & _ & Q).
  apply Q; vm_compute; congruence.
Defined.

(** ** What the other methods leave alone *)

Lemma resize_frame (this this' : HeroCRTEffect) (b b' : Browser) :
  resize this b = JS.Normal (this', b') ->
  pointer this' = pointer this /\ params this' = params this
  /\ gl this' = gl this /\ program this' = program this
  /\ rand b' = rand b.
Proof.
  unfold resize.
  destruct (negb (JS.truthy (container this)) || negb (JS.truthy (canvas this))).
  - intro H. injection H as <- <-. repeat split.
  - destruct (sourceCanvas this); cbn; [|discriminate].
    intro H. injection H as <- <-.
    destruct (JS.truthy (gl this)); repeat split.
Qed.

Lemma captureContainer_frame (this this' : HeroCRTEffect) (b : Browser)
      (c : option Canvas) :
  captureContainer this b = JS.Normal (c, this') ->
  pointer this' = pointer this /\ params this' = params this
  /\ gl this' = gl this /\ program this' = program this.
Proof.
  unfold captureContainer.
  destruct (negb (JS.truthy (container this))
            || negb (JS.truthy (sourceContext this))).
  - intro H. injection H as _ <-. repeat split.
  - destruct (sourceCanvas this) as [sc|]; cbn; [|discriminate].
    match goal with
    | |- JS.bind ?x _ = _ -> _ => destruct x as [sc'|]
    end; cbn; [|discriminate].
    intro H. injection H as _ <-. repeat split.
Qed.

Lemma captureAndUpload_frame (this this' : HeroCRTEffect) (b b' : Browser) :
  captureAndUpload this b = JS.Normal (this', b') ->
  pointer this' = pointer this /\ params this' = params this
  /\ gl this' = gl this /\ program this' = program this
  /\ rand b' = rand b.
Proof.
  unfold captureAndUpload.
  destruct (captureContainer this b) as [[c t]|] eqn:E; cbn; [|discriminate].
  apply captureContainer_frame in E. destruct E as (E1 & E2 & E3 & E4).
  destruct c as [c|].
  - destruct (JS.truthy (gl t)); intro H; injection H as <- <-;
      repeat split; assumption.
  - intro H; injection H as <- <-; repeat split; assumption.
Qed.

Lemma resizeCallback_frame (this this' : HeroCRTEffect) (b b' : Browser) :
  resizeCallback this b = JS.Normal (this', b') ->
  pointer this' = pointer this /\ params this' = params this
  /\ gl this' = gl this /\ program this' = program this
  /\ rand b' = rand b.
Proof.
  unfold resizeCallback.
  destruct (resize this b) as [[t1 b1]|] eqn:E; cbn; [|discriminate].
  apply resize_frame in E. destruct E as (E1 & E2 & E3 & E4 & E5).
  intro H. apply captureAndUpload_frame in H.
  destruct H as (F1 & F2 & F3 & F4 & F5). cbn in F5.
  repeat split; congruence.
Qed.

Lemma calibrated_same (this this' : HeroCRTEffect) :
  params this' = params this -> gl this' = gl this ->
  program this' = program this ->
  calibrated this -> calibrated this'.
Proof.
  unfold calibrated, rendering. intros -> -> -> C. exact C.
Qed.

Lemma setupWebGL_frame (pf : Platform) (this this' : HeroCRTEffect)
      (b b' : Browser) :
  setupWebGL pf this b = JS.Normal (this', b') ->
  pointer this' = pointer this /\ params this' = params this
  /\ rand b' = rand b.
Proof.
  unfold setupWebGL.
  destruct (createShader (vertexCompiles pf) (glState b)) as [vs g1].
  destruct (createShader (fragmentCompiles pf) g1) as [fs g2].
  destruct (negb (JS.truthy vs) || negb (JS.truthy fs)).
  - intro H. injection H as <- <-. repeat split.
  - cbn [glState set_glState].
    destruct (createProgram (programLinks pf) g2) as [pr g3].
    destruct pr as [pr|]; cbn.
    + destruct (createTexture g3) as [t g4]. intro H.
      apply resize_frame in H. cbn in H.
      destruct H as (E1 & E2 & _ & _ & E5). repeat split; assumption.
    + intro H. injection H as <- <-. repeat split.
Qed.

Lemma addEventListener_rand (tg : EventTarget) (ty : string) (h : Handler)
      (b : Browser) :
  rand (addEventListener tg ty h b) = rand b.
Proof.
  unfold addEventListener.
  destruct (registered _ b); reflexivity.
Qed.

Lemma setupResize_rand (pf : Platform) (this : HeroCRTEffect) (b : Browser) :
  rand (setupResize pf this b) = rand b.
Proof.
  unfold setupResize.
  destruct (hasResizeObserver pf && JS.truthy (container this));
    rewrite ?addEventListener_rand; reflexivity.
Qed.

Lemma setupMouseTracking_frame (this : HeroCRTEffect) (b : Browser) :
  let this' := fst (setupMouseTracking this b) in
  let b' := snd (setupMouseTracking this b) in
  pointer this' = pointer this /\ params this' = params this
  /\ rand b' = rand b.
Proof.
  unfold setupMouseTracking.
  destruct (negb (JS.truthy (container this))); cbn [fst snd].
  - repeat split.
  - rewrite !addEventListener_rand. repeat split.
Qed.

Lemma resizeHandler_rand (b : Browser) : rand (resizeHandler b) = rand b.
Proof. unfold resizeHandler. destruct (resizeTimeout b); reflexivity. Qed.

(** ** Boundedness of the pointer state *)

Lemma energyHover_nonneg (m v : Q) : 0 <= energyHover m v.
Proof.
  unfold energyHover.
  pose proof (Qsquare_nonneg (34 * m + 13 * v)).
  pose proof (Qsquare_nonneg v). lra.
Qed.

Lemma energyIdle_nonneg (m v : Q) : 0 <= energyIdle m v.
Proof.
  unfold energyIdle.
  pose proof (Qsquare_nonneg (34 * m + 133 * v)).
  pose proof (Qsquare_nonneg v). lra.
Qed.

Lemma energyHover_frame (m v t : Q) :
  energyHover m v <= 0.008 -> - 0.004 <= t -> t <= 0.004 ->
  let v' := (v + (t - m) * 0.1) * 0.85 in
  let m' := m + v' in
  energyHover m' v' <= 0.008.
Proof.
  intros E L U v' m'.
  pose proof (square_bound t 0.004 L U) as T2.
  set (u1 := m + (v - 0.1 * m) * 0.85).
  set (u2 := (v - 0.1 * m) * 0.85).
  set (b := 0.85 * 0.1 * t).
  pose proof (energyHover_nonneg ((1#12) * u1 - b) ((1#12) * u2 - b)) as N.
  unfold energyHover, m', v', u1, u2, b in *.
  lra.
Qed.

Lemma energyIdle_frame (m v t n : Q) :
  energyIdle m v <= 0.28 -> - 0.004 <= t -> t <= 0.004 ->
  - 0.001 <= n -> n <= 0.001 ->
  let v' := (v + n + (t - m) * 0.02) * 0.85 in
  let m' := m + v' in
  energyIdle m' v' <= 0.28.
Proof.
  intros E L U Ln Un v' m'.
  assert (W : - 0.00108 <= 0.02 * t + n /\ 0.02 * t + n <= 0.00108) by lra.
  pose proof (square_bound (0.02 * t + n) 0.00108 (proj1 W) (proj2 W)) as T2.
  set (u1 := m + (v - 0.02 * m) * 0.85).
  set (u2 := (v - 0.02 * m) * 0.85).
  set (b := 0.85 * (0.02 * t + n)).
  pose proof (energyIdle_nonneg ((1#12) * u1 - b) ((1#12) * u2 - b)) as N.
  unfold energyIdle, m', v', u1, u2, b in *.
  lra.
Qed.

Lemma energy_leave (m v : Q) : energyHover m v <= 0.008 -> energyIdle m v <= 0.28.
Proof.
  unfold energyHover, energyIdle. intro H.
  pose proof (Qsquare_nonneg (17 * m - 11 * v)).
  pose proof (Qsquare_nonneg v). pose proof (Qsquare_nonneg m).
  lra.
Qed.

Lemma energyIdle_bounds (m v : Q) :
  energyIdle m v <= 0.28 -> Qabs m <= 0.11 /\ Qabs v <= 0.016.
Proof.
  unfold energyIdle. intro H.
  pose proof (Qsquare_nonneg (1700 * v + 133 * m)).
  pose proof (Qsquare_nonneg (34 * m + 133 * v)).
  split; apply Qabs_Qle_condition; split; nra.
Qed.

Lemma energyHover_bounds (m v : Q) :
  energyHover m v <= 0.008 -> Qabs m <= 0.016 /\ Qabs v <= 0.005.
Proof.
  unfold energyHover. intro H.
  pose proof (Qsquare_nonneg (340 * v + 13 * m)).
  pose proof (Qsquare_nonneg (34 * m + 13 * v)).
  split; apply Qabs_Qle_condition; split; nra.
Qed.

Lemma axis_hover (m v t mu : Q) :
  mu == 0.85 -> energyHover m v <= 0.008 -> Qabs t <= 0.004 ->
  energyHover (m + (v + (t - m) * 0.1) * mu) ((v + (t - m) * 0.1) * mu) <= 0.008.
Proof.
  intros M E T. apply Qabs_bound_inv in T as [L U].
  pose proof (energyHover_frame m v t E L U) as F. cbv zeta in F.
  unfold energyHover in *. rewrite M. exact F.
Qed.

Lemma axis_idle (m v w n t mu : Q) :
  mu == 0.85 -> w == v + n -> Qabs n <= 0.001 ->
  energyIdle m v <= 0.28 -> Qabs t <= 0.004 ->
  energyIdle (m + (w + (t - m) * 0.02) * mu) ((w + (t - m) * 0.02) * mu) <= 0.28.
Proof.
  intros M W N E T. apply Qabs_bound_inv in T as [L U].
  apply Qabs_bound_inv in N as [Ln Un].
  pose proof (energyIdle_frame m v t n E L U Ln Un) as F. cbv zeta in F.
  unfold energyIdle in *. rewrite M, W. exact F.
Qed.

Lemma render_settled (this : HeroCRTEffect) (b : Browser) :
  calibrated this -> settled (pointer this) -> JS.uniform (rand b) ->
  settled (pointer (fst (render this b))).
Proof.
  intros C S U.
  destruct (rendering this) eqn:R;
    [|rewrite (render_inert this b R); exact S].
  destruct C as [[_ M]|[_ N]]; [|congruence].
  rewrite (render_pointer this b R).
  destruct S as (Tx & Ty & E).
  destruct (isHovering (pointer this)) eqn:H.
  - destruct (interpolate_fields (params this) (pointer this))
      as (Vx & Vy & Mx & My & Ex & Ey & Eh).
    rewrite H in Vx, Vy, Eh. destruct E as [Hx Hy].
    unfold settled. rewrite Ex, Ey, Eh, Mx, My, Vx, Vy.
    split; [exact Tx|]. split; [exact Ty|].
    split; apply axis_hover; assumption.
  - set (g := fst (idleGlitch (pointer this) (rand b))).
    destruct (idleGlitch_frame (pointer this) (rand b))
      as (Gx & Gy & Gtx & Gty & Gh). fold g in Gx, Gy, Gtx, Gty, Gh.
    destruct (idleGlitch_nudge (pointer this) (rand b) U)
      as (nx & ny & Nx & Ny & Bx & By). fold g in Nx, Ny.
    destruct (interpolate_fields (params this) g)
      as (Vx & Vy & Mx & My & Ex & Ey & Eh).
    rewrite Gh, H in Vx, Vy, Eh. destruct E as [Ix Iy].
    unfold settled. rewrite Ex, Ey, Eh, Mx, My, Vx, Vy, Gx, Gy, Gtx, Gty.
    split; [exact Tx|]. split; [exact Ty|].
    split; [apply (axis_idle _ (velocityX (pointer this)) _ nx)
           |apply (axis_idle _ (velocityY (pointer this)) _ ny)]; assumption.
Qed.

Lemma mouseMoveHandler_settled (e : MouseEvent) (b : Browser)
      (this : HeroCRTEffect) :
  calibrated this -> inside e (containerRect (page b)) ->
  settled (pointer this) ->
  settled (pointer (mouseMoveHandler e b this)).
Proof.
  intros C (Hw & Hh & Hx1 & Hx2 & Hy1 & Hy2) S.
  destruct (mouseMoveHandler_pointer e b this)
    as (Eh & Tx & Ty & Mx & My & Vx & Vy).
  assert (Sens : 0 <= mouseSensitivity (params this)
                 /\ mouseSensitivity (params this) <= 0.008)
    by (destruct C as [[-> _]|[-> _]]; split; lra).
  destruct (normalized_range _ _ _ Hw Hx1 Hx2) as [X0 X1].
  destruct (normalized_range _ _ _ Hh Hy1 Hy2) as [Y0 Y1].
  pose proof (target_range _ _ X0 X1 (proj1 Sens)) as Bx.
  pose proof (target_range _ _ Y0 Y1 (proj1 Sens)) as By.
  unfold settled. rewrite Eh, Mx, My, Vx, Vy, Tx, Ty.
  split; [eapply Qle_trans; [exact Bx|lra]|].
  split; [eapply Qle_trans; [exact By|lra]|].
  destruct S as (_ & _ & E).
  destruct (isHovering (pointer this)); [exact E|].
  split; unfold energyHover; lra.
Qed.

Lemma mouseLeaveHandler_settled (this : HeroCRTEffect) :
  settled (pointer this) -> settled (pointer (mouseLeaveHandler this)).
Proof.
  intros (Tx & Ty & E). unfold mouseLeaveHandler, settled. cbn.
  split; [exact Tx|]. split; [exact Ty|].
  destruct (isHovering (pointer this)); [|exact E].
  destruct E as [Ex Ey]. split; apply energy_leave; assumption.
Qed.

Lemma settled_at_rest (tx ty : Q) :
  Qabs tx <= 0.004 -> Qabs ty <= 0.004 ->
  settled {| mouseX := 0; mouseY := 0; targetMouseX := tx; targetMouseY := ty;
             velocityX := 0; velocityY := 0; isHovering := false |}.
Proof.
  intros Tx Ty. unfold settled. cbn.
  split; [exact Tx|]. split; [exact Ty|].
  split; unfold energyIdle; lra.
Qed.

Lemma init_invariant (pf : Platform) (this this' : HeroCRTEffect)
      (b b' : Browser) :
  mouseSensitivity (params this) == 0.008 ->
  momentum (params this) == 0.85 ->
  settled (pointer this) -> JS.uniform (rand b) ->
  init pf this b = JS.Normal (this', b') ->
  Invariant (this', b').
Proof.
  intros Sens Mom S U. unfold init.
  destruct (negb (JS.truthy (canvas this)) || negb (JS.truthy (container this))).
  { intro H. injection H as <- <-.
    split; [left; split; assumption|split; assumption]. }
  destruct (webgl pf) as [g|].
  2:{ intro H. injection H as <- <-.
      split; [left; split; assumption|split; assumption]. }
  match goal with
  | |- JS.bind (setupWebGL pf ?t b) _ = _ -> _ => set (t0 := t)
  end.
  destruct (setupWebGL pf t0 b) as [[t1 b1]|] eqn:E; cbn [JS.bind];
    [|discriminate].
  apply setupWebGL_frame in E. destruct E as (E1 & E2 & E3).
  destruct (setupMouseTracking_frame t1 (setupResize pf t1 b1))
    as (F1 & F2 & F3).
  destruct (setupMouseTracking t1 (setupResize pf t1 b1)) as [t2 b2].
  cbn [fst snd] in F1, F2, F3.
  destruct (setTimeout InitialCapture 500 b2) as [i b3] eqn:T.
  assert (R3 : rand b3 = rand b).
  { unfold setTimeout in T. injection T as _ <-. cbn.
    rewrite F3, setupResize_rand, E3. reflexivity. }
  assert (P2 : params t2 = params this) by (rewrite F2, E2; reflexivity).
  assert (S2 : settled (pointer t2)) by (rewrite F1, E1; exact S).
  assert (C2 : calibrated t2) by (left; rewrite P2; split; assumption).
  assert (U3 : JS.uniform (rand b3)) by (rewrite R3; exact U).
  intro H. injection H as H.
  assert (Et : this' = fst (render t2 b3)) by (rewrite H; reflexivity).
  assert (Eb : b' = snd (render t2 b3)) by (rewrite H; reflexivity).
  subst this' b'. split; [|split]; cbn [fst snd].
  - left. destruct (render_fixed t2 b3) as (-> & _). rewrite P2.
    split; assumption.
  - apply render_settled; assumption.
  - apply render_uniform; assumption.
Qed.

Lemma constructor_invariant (sid : string) (pf : Platform) (b : Browser)
      (st : State) :
  JS.uniform (rand b) ->
  constructor sid pf b = JS.Normal st ->
  Invariant st.
Proof.
  intros U. unfold constructor. cbn [canvas container].
  destruct (negb (JS.truthy (canvasElement pf))
            || negb (JS.truthy (containerElement pf))).
  - intro H. injection H as <-. split; [|split]; cbn.
    + right. split; reflexivity.
    + apply settled_at_rest; apply Qabs_bound; lra.
    + exact U.
  - destruct st as [this' b']. apply init_invariant; cbn.
    + reflexivity.
    + reflexivity.
    + unfold settled. cbn.
      split; [lra|]. split; [lra|]. split; unfold energyIdle; lra.
    + exact U.
Qed.

Lemma deliver_invariant (tk : Task) (st st' : State) :
  Invariant st -> admissible tk st -> deliver tk st = JS.Normal st' ->
  Invariant st'.
Proof.
  destruct st as [this b]. intros (C & S & U) A. cbn [fst snd] in C, S, U.
  destruct tk as [e| |tg|id|id|ms|pg]; cbn [deliver].
  - destruct (registered _ b); intro H; injection H as <-;
      [|split; [exact C|split; [exact S|exact U]]].
    split; [|split]; cbn [fst snd].
    + revert C. apply calibrated_same; reflexivity.
    + apply mouseMoveHandler_settled; assumption.
    + exact U.
  - destruct (registered _ b); intro H; injection H as <-;
      [|split; [exact C|split; [exact S|exact U]]].
    split; [|split]; cbn [fst snd].
    + revert C. apply calibrated_same; reflexivity.
    + apply mouseLeaveHandler_settled; assumption.
    + exact U.
  - destruct (registered _ b); intro H; injection H as <-;
      (split; [exact C|split; [exact S|]]); cbn [snd];
      rewrite ?resizeHandler_rand; exact U.
  - destruct (existsb (Pos.eqb id) (frames (scheduler b))); intro H;
      injection H as <-; [|split; [exact C|split; [exact S|exact U]]].
    split; [|split].
    + destruct (render_fixed this (cancelAnimationFrame id b))
        as (E1 & E2 & E3 & _).
      revert C. apply calibrated_same; assumption.
    + apply render_settled; assumption.
    + apply render_uniform. exact U.
  - destruct (pendingTimer id b) as [t|];
      [|intro H; injection H as <-; split; [exact C|split; [exact S|exact U]]].
    destruct (due t <=? now (scheduler b))%Z;
      [|intro H; injection H as <-; split; [exact C|split; [exact S|exact U]]].
    destruct st' as [this' b']. unfold runTimer.
    destruct (task t); intro H;
      [apply captureAndUpload_frame in H|apply resizeCallback_frame in H];
      destruct H as (E1 & E2 & E3 & E4 & E5); cbn in E5;
      (split; [|split]; cbn [fst snd];
       [revert C; apply calibrated_same; assumption
       |rewrite E1; exact S
       |rewrite E5; exact U]).
  - intro H; injection H as <-; split; [exact C|split; [exact S|exact U]].
  - intro H; injection H as <-; split; [exact C|split; [exact S|exact U]].
Qed.

Lemma Reachable_invariant (st : State) : Reachable st -> Invariant st.
Proof.
  induction 1 as [sid pf b st U C|tk st st' _ IH A D].
  - exact (constructor_invariant sid pf b st U C).
  - exact (deliver_invariant tk st st' IH A D).
Qed.

Lemma demoState_Reachable : Reachable demoState.
Proof.
  apply (Reachable_new "hero" demoPlatform demoBrowser).
  - intro n. split; vm_compute; congruence.
  - vm_compute. reflexivity.
Qed.

(** C4, amended: in every reachable state the target offset is within
    half the sensitivity, 0.004, on each axis, and offset and velocity are
    bounded: by 0.016 and 0.005 while hovering, by 0.11 and 0.016 at any
    time; the momentum of a controller that renders is 0.85, and each of
    its frames multiplies the velocity by it. *)
Theorem pointer_bounded (st : State) :
  Reachable st ->
  let p := pointer (fst st) in
  (Qabs (targetMouseX p) <= 0.004 /\ Qabs (targetMouseY p) <= 0.004)
  /\ (Qabs (mouseX p) <= 0.11 /\ Qabs (mouseY p) <= 0.11
      /\ Qabs (velocityX p) <= 0.016 /\ Qabs (velocityY p) <= 0.016)
  /\ (isHovering p = true ->
      Qabs (mouseX p) <= 0.016 /\ Qabs (mouseY p) <= 0.016
      /\ Qabs (velocityX p) <= 0.005 /\ Qabs (velocityY p) <= 0.005)
  /\ (rendering (fst st) = true ->
      momentum (params (fst st)) == 0.85
      /\ forall b,
           let q := if isHovering p then p else fst (idleGlitch p (rand b)) in
           let a := if isHovering p then 0.1 else 0.02 in
           let p' := pointer (fst (render (fst st) b)) in
           velocityX p'
           == 0.85 * (velocityX q + (targetMouseX p - mouseX p) * a)
           /\ velocityY p'
              == 0.85 * (velocityY q + (targetMouseY p - mouseY p) * a)).
Proof.
  intros R p.
  destruct (Reachable_invariant st R) as (C & (Tx & Ty & E) & _).
  fold p in Tx, Ty, E.
  split; [split; assumption|].
  assert (B : (Qabs (mouseX p) <= 0.11 /\ Qabs (mouseY p) <= 0.11
               /\ Qabs (velocityX p) <= 0.016 /\ Qabs (velocityY p) <= 0.016)
              /\ (isHovering p = true ->
                  Qabs (mouseX p) <= 0.016 /\ Qabs (mouseY p) <= 0.016
                  /\ Qabs (velocityX p) <= 0.005
                  /\ Qabs (velocityY p) <= 0.005)).
  { destruct (isHovering p).
    - destruct E as [Ex Ey].
      destruct (energyHover_bounds _ _ Ex) as [Mx Vx].
      destruct (energyHover_bounds _ _ Ey) as [My Vy].
      split; [|intros _; repeat split; assumption].
      repeat split; eapply Qle_trans; try eassumption; lra.
    - destruct E as [Ex Ey].
      destruct (energyIdle_bounds _ _ Ex) as [Mx Vx].
      destruct (energyIdle_bounds _ _ Ey) as [My Vy].
      split; [repeat split; assumption|intro; discriminate]. }
  destruct B as [B1 B2]. split; [exact B1|]. split; [exact B2|].
  intro Rn.
  assert (M : momentum (params (fst st)) == 0.85)
    by (destruct C as [[_ M]|[_ N]]; [exact M|congruence]).
  split; [exact M|].
  intros b q a p'.
  destruct (render_velocity (fst st) b Rn) as [Vx Vy].
  fold p q a p' in Vx, Vy. rewrite Vx, Vy, M. split; ring.
Qed.

Lemma pointer_bounded_witness :
  Reachable demoState /\ Qabs (mouseX (pointer (fst demoState))) <= 0.11.
Proof.
  split; [exact demoState_Reachable|].
  destruct (pointer_bounded demoState demoState_Reachable)
    as (_ & (Mx & _) & _).
  exact Mx.
Defined.

(** ** A run that leaves the range of the target *)

Lemma agree_refl (p : PointerState) : agree p p.
Proof. repeat split; reflexivity. Qed.

Lemma agree_sym (p q : PointerState) : agree p q -> agree q p.
Proof.
  intros (A1 & A2 & A3 & A4 & A5 & A6 & A7).
  unfold agree. rewrite A1, A2, A3, A4, A5, A6, A7.
  repeat split; reflexivity.
Qed.

Lemma agree_trans (p q r : PointerState) : agree p q -> agree q r -> agree p r.
Proof.
  intros (A1 & A2 & A3 & A4 & A5 & A6 & A7) (B1 & B2 & B3 & B4 & B5 & B6 & B7).
  unfold agree. rewrite A1, A2, A3, A4, A5, A6, A7.
  repeat split; assumption.
Qed.

Lemma reduced_agree (p : PointerState) : agree (reduced p) p.
Proof. unfold agree, reduced. cbn. repeat split; apply Qred_correct. Qed.

Lemma interpolate_agree (P : EffectParameters) (p q : PointerState) :
  agree p q -> agree (interpolate P p) (interpolate P q).
Proof.
  intros (A1 & A2 & A3 & A4 & A5 & A6 & A7).
  destruct (interpolate_fields P p) as (Vx & Vy & Mx & My & Tx & Ty & H).
  destruct (interpolate_fields P q) as (Vx' & Vy' & Mx' & My' & Tx' & Ty' & H').
  unfold agree.
  rewrite Mx, My, Tx, Ty, H, Mx', My', Tx', Ty', H', Vx, Vy, Vx', Vy'.
  rewrite A1, A2, A3, A4, A5, A6, A7. repeat split; reflexivity.
Qed.

Lemma glide_agree (P : EffectParameters) (n : nat) (p q : PointerState) :
  agree p q -> agree (Nat.iter n (interpolate P) p) (glide P n q).
Proof.
  intro A. induction n as [|n IH]; [exact A|].
  unfold glide in *. rewrite !Nat.iter_succ.
  eapply agree_trans; [apply interpolate_agree, IH|].
  apply agree_sym, reduced_agree.
Qed.

Lemma glide_hovering (P : EffectParameters) (n : nat) (p : PointerState) :
  isHovering (Nat.iter n (interpolate P) p) = isHovering p.
Proof.
  induction n as [|n IH]; [reflexivity|]. rewrite Nat.iter_succ.
  destruct (interpolate_fields P (Nat.iter n (interpolate P) p))
    as (_ & _ & _ & _ & _ & _ & H).
  rewrite H. exact IH.
Qed.

(** A [mousemove] on a hovering controller only replaces the target. *)
Lemma mouseMoveHandler_agree (e : MouseEvent) (b : Browser)
      (this : HeroCRTEffect) (q : PointerState) (tx ty : Q) :
  agree (pointer this) q -> isHovering (pointer this) = true ->
  targetMouseX (pointer (mouseMoveHandler e b this)) == tx ->
  targetMouseY (pointer (mouseMoveHandler e b this)) == ty ->
  agree (pointer (mouseMoveHandler e b this)) (aim tx ty q).
Proof.
  intros (A1 & A2 & A3 & A4 & A5 & A6 & A7) H Tx Ty.
  destruct (mouseMoveHandler_pointer e b this)
    as (Eh & _ & _ & Mx & My & Vx & Vy).
  rewrite H in Mx, My, Vx, Vy.
  unfold agree, aim, reduced, set_targetMouseX, set_targetMouseY.
  cbn [mouseX mouseY targetMouseX targetMouseY velocityX velocityY isHovering].
  rewrite Eh, Mx, My, Vx, Vy, Tx, Ty, !Qred_correct, <- A7, H.
  repeat split; assumption.
Qed.

Lemma deliver_frame (id : positive) (st : State) :
  poised id st ->
  exists st',
    deliver (AnimationFrame id) st = JS.Normal st'
    /\ poised (Pos.succ id) st'
    /\ (isHovering (pointer (fst st)) = true ->
        pointer (fst st') = interpolate (params (fst st)) (pointer (fst st))).
Proof.
  destruct st as [this b]. unfold poised at 1. cbn [fst snd].
  intros (R & P & F & N & L & G).
  exists (render this (cancelAnimationFrame id b)).
  split.
  { cbn [deliver]. rewrite F. cbn [existsb]. rewrite Pos.eqb_refl. reflexivity. }
  destruct (render_fixed this (cancelAnimationFrame id b))
    as (E1 & E2 & E3 & _).
  destruct (render_browser this (cancelAnimationFrame id b) R)
    as (B1 & B2 & B3 & B4).
  split.
  - unfold poised, rendering. rewrite E1, E2, E3, B1, B2, B3, B4.
    cbn. rewrite F, N. cbn. rewrite Pos.eqb_refl. cbn.
    repeat split; assumption.
  - intro H. rewrite (render_pointer _ _ R), H. reflexivity.
Qed.

Lemma run_app (xs ys : list Task) (st : State) :
  run (xs ++ ys) st = JS.bind (run xs st) (run ys).
Proof.
  revert st. induction xs as [|x xs IH]; intro st; cbn; [reflexivity|].
  destruct (deliver x st); cbn; [apply IH|reflexivity].
Qed.

Lemma run_frames (n : nat) (id : positive) (st : State) :
  poised id st -> isHovering (pointer (fst st)) = true -> Reachable st ->
  exists st',
    run (framesFrom id n) st = JS.Normal st'
    /\ poised (Pos.of_nat (Pos.to_nat id + n)) st'
    /\ Reachable st'
    /\ pointer (fst st')
       = Nat.iter n (interpolate (params (fst demoState))) (pointer (fst st)).
Proof.
  revert id st. induction n as [|n IH]; intros id st Po H R.
  - exists st. rewrite Nat.add_0_r, Pos2Nat.id.
    split; [reflexivity|]. split; [exact Po|]. split; [exact R|reflexivity].
  - destruct (deliver_frame id st Po) as (st1 & D & Po1 & E).
    specialize (E H).
    assert (H1 : isHovering (pointer (fst st1)) = true).
    { rewrite E.
      destruct (interpolate_fields (params (fst st)) (pointer (fst st)))
        as (_ & _ & _ & _ & _ & _ & Eh). rewrite Eh. exact H. }
    assert (R1 : Reachable st1)
      by exact (Reachable_step (AnimationFrame id) st st1 R I D).
    destruct (IH _ st1 Po1 H1 R1) as (st' & Ru & Po' & R' & E').
    exists st'. split; [cbn [framesFrom run]; rewrite D; exact Ru|].
    split.
    { replace (Pos.to_nat id + S n)%nat with (Pos.to_nat (Pos.succ id) + n)%nat
        by (rewrite Pos2Nat.inj_succ; lia). exact Po'. }
    split; [exact R'|].
    rewrite E', E. destruct Po as (_ & -> & _).
    rewrite Nat.iter_succ_r. reflexivity.
Qed.

Lemma demoState_poised : poised 1 demoState.
Proof. vm_compute. repeat split. Qed.

(** The target that a [mousemove] at [e] sets on the demo page. *)
Lemma poised_target (e : MouseEvent) (id : positive) (st : State) :
  poised id st ->
  let p' := pointer (mouseMoveHandler e (snd st) (fst st)) in
  targetMouseX p'
  = ((clientX e - left (containerRect demoPage)) / width (containerRect demoPage)
     - 0.5) * mouseSensitivity (params (fst demoState))
  /\ targetMouseY p'
     = ((clientY e - top (containerRect demoPage)) / height (containerRect demoPage)
        - 0.5) * mouseSensitivity (params (fst demoState)).
Proof.
  intros (_ & P & _ & _ & _ & G) p'.
  destruct (mouseMoveHandler_pointer e (snd st) (fst st)) as (_ & Tx & Ty & _).
  fold p' in Tx, Ty. rewrite Tx, Ty, P, G. split; reflexivity.
Qed.

(** A [mousemove] inside the demo container followed by [n] frames. *)
Lemma run_sweep (e : MouseEvent) (n : nat) (id : positive) (st : State) :
  poised id st -> Reachable st -> inside e (containerRect demoPage) ->
  exists st',
    run (Mousemove e :: framesFrom id n) st = JS.Normal st'
    /\ poised (Pos.of_nat (Pos.to_nat id + n)) st'
    /\ Reachable st'
    /\ isHovering (pointer (fst st')) = true
    /\ pointer (fst st')
       = Nat.iter n (interpolate (params (fst demoState)))
                  (pointer (mouseMoveHandler e (snd st) (fst st))).
Proof.
  intros Po R In.
  assert (D : deliver (Mousemove e) st
              = JS.Normal (mouseMoveHandler e (snd st) (fst st), snd st)).
  { destruct st as [this b]. destruct Po as (_ & _ & _ & _ & L & _).
    cbn [fst snd] in *. cbn [deliver]. unfold registered. rewrite L.
    reflexivity. }
  set (st1 := (mouseMoveHandler e (snd st) (fst st), snd st)) in *.
  assert (Po1 : poised id st1)
    by (destruct Po as (A1 & A2 & A3 & A4 & A5 & A6); repeat split; assumption).
  assert (R1 : Reachable st1).
  { apply (Reachable_step (Mousemove e) st st1 R); [|exact D].
    cbn [admissible]. destruct Po as (_ & _ & _ & _ & _ & ->). exact In. }
  assert (H1 : isHovering (pointer (fst st1)) = true)
    by apply mouseMoveHandler_pointer.
  destruct (run_frames n id st1 Po1 H1 R1) as (st' & Ru & Po' & R' & E).
  exists st'. split; [cbn [run]; rewrite D; exact Ru|].
  split; [exact Po'|]. split; [exact R'|].
  split; [rewrite E, glide_hovering; exact H1|exact E].
Qed.

(** The same sweep on a state that already hovers, in lowest terms. *)
Lemma sweep_agree (e : MouseEvent) (n : nat) (id : positive) (st : State)
      (q : PointerState) :
  poised id st -> isHovering (pointer (fst st)) = true ->
  agree (pointer (fst st)) q ->
  let P := params (fst demoState) in
  let r := containerRect demoPage in
  agree (Nat.iter n (interpolate P)
                  (pointer (mouseMoveHandler e (snd st) (fst st))))
        (glide P n (aim (((clientX e - left r) / width r - 0.5)
                         * mouseSensitivity P)
                        (((clientY e - top r) / height r - 0.5)
                         * mouseSensitivity P) q)).
Proof.
  intros Po H A P r. apply glide_agree.
  destruct (poised_target e id st Po) as [Tx Ty].
  apply mouseMoveHandler_agree; try assumption.
  - rewrite Tx. reflexivity.
  - rewrite Ty. reflexivity.
Qed.

(** C4, as stated, fails.  From the freshly built controller on the demo
    page, moving the pointer near one side of the container, ten frames
    later near the other side and eleven frames later back again leaves,
    after thirty-two frames, a smoothed offset beyond the whole sensitivity,
    0.008, and so beyond the range of the target offset, 0.004. *)
Lemma offset_exceeds_sensitivity :
  exists st,
    run shake demoState = JS.Normal st
    /\ Reachable st
    /\ mouseSensitivity (params (fst st)) == 0.008
    /\ mouseSensitivity (params (fst st)) < Qabs (mouseX (pointer (fst st))).
Proof.
  set (e1 := {| clientX := 792; clientY := 300 |}).
  set (e2 := {| clientX := 8; clientY := 300 |}).
  assert (I1 : inside e1 (containerRect demoPage))
    by (repeat split; vm_compute; congruence).
  assert (I2 : inside e2 (containerRect demoPage))
    by (repeat split; vm_compute; congruence).
  destruct (run_sweep e1 10 1 demoState demoState_poised demoState_Reachable I1)
    as (s1 & Ru1 & Po1 & R1 & H1 & E1).
  destruct (run_sweep e2 11 _ s1 Po1 R1 I2) as (s2 & Ru2 & Po2 & R2 & H2 & E2).
  destruct (run_sweep e1 11 _ s2 Po2 R2 I1) as (s3 & Ru3 & Po3 & R3 & H3 & E3).
  exists s3.
  split.
  { unfold shake. fold e1 e2.
    change (Mousemove e1 :: framesFrom 1 10
            ++ Mousemove e2 :: framesFrom 11 11
            ++ Mousemove e1 :: framesFrom 22 11)
      with ((Mousemove e1 :: framesFrom 1 10)
            ++ (Mousemove e2 :: framesFrom 11 11)
            ++ (Mousemove e1 :: framesFrom 22 11)).
    rewrite run_app, Ru1. cbn [JS.bind]. rewrite run_app.
    change (Pos.of_nat (Pos.to_nat 1 + 10)) with 11%positive in Ru2.
    rewrite Ru2. cbn [JS.bind].
    change (Pos.of_nat (Pos.to_nat (Pos.of_nat (Pos.to_nat 1 + 10)) + 11))
      with 22%positive in Ru3.
    exact Ru3. }
  split; [exact R3|].
  assert (P3 : params (fst s3) = params (fst demoState)) by apply Po3.
  split; [rewrite P3; reflexivity|].
  set (q1 := reduced (pointer (mouseMoveHandler e1 (snd demoState) (fst demoState)))).
  assert (A1 : agree (pointer (fst s1)) (glide (params (fst demoState)) 10 q1)).
  { rewrite E1. apply glide_agree, agree_sym, reduced_agree. }
  pose proof (sweep_agree e2 11 _ s1 _ Po1 H1 A1) as A2.
  cbv zeta in A2. rewrite <- E2 in A2.
  pose proof (sweep_agree e1 11 _ s2 _ Po2 H2 A2) as A3.
  cbv zeta in A3. rewrite <- E3 in A3.
  destruct A3 as (Mx & _). rewrite P3, Mx.
  vm_compute. reflexivity.
Qed.

(** ** Capture *)

Lemma captureElement_spec (this : HeroCRTEffect) (cr : DOMRect) (w h : Q)
      (c : Canvas) (el : Media) :
  captureElement this cr w h c el
  = JS.Normal (if valid this cr w h el
               then {| cwidth := cwidth c; cheight := cheight c;
                       pixels := pixels c ++ [placed cr el] |}
               else c).
Proof.
  unfold captureElement, valid, shown, overlaps, placed, drawImage.
  destruct (same_node (node el) (canvas this)); [reflexivity|].
  cbn [negb andb].
  destruct (negb (display (style el) =? "none")%string
            && negb (visibility (style el) =? "hidden")%string
            && negb (opacity (style el) =? "0")%string); [|reflexivity].
  cbn [andb].
  match goal with
  | |- JS.try_catch (if ?g then _ else _) _ = _ => destruct g
  end; [|reflexivity].
  destruct (drawFails el); reflexivity.
Qed.

Lemma forEach_captureElement (this : HeroCRTEffect) (cr : DOMRect) (w h : Q)
      (ms : list Media) (c : Canvas) :
  JS.forEach (captureElement this cr w h) ms c
  = JS.Normal {| cwidth := cwidth c; cheight := cheight c;
                 pixels := pixels c
                           ++ map (placed cr) (filter (valid this cr w h) ms) |}.
Proof.
  revert c. induction ms as [|m ms IH]; intro c; cbn [JS.forEach filter map].
  - rewrite app_nil_r. destruct c; reflexivity.
  - rewrite captureElement_spec. cbn [JS.bind]. rewrite IH.
    destruct (valid this cr w h m); cbn [cwidth cheight pixels map].
    + rewrite <- app_assoc. reflexivity.
    + reflexivity.
Qed.

(** What [captureContainer] returns, in each of its two cases. *)
Lemma captureContainer_spec (this : HeroCRTEffect) (b : Browser) :
  (JS.truthy (container this) && JS.truthy (sourceContext this) = false ->
   captureContainer this b = JS.Normal (None, this))
  /\ (forall sc,
        JS.truthy (container this) && JS.truthy (sourceContext this) = true ->
        sourceCanvas this = Some sc ->
        captureContainer this b
        = JS.Normal
            (Some (snapshot this (page b) sc),
             set_sourceCanvas
               (Some (snapshot this (page b) sc))
               (set_sourceContext
                  (Some {| fillStyle := background (containerStyle (page b)) |})
                  this))).
Proof.
  unfold captureContainer. split.
  - intro G.
    destruct (JS.truthy (container this)), (JS.truthy (sourceContext this));
      try discriminate G; reflexivity.
  - intros sc G E.
    destruct (JS.truthy (container this)), (JS.truthy (sourceContext this));
      try discriminate G. cbn [negb orb]. rewrite E. cbn [JS.deref JS.bind].
    fold (background (containerStyle (page b))).
    destruct (mediaElements (page b)) as [|m ms] eqn:M.
    + cbn. unfold snapshot. rewrite M. reflexivity.
    + cbn [List.length Nat.ltb Nat.leb]. rewrite forEach_captureElement.
      cbn. unfold snapshot. rewrite M. reflexivity.
Qed.

(** The capture of the gallery page by the demo controller. *)
Lemma gallery_captured :
  exists c this',
    captureContainer (fst demoState) (set_page galleryPage (snd demoState))
    = JS.Normal (Some c, this')
    /\ pixels c
       = [ FillRect "rgb(16, 16, 16)" 0 0 800 600;
           DrawImage 10%nat (0 - 0) (100 - 100) 400 300;
           DrawImage 14%nat (0 - 0) (400 - 100) 800 300 ].
Proof.
  destruct (captureContainer_spec (fst demoState)
              (set_page galleryPage (snd demoState))) as [_ S].
  eexists. eexists. split; [apply S; reflexivity|]. reflexivity.
Qed.

(** C6: [captureContainer] completes on every page, whatever elements fail
    to draw; when there is a container and a 2d context, the raster it
    returns is the background followed by every valid element in document
    order, so an element whose drawing fails costs nothing but itself. *)
Theorem captureContainer_never_throws (this : HeroCRTEffect) (b : Browser) :
  initialised this ->
  exists c this',
    captureContainer this b = JS.Normal (c, this')
    /\ (JS.truthy (container this) && JS.truthy (sourceContext this) = false ->
        c = None)
    /\ (JS.truthy (container this) && JS.truthy (sourceContext this) = true ->
        exists sc snap,
          sourceCanvas this = Some sc /\ c = Some snap
          /\ snap = snapshot this (page b) sc
          /\ forall el,
               In el (mediaElements (page b)) ->
               valid this (containerRect (page b)) (cwidth sc) (cheight sc) el
               = true ->
               In (placed (containerRect (page b)) el) (pixels snap)).
Proof.
  intro I. destruct (captureContainer_spec this b) as [N S].
  destruct (JS.truthy (container this) && JS.truthy (sourceContext this)) eqn:G.
  - assert (C : JS.truthy (sourceCanvas this) = true).
    { apply I. apply andb_true_iff in G. apply G. }
    destruct (sourceCanvas this) as [sc|] eqn:E; [|discriminate C].
    eexists. eexists. split; [exact (S sc eq_refl eq_refl)|].
    split; [intro; discriminate|]. intros _.
    exists sc, (snapshot this (page b) sc).
    split; [reflexivity|]. split; [reflexivity|]. split; [reflexivity|].
    intros el In V. unfold snapshot. cbn [pixels]. right.
    apply in_map, filter_In. split; assumption.
  - eexists. eexists. split; [exact (N eq_refl)|].
    split; [reflexivity|intro; discriminate].
Qed.

Lemma captureContainer_never_throws_witness :
  let this := fst demoState in
  let b := set_page galleryPage (snd demoState) in
  initialised this
  /\ exists c this',
       captureContainer this b = JS.Normal (Some c, this')
       /\ pixels c
          = [ FillRect "rgb(16, 16, 16)" 0 0 800 600;
              DrawImage 10%nat (0 - 0) (100 - 100) 400 300;
              DrawImage 14%nat (0 - 0) (400 - 100) 800 300 ].
Proof.
  intros this b.
  assert (I : initialised this) by (intro; reflexivity).
  split; [exact I|].
  destruct (captureContainer_never_throws this b I)
    as (c & this' & E & _ & S).
  destruct (S eq_refl) as (sc & snap & Esc & Ec & Es & _).
  exists snap, this'. split; [rewrite E, Ec; reflexivity|].
  rewrite Es. injection Esc as <-. reflexivity.
Defined.

(** Every reachable controller is initialised. *)
Lemma resize_initialised (this this' : HeroCRTEffect) (b b' : Browser) :
  resize this b = JS.Normal (this', b') ->
  initialised this -> initialised this'.
Proof.
  unfold resize, initialised.
  destruct (negb (JS.truthy (container this)) || negb (JS.truthy (canvas this))).
  - intro H. injection H as <- <-. exact (fun I => I).
  - destruct (sourceCanvas this); cbn; [|discriminate].
    intro H. injection H as <- <-. reflexivity.
Qed.

Lemma captureContainer_initialised (this this' : HeroCRTEffect) (b : Browser)
      (c : option Canvas) :
  captureContainer this b = JS.Normal (c, this') ->
  initialised this -> initialised this'.
Proof.
  intros E I. destruct (captureContainer_spec this b) as [N S].
  destruct (JS.truthy (container this) && JS.truthy (sourceContext this)) eqn:G.
  - destruct (sourceCanvas this) as [sc|] eqn:Esc.
    + rewrite (S sc eq_refl eq_refl) in E. injection E as _ <-.
      intro. reflexivity.
    + apply andb_true_iff in G as [_ G]. specialize (I G).
      unfold JS.truthy in I. rewrite Esc in I. discriminate I.
  - rewrite (N eq_refl) in E. injection E as _ <-. exact I.
Qed.

Lemma runTimer_initialised (t : Timer) (this this' : HeroCRTEffect)
      (b b' : Browser) :
  runTimer t this b = JS.Normal (this', b') ->
  initialised this -> initialised this'.
Proof.
  unfold runTimer, resizeCallback, captureAndUpload. intros E I.
  destruct (task t).
  - destruct (captureContainer this b) as [[c t1]|] eqn:C; cbn in E;
      [|discriminate E].
    apply captureContainer_initialised in C; [|exact I].
    destruct c; [destruct (JS.truthy (gl t1))|]; injection E as <- _; exact C.
  - destruct (resize this b) as [[t0 b0]|] eqn:R; cbn in E; [|discriminate E].
    apply resize_initialised in R; [|exact I].
    destruct (captureContainer t0 _) as [[c t1]|] eqn:C; cbn in E;
      [|discriminate E].
    apply captureContainer_initialised in C; [|exact R].
    destruct c; [destruct (JS.truthy (gl t1))|]; injection E as <- _; exact C.
Qed.

Lemma deliver_initialised (tk : Task) (st st' : State) :
  deliver tk st = JS.Normal st' ->
  initialised (fst st) -> initialised (fst st').
Proof.
  destruct st as [this b]. cbn [fst]. intros D I.
  destruct tk as [e| |tg|id|id|ms|pg]; cbn [deliver] in D.
  - destruct (registered _ b); injection D as <-; exact I.
  - destruct (registered _ b); injection D as <-; exact I.
  - destruct (registered _ b); injection D as <-; exact I.
  - destruct (existsb _ _); injection D as <-; [|exact I].
    destruct (render_fixed this (cancelAnimationFrame id b))
      as (_ & _ & _ & _ & _ & _ & E1 & E2 & _).
    unfold initialised. cbn [fst]. rewrite E1, E2. exact I.
  - destruct (pendingTimer id b) as [t|]; [|injection D as <-; exact I].
    destruct (due t <=? now (scheduler b))%Z; [|injection D as <-; exact I].
    destruct st' as [this' b']. exact (runTimer_initialised _ _ _ _ _ D I).
  - injection D as <-; exact I.
  - injection D as <-; exact I.
Qed.

Lemma setupWebGL_canvas (pf : Platform) (this this' : HeroCRTEffect)
      (b b' : Browser) :
  setupWebGL pf this b = JS.Normal (this', b') ->
  JS.truthy (sourceCanvas this) = true ->
  JS.truthy (sourceCanvas this') = true.
Proof.
  unfold setupWebGL.
  destruct (createShader (vertexCompiles pf) (glState b)) as [vs g1].
  destruct (createShader (fragmentCompiles pf) g1) as [fs g2].
  destruct (negb (JS.truthy vs) || negb (JS.truthy fs)).
  - intro H. injection H as <- <-. exact (fun I => I).
  - cbn [glState set_glState].
    destruct (createProgram (programLinks pf) g2) as [pr g3].
    destruct pr as [pr|]; cbn.
    + destruct (createTexture g3) as [t g4]. unfold resize. cbn.
      destruct (negb (JS.truthy (container this))
                || negb (JS.truthy (canvas this))).
      * intro H. injection H as <- <-. exact (fun I => I).
      * destruct (sourceCanvas this); cbn; [|discriminate].
        intro H. injection H as <- <-. reflexivity.
    + intro H. injection H as <- <-. exact (fun I => I).
Qed.

Lemma constructor_initialised (sid : string) (pf : Platform) (b : Browser)
      (st : State) :
  constructor sid pf b = JS.Normal st -> initialised (fst st).
Proof.
  unfold constructor. cbn [canvas container].
  destruct (negb (JS.truthy (canvasElement pf))
            || negb (JS.truthy (containerElement pf))) eqn:G.
  - intro H. injection H as <-. intro C. discriminate C.
  - unfold init. cbn [canvas container]. rewrite G.
    destruct (webgl pf) as [g|]; [|intro H; injection H as <-; intro C; discriminate C].
    match goal with
    | |- JS.bind (setupWebGL pf ?t b) _ = _ -> _ => set (t0 := t)
    end.
    destruct (setupWebGL pf t0 b) as [[t1 b1]|] eqn:E; cbn [JS.bind];
      [|discriminate].
    apply setupWebGL_canvas in E; [|reflexivity].
    assert (F : sourceCanvas (fst (setupMouseTracking t1 (setupResize pf t1 b1)))
                = sourceCanvas t1).
    { unfold setupMouseTracking.
      destruct (negb (JS.truthy (container t1))); reflexivity. }
    destruct (setupMouseTracking t1 (setupResize pf t1 b1)) as [t2 b2].
    cbn [fst] in F.
    destruct (setTimeout InitialCapture 500 b2) as [i b3].
    intro H. injection H as <-. intros _.
    destruct (render_fixed t2 b3) as (_ & _ & _ & _ & _ & _ & E1 & _).
    rewrite E1, F. exact E.
Qed.

Lemma Reachable_initialised (st : State) : Reachable st -> initialised (fst st).
Proof.
  induction 1 as [sid pf b st U C|tk st st' _ IH A D].
  - exact (constructor_initialised sid pf b st C).
  - exact (deliver_initialised tk st st' D IH).
Qed.

(** ** The controller's own canvas *)

Lemma valid_not_own (this : HeroCRTEffect) (cr : DOMRect) (w h : Q)
      (el : Media) (n : Node) :
  canvas this = Some n -> valid this cr w h el = true -> node el <> n.
Proof.
  unfold valid, same_node. intros -> V E. rewrite E, Nat.eqb_refl in V.
  discriminate V.
Qed.

Lemma own_not_valid (this : HeroCRTEffect) (cr : DOMRect) (w h : Q)
      (el : Media) (n : Node) :
  canvas this = Some n -> node el = n -> valid this cr w h el = false.
Proof.
  unfold valid, same_node. intros -> ->. rewrite Nat.eqb_refl. reflexivity.
Qed.

Lemma sameElsewhere_drawn (this : HeroCRTEffect) (cr : DOMRect) (w h : Q)
      (n : Node) (ms ms' : list Media) :
  canvas this = Some n -> sameElsewhere n ms ms' ->
  map (placed cr) (filter (valid this cr w h) ms)
  = map (placed cr) (filter (valid this cr w h) ms').
Proof.
  intros C S. induction S as [|m m' ms ms' [N E] _ IH]; [reflexivity|].
  cbn [filter]. destruct (Nat.eq_dec (node m) n) as [O|O].
  - rewrite (own_not_valid this cr w h m n C O).
    rewrite (own_not_valid this cr w h m' n C) by congruence.
    exact IH.
  - rewrite <- (E O). destruct (valid this cr w h m); cbn [map]; rewrite IH;
      reflexivity.
Qed.

(** C10: the controller's own canvas is never drawn into the snapshot,
    and the result of a capture does not depend on that element: its style,
    its position and whether drawing it would fail are never looked at. *)
Theorem own_canvas_not_captured (this this' : HeroCRTEffect) (b : Browser)
        (n : Node) (c : Canvas) :
  canvas this = Some n ->
  captureContainer this b = JS.Normal (Some c, this') ->
  (forall x y w h, ~ In (DrawImage n x y w h) (pixels c))
  /\ (forall pg,
        containerRect pg = containerRect (page b) ->
        containerStyle pg = containerStyle (page b) ->
        sameElsewhere n (mediaElements (page b)) (mediaElements pg) ->
        captureContainer this (set_page pg b) = JS.Normal (Some c, this')).
Proof.
  intros C E. destruct (captureContainer_spec this b) as [N S].
  destruct (JS.truthy (container this) && JS.truthy (sourceContext this)) eqn:G;
    [|rewrite (N eq_refl) in E; discriminate E].
  destruct (sourceCanvas this) as [sc|] eqn:Esc.
  2:{ unfold captureContainer in E. apply andb_true_iff in G as [G1 G2].
      rewrite G1, G2, Esc in E. discriminate E. }
  rewrite (S sc eq_refl eq_refl) in E. injection E as Ec Et.
  split.
  - intros x y w h I. rewrite <- Ec in I. unfold snapshot in I. cbn [pixels] in I.
    destruct I as [I|I]; [discriminate I|].
    apply in_map_iff in I as (el & P & I). apply filter_In in I as [_ V].
    apply (valid_not_own this _ _ _ el n C V).
    unfold placed in P. injection P as P _. exact P.
  - intros pg R St M.
    destruct (captureContainer_spec this (set_page pg b)) as [_ S'].
    rewrite (S' sc G Esc). cbn [page set_page].
    assert (Sn : snapshot this pg sc = snapshot this (page b) sc).
    { unfold snapshot. rewrite R, St.
      rewrite (sameElsewhere_drawn this (containerRect (page b)) (cwidth sc)
                 (cheight sc) n _ _ C M). reflexivity. }
    rewrite Sn, St, Ec. rewrite <- Et, Ec. reflexivity.
Qed.

Lemma own_canvas_not_captured_witness :
  let this := fst demoState in
  let b := set_page galleryPage (snd demoState) in
  canvas this = Some 1%nat
  /\ exists c this',
       captureContainer this b = JS.Normal (Some c, this')
       /\ ~ In (DrawImage 1%nat (0 - 0) (100 - 100) 800 600) (pixels c).
Proof.
  intros this b.
  assert (C : canvas this = Some 1%nat) by reflexivity.
  split; [exact C|].
  destruct gallery_captured as (c & this' & E & _).
  exists c, this'. split; [exact E|].
  destruct (own_canvas_not_captured this this' b 1%nat c C E) as [O _].
  apply O.
Defined.

(** ** Debounced resize *)

Lemma sameSchedule_refl (b : Browser) : sameSchedule b b.
Proof. repeat split. Qed.


(** With its canvas in place, the continuation of a capture completes and
    touches neither the schedule nor the count of re-captures. *)
Lemma captureAndUpload_completes (this : HeroCRTEffect) (b : Browser) :
  JS.truthy (sourceCanvas this) = true ->
  exists this' b',
    captureAndUpload this b = JS.Normal (this', b')
    /\ JS.truthy (sourceCanvas this') = true
    /\ scheduler b' = scheduler b /\ resizeTimeout b' = resizeTimeout b
    /\ listeners b' = listeners b /\ recaptures b' = recaptures b.
Proof.
  intro C. unfold captureAndUpload.
  destruct (captureContainer_spec this b) as [N S].
  destruct (JS.truthy (container this) && JS.truthy (sourceContext this)) eqn:G.
  - destruct (sourceCanvas this) as [sc|] eqn:E; [|discriminate C].
    rewrite (S sc eq_refl eq_refl). cbn [JS.bind].
    match goal with
    | |- context [JS.truthy (gl ?t)] => destruct (JS.truthy (gl t))
    end; eexists; eexists; (split; [reflexivity|]); repeat split.
  - rewrite (N eq_refl). cbn [JS.bind].
    exists this, b. repeat split; exact C.
Qed.

Lemma resizeCallback_completes (this : HeroCRTEffect) (b : Browser) :
  JS.truthy (sourceCanvas this) = true ->
  exists this' b',
    resizeCallback this b = JS.Normal (this', b')
    /\ JS.truthy (sourceCanvas this') = true
    /\ scheduler b' = scheduler b /\ resizeTimeout b' = resizeTimeout b
    /\ listeners b' = listeners b /\ recaptures b' = S (recaptures b).
Proof.
  intro C. unfold resizeCallback.
  assert (R : exists this1 b1,
             resize this b = JS.Normal (this1, b1)
             /\ JS.truthy (sourceCanvas this1) = true
             /\ scheduler b1 = scheduler b /\ resizeTimeout b1 = resizeTimeout b
             /\ listeners b1 = listeners b /\ recaptures b1 = recaptures b).
  { unfold resize.
    destruct (negb (JS.truthy (container this)) || negb (JS.truthy (canvas this))).
    - exists this, b. repeat split; exact C.
    - destruct (sourceCanvas this) as [sc|]; [|discriminate C].
      cbn [JS.deref JS.bind gl set_sourceCanvas].
      destruct (JS.truthy (gl this)); eexists; eexists;
        (split; [reflexivity|]); repeat split. }
  destruct R as (this1 & b1 & -> & C1 & E1 & E2 & E3 & E4). cbn [JS.bind].
  destruct (captureAndUpload_completes this1
              (set_recaptures (S (recaptures b1)) b1) C1)
    as (this2 & b2 & -> & C2 & F1 & F2 & F3 & F4).
  exists this2, b2. split; [reflexivity|]. cbn in F1, F2, F3, F4.
  repeat split; congruence.
Qed.


























(** ** Teardown *)

Lemma filter_twice {A} (f g : A -> bool) (l : list A) :
  filter f (filter g l) = filter (fun x => g x && f x) l.
Proof.
  induction l as [|x l IH]; [reflexivity|]. cbn [filter].
  destruct (g x); cbn [filter andb]; [destruct (f x)|]; rewrite IH; reflexivity.
Qed.

Lemma filter_again {A} (f : A -> bool) (l : list A) :
  filter f (filter f l) = filter f l.
Proof.
  rewrite filter_twice. apply filter_ext. intro x. destruct (f x); reflexivity.
Qed.

Lemma filter_pair_again {A} (f g : A -> bool) (l : list A) :
  filter g (filter f (filter g (filter f l))) = filter g (filter f l).
Proof.
  rewrite !filter_twice. apply filter_ext. intro x.
  destruct (f x), (g x); reflexivity.
Qed.

(** What a call of [destroy] does. *)
Lemma destroy_spec (this : HeroCRTEffect) (b : Browser) :
  destroy this b = JS.Normal (destroyed this b).
Proof.
  destruct b as [pg r cs g s ls rto rc].
  unfold destroy, destroyed, released, unlistened, deleted, without,
    cancelAnimationFrame, removeEventListener.
  destruct (animationFrameId this) as [id|]; cbn [scheduler set_scheduler];
    (destruct (container this) as [c|]; cbn [JS.truthy andb JS.deref JS.bind];
     [destruct (this_mouseMoveHandler this) as [mh|];
      cbn [JS.truthy andb JS.deref JS.bind];
      [destruct (this_mouseLeaveHandler this) as [lh|]|]|]);
    (destruct (gl this) as [x|]; cbn [JS.truthy andb JS.deref JS.bind];
     [destruct (program this) as [p|], (texture this) as [t|]|
      destruct (texture this) as [t|]]);
    destruct s; reflexivity.
Qed.

Lemma released_again (this : HeroCRTEffect) (s : Scheduler) :
  released this (released this s) = released this s.
Proof.
  unfold released. destruct (animationFrameId this); [|reflexivity].
  cbn. rewrite filter_again. reflexivity.
Qed.

Lemma unlistened_again (this : HeroCRTEffect) (ls : list Listener) :
  unlistened this (unlistened this ls) = unlistened this ls.
Proof.
  unfold unlistened, without.
  destruct (container this); [|reflexivity].
  destruct (this_mouseMoveHandler this); [|reflexivity].
  destruct (this_mouseLeaveHandler this).
  - apply filter_pair_again.
  - apply filter_again.
Qed.

Lemma deleted_again (this : HeroCRTEffect) (g : GLState) :
  deleted this (deleted this g) = deleted this g.
Proof.
  unfold deleted, deleteProgram, deleteTexture.
  destruct (gl this); [|reflexivity].
  destruct (program this), (texture this); cbn;
    rewrite ?filter_again; reflexivity.
Qed.

Lemma destroyed_again (this : HeroCRTEffect) (b : Browser) :
  destroyed this (destroyed this b) = destroyed this b.
Proof.
  unfold destroyed. cbn [page rand canvasSize glState scheduler listeners
                         resizeTimeout recaptures].
  rewrite released_again, unlistened_again, deleted_again. reflexivity.
Qed.

(** The constructor completes whatever fails on the way. *)
Lemma constructor_completes (sid : string) (pf : Platform) (b : Browser) :
  exists st, constructor sid pf b = JS.Normal st.
Proof.
  unfold constructor, init. cbn [canvas container].
  destruct (canvasElement pf) as [cv|], (containerElement pf) as [ct|];
    cbn [JS.truthy negb orb]; try (eexists; reflexivity).
  destruct (webgl pf) as [g|]; [|eexists; reflexivity].
  match goal with
  | |- exists st, JS.bind (setupWebGL pf ?t b) _ = _ => set (t0 := t)
  end.
  assert (W : exists t1 b1, setupWebGL pf t0 b = JS.Normal (t1, b1)).
  { unfold setupWebGL.
    destruct (createShader (vertexCompiles pf) (glState b)) as [vs g1].
    destruct (createShader (fragmentCompiles pf) g1) as [fs g2].
    destruct (negb (JS.truthy vs) || negb (JS.truthy fs));
      [eexists; eexists; reflexivity|].
    cbn [glState set_glState].
    destruct (createProgram (programLinks pf) g2) as [[pr|] g3];
      cbn [program set_program JS.truthy negb];
      [|eexists; eexists; reflexivity].
    destruct (createTexture g3) as [t g4]. unfold resize, t0. cbn.
    eexists; eexists; reflexivity. }
  destruct W as (t1 & b1 & ->). cbn [JS.bind].
  destruct (setupMouseTracking t1 (setupResize pf t1 b1)) as [t2 b2].
  destruct (setTimeout InitialCapture 500 b2) as [i b3].
  eexists. reflexivity.
Qed.

(** C9: [destroy] completes on every controller and a second call leaves
    the browser as the first call left it; in particular this holds for the
    controller of any construction, whichever of its steps failed (missing
    canvas or container, no WebGL context, shaders that do not compile or
    link). *)
Theorem destroy_safe :
  (forall (this : HeroCRTEffect) (b : Browser),
      exists b',
        destroy this b = JS.Normal b' /\ destroy this b' = JS.Normal b')
  /\ (forall (sid : string) (pf : Platform) (b : Browser),
         exists this b1 b2,
           constructor sid pf b = JS.Normal (this, b1)
           /\ destroy this b1 = JS.Normal b2
           /\ destroy this b2 = JS.Normal b2).
Proof.
  assert (D : forall this b,
             exists b',
               destroy this b = JS.Normal b' /\ destroy this b' = JS.Normal b').
  { intros this b. exists (destroyed this b).
    rewrite !destroy_spec, destroyed_again. split; reflexivity. }
  split; [exact D|].
  intros sid pf b.
  destruct (constructor_completes sid pf b) as ([this b1] & E).
  destruct (D this b1) as (b2 & D1 & D2).
  exists this, b1, b2. repeat split; assumption.
Qed.

(** ** The life cycle of a controller *)

Lemma sameController_refl (this : HeroCRTEffect) : sameController this this.
Proof. repeat split. Qed.

Lemma sameController_trans (t1 t2 t3 : HeroCRTEffect) :
  sameController t1 t2 -> sameController t2 t3 -> sameController t1 t3.
Proof.
  unfold sameController.
  intros (A1 & A2 & A3 & A4 & A5 & A6 & A7 & A8 & A9 & A10 & A11)
         (B1 & B2 & B3 & B4 & B5 & B6 & B7 & B8 & B9 & B10 & B11).
  repeat split; congruence.
Qed.

Lemma sameBrowser_refl (b : Browser) : sameBrowser b b.
Proof. repeat split. Qed.

Lemma sameBrowser_trans (b1 b2 b3 : Browser) :
  sameBrowser b1 b2 -> sameBrowser b2 b3 -> sameBrowser b1 b3.
Proof.
  unfold sameBrowser.
  intros (A1 & A2 & A3 & A4 & A5 & A6 & A7 & A8)
         (B1 & B2 & B3 & B4 & B5 & B6 & B7 & B8).
  repeat split; congruence.
Qed.

Lemma resize_same (this this' : HeroCRTEffect) (b b' : Browser) :
  resize this b = JS.Normal (this', b') ->
  sameController this this' /\ sameBrowser b b'.
Proof.
  unfold resize.
  destruct (negb (JS.truthy (container this)) || negb (JS.truthy (canvas this))).
  - intro H. injection H as <- <-. split; repeat split.
  - destruct (sourceCanvas this); cbn; [|discriminate].
    intro H. injection H as <- <-.
    destruct (JS.truthy (gl this)); split; repeat split.
Qed.


Lemma captureContainer_same (this this' : HeroCRTEffect) (b : Browser)
      (c : option Canvas) :
  captureContainer this b = JS.Normal (c, this') -> sameController this this'.
Proof.
  unfold captureContainer.
  destruct (negb (JS.truthy (container this))
            || negb (JS.truthy (sourceContext this))).
  - intro H. injection H as _ <-. repeat split.
  - destruct (sourceCanvas this) as [sc|]; cbn; [|discriminate].
    match goal with
    | |- JS.bind ?x _ = _ -> _ => destruct x as [sc'|]
    end; cbn; [|discriminate].
    intro H. injection H as _ <-. repeat split.
Qed.

Lemma captureAndUpload_same (this this' : HeroCRTEffect) (b b' : Browser) :
  captureAndUpload this b = JS.Normal (this', b') ->
  sameController this this' /\ sameBrowser b b' /\ recaptures b' = recaptures b.
Proof.
  unfold captureAndUpload.
  destruct (captureContainer this b) as [[c t]|] eqn:E; cbn; [|discriminate].
  apply captureContainer_same in E.
  destruct c as [c|].
  - destruct (JS.truthy (gl t)); intro H; injection H as <- <-;
      (split; [exact E|split; repeat split]).
  - intro H; injection H as <- <-. split; [exact E|split; repeat split].
Qed.

Lemma resizeCallback_same (this this' : HeroCRTEffect) (b b' : Browser) :
  resizeCallback this b = JS.Normal (this', b') ->
  sameController this this' /\ sameBrowser b b'.
Proof.
  unfold resizeCallback.
  destruct (resize this b) as [[t1 b1]|] eqn:E; cbn; [|discriminate].
  apply resize_same in E. destruct E as [C1 B1].
  intro H. apply captureAndUpload_same in H. destruct H as (C2 & B2 & _).
  split; [exact (sameController_trans _ _ _ C1 C2)|].
  apply (sameBrowser_trans _ _ _ B1). exact B2.
Qed.

Lemma runTimer_same (t : Timer) (this this' : HeroCRTEffect) (b b' : Browser) :
  runTimer t this b = JS.Normal (this', b') ->
  sameController this this' /\ sameBrowser b b'.
Proof.
  unfold runTimer. destruct (task t); intro H.
  - apply captureAndUpload_same in H. destruct H as (C & B & _). split; assumption.
  - apply resizeCallback_same in H. exact H.
Qed.

(** What a frame leaves of the browser. *)
Lemma render_schedule (this : HeroCRTEffect) (b : Browser) :
  let b' := snd (render this b) in
  timers (scheduler b') = timers (scheduler b)
  /\ now (scheduler b') = now (scheduler b)
  /\ nextTimer (scheduler b') = nextTimer (scheduler b)
  /\ listeners b' = listeners b /\ resizeTimeout b' = resizeTimeout b
  /\ page b' = page b /\ canvasSize b' = canvasSize b
  /\ recaptures b' = recaptures b
  /\ programs (glState b') = programs (glState b)
  /\ textures (glState b') = textures (glState b)
  /\ textureImage (glState b') = textureImage (glState b)
  /\ viewport (glState b') = viewport (glState b).
Proof.
  unfold render.
  destruct (negb (JS.truthy (gl this)) || negb (JS.truthy (program this)));
    [cbn; repeat split|].
  destruct (if negb (isHovering (pointer this))
            then idleGlitch (pointer this) (rand b)
            else (pointer this, rand b)) as [q r].
  cbn. repeat split.
Qed.

(** What a frame that renders leaves behind: one more draw call, with the
    time and the offset the controller has after the frame, and the handle
    of the next frame. *)
Lemma render_draws (this : HeroCRTEffect) (b : Browser) :
  rendering this = true ->
  let this' := fst (render this b) in
  let b' := snd (render this b) in
  animationFrameId this' = Some (nextFrame (scheduler b))
  /\ time this' = time this + 0.016
  /\ drawn (glState b')
     = {| u_resolution := canvasSize b;
          u_time := time this';
          u_curvature := curvature (params this);
          u_vignette := vignette (params this);
          u_scanlineIntensity := scanlineIntensity (params this);
          u_chromaticAberration := chromaticAberration (params this);
          u_mouseOffset := (mouseX (pointer this'), mouseY (pointer this')) |}
       :: drawn (glState b).
Proof.
  unfold rendering, render. intro R.
  destruct (JS.truthy (gl this)), (JS.truthy (program this));
    try discriminate R. cbn [negb orb].
  destruct (if negb (isHovering (pointer this))
            then idleGlitch (pointer this) (rand b)
            else (pointer this, rand b)) as [q r].
  cbn. repeat split.
Qed.

Lemma render_rendering (this : HeroCRTEffect) (b : Browser) :
  rendering (fst (render this b)) = rendering this.
Proof.
  destruct (render_fixed this b) as (_ & G & P & _).
  unfold rendering. rewrite G, P. reflexivity.
Qed.

Lemma rendering_same (this this' : HeroCRTEffect) :
  sameController this this' -> rendering this' = rendering this.
Proof.
  intros (_ & _ & G & P & _). unfold rendering. rewrite G, P. reflexivity.
Qed.

(** A task completes on a safe state and leaves a safe state. *)
Lemma deliver_safe (tk : Task) (st : State) :
  safe st -> exists st', deliver tk st = JS.Normal st' /\ safe st'.
Proof.
  destruct st as [this b]. unfold safe. cbn [fst snd]. intro S.
  destruct tk as [e| |tg|id|id|ms|pg]; cbn [deliver].
  - destruct (registered _ b); eexists; (split; [reflexivity|exact S]).
  - destruct (registered _ b); eexists; (split; [reflexivity|exact S]).
  - destruct (registered _ b) eqn:Rg; eexists; (split; [reflexivity|]);
      [|exact S].
    destruct S as [S|[_ S]]; [left; exact S|].
    specialize (S tg). unfold resizeListener in S. congruence.
  - destruct (existsb (Pos.eqb id) (frames (scheduler b)));
      eexists; (split; [reflexivity|]); [|exact S].
    cbn [fst snd].
    destruct (render_fixed this (cancelAnimationFrame id b))
      as (_ & _ & _ & _ & _ & _ & Sc & _).
    destruct (render_schedule this (cancelAnimationFrame id b))
      as (T & _ & _ & L & _).
    rewrite Sc. destruct S as [S|[S1 S2]]; [left; exact S|right].
    split; [rewrite T; exact S1|].
    intro tg. unfold registered. rewrite L. apply S2.
  - destruct (pendingTimer id b) as [t|] eqn:P;
      [|eexists; split; [reflexivity|exact S]].
    destruct (due t <=? now (scheduler b))%Z;
      [|eexists; split; [reflexivity|exact S]].
    destruct S as [S|[S _]].
    + unfold runTimer. destruct (task t).
      * destruct (captureAndUpload_completes this (clearTimeout (Some id) b) S)
          as (t' & b' & E & S' & _).
        exists (t', b'). split; [exact E|left; exact S'].
      * destruct (resizeCallback_completes this (clearTimeout (Some id) b) S)
          as (t' & b' & E & S' & _).
        exists (t', b'). split; [exact E|left; exact S'].
    + unfold pendingTimer in P. rewrite S in P. discriminate P.
  - eexists. split; [reflexivity|exact S].
  - eexists. split; [reflexivity|exact S].
Qed.

(** A task keeps the frame loop as it is. *)
Lemma deliver_oneFrame (tk : Task) (st st' : State) :
  oneFrame st -> deliver tk st = JS.Normal st' -> oneFrame st'.
Proof.
  destruct st as [this b]. unfold oneFrame. cbn [fst snd]. intro F.
  destruct tk as [e| |tg|id|id|ms|pg]; cbn [deliver].
  - destruct (registered _ b); intro H; injection H as <-; exact F.
  - destruct (registered _ b); intro H; injection H as <-; exact F.
  - destruct (registered _ b); intro H; injection H as <-; [|exact F].
    cbn [fst snd]. unfold resizeHandler.
    destruct (resizeTimeout b); exact F.
  - destruct (existsb (Pos.eqb id) (frames (scheduler b))) eqn:E;
      intro H; injection H as <-; [|exact F].
    rewrite render_rendering.
    destruct (rendering this) eqn:R.
    + destruct F as (id0 & F1 & F2). rewrite F1 in E. cbn in E.
      rewrite orb_false_r in E. apply Pos.eqb_eq in E. subst id0.
      destruct (render_browser this (cancelAnimationFrame id b) R)
        as (Fr & _).
      destruct (render_draws this (cancelAnimationFrame id b) R) as (A & _).
      exists (nextFrame (scheduler (cancelAnimationFrame id b))).
      split; [|exact A]. rewrite Fr. cbn. rewrite F1. cbn.
      rewrite Pos.eqb_refl. reflexivity.
    + rewrite F in E. discriminate E.
  - destruct (pendingTimer id b) as [t|];
      [|intro H; injection H as <-; exact F].
    destruct (due t <=? now (scheduler b))%Z;
      [|intro H; injection H as <-; exact F].
    destruct st' as [this' b']. intro H. apply runTimer_same in H.
    destruct H as [C B]. cbn [fst snd]. rewrite (rendering_same _ _ C).
    destruct C as (_ & _ & _ & _ & _ & A & _).
    destruct B as (_ & _ & Sc & _). rewrite Sc, A. exact F.
  - intro H; injection H as <-. exact F.
  - intro H; injection H as <-. exact F.
Qed.

Lemma run_sound (tks : list Task) (st : State) :
  safe st -> oneFrame st ->
  exists st', run tks st = JS.Normal st' /\ safe st' /\ oneFrame st'.
Proof.
  revert st. induction tks as [|tk tks IH]; intros st S F.
  - exists st. split; [reflexivity|]. split; assumption.
  - destruct (deliver_safe tk st S) as (st1 & E & S1).
    pose proof (deliver_oneFrame tk st st1 F E) as F1.
    destruct (IH st1 S1 F1) as (st' & E' & S' & F').
    exists st'. cbn [run]. rewrite E. cbn [JS.bind].
    split; [exact E'|]. split; assumption.
Qed.

(** What [setupWebGL] leaves alone. *)
Lemma setupWebGL_same (pf : Platform) (this this' : HeroCRTEffect)
      (b b' : Browser) :
  setupWebGL pf this b = JS.Normal (this', b') ->
  gl this' = gl this /\ animationFrameId this' = animationFrameId this
  /\ canvas this' = canvas this /\ container this' = container this
  /\ sourceContext this' = sourceContext this
  /\ this_mouseMoveHandler this' = this_mouseMoveHandler this
  /\ this_mouseLeaveHandler this' = this_mouseLeaveHandler this
  /\ time this' = time this
  /\ scheduler b' = scheduler b /\ listeners b' = listeners b
  /\ resizeTimeout b' = resizeTimeout b /\ page b' = page b
  /\ drawn (glState b') = drawn (glState b)
  /\ textureImage (glState b') = textureImage (glState b)
  /\ recaptures b' = recaptures b.
Proof.
  unfold setupWebGL.
  destruct (createShader (vertexCompiles pf) (glState b)) as [vs g1] eqn:V.
  destruct (createShader (fragmentCompiles pf) g1) as [fs g2] eqn:F.
  assert (D : drawn g2 = drawn (glState b)
              /\ textureImage g2 = textureImage (glState b)).
  { unfold createShader in V, F.
    destruct (negb (vertexCompiles pf)); injection V as _ <-;
      destruct (negb (fragmentCompiles pf)); injection F as _ <-;
      split; reflexivity. }
  destruct D as [D1 D2].
  destruct (negb (JS.truthy vs) || negb (JS.truthy fs)).
  - intro H. injection H as <- <-. cbn. repeat split; assumption.
  - cbn [glState set_glState].
    destruct (createProgram (programLinks pf) g2) as [pr g3] eqn:P.
    assert (D' : drawn g3 = drawn g2 /\ textureImage g3 = textureImage g2).
    { unfold createProgram in P.
      destruct (negb (programLinks pf)); injection P as _ <-;
        split; reflexivity. }
    destruct D' as [D3 D4].
    destruct pr as [pr|]; cbn.
    + intro H. unfold resize in H. cbn in H.
      destruct (negb (JS.truthy (container this))
                || negb (JS.truthy (canvas this))).
      * injection H as <- <-. cbn. repeat split; congruence.
      * destruct (sourceCanvas this); cbn in H; [|discriminate H].
        destruct (JS.truthy (gl this)); injection H as <- <-; cbn;
          repeat split; congruence.
    + intro H. injection H as <- <-. cbn. repeat split; congruence.
Qed.

Lemma registered_listeners (l : Listener) (b b' : Browser) :
  listeners b' = listeners b -> registered l b' = registered l b.
Proof. unfold registered. intros ->. reflexivity. Qed.

(** The steps of [init] after [setupWebGL]. *)
Lemma init_steps (pf : Platform) (this : HeroCRTEffect) (b : Browser)
      (cv ct : Node) (g : GLContext) :
  canvas this = Some cv -> container this = Some ct -> webgl pf = Some g ->
  init pf this b
  = JS.bind
      (setupWebGL pf
         (set_sourceContext
            (if context2d pf then Some {| fillStyle := "#000000" |} else None)
            (set_sourceCanvas
               (Some {| cwidth := 300; cheight := 150; pixels := [] |})
               (set_gl (Some g) this))) b)
      (finishInit pf).
Proof.
  intros Cv Ct W. unfold init. rewrite Cv, Ct, W. cbn [JS.truthy negb orb].
  match goal with
  | |- JS.bind ?x _ = JS.bind ?y _ =>
      change y with x; destruct x as [[t1 b1]|] eqn:E
  end; [|reflexivity].
  apply setupWebGL_same in E. destruct E as (_ & _ & _ & C & _).
  cbn in C. rewrite Ct in C.
  cbn [JS.bind fst snd]. unfold finishInit, setupMouseTracking. rewrite C.
  cbn [JS.truthy negb fst snd].
  destruct (setTimeout InitialCapture 500 _) as [i b3]. reflexivity.
Qed.

(** Without the canvas, the container or a WebGL context the constructor
    returns at once. *)
Lemma constructor_early (sid : string) (pf : Platform) (b : Browser) :
  canvasElement pf = None \/ containerElement pf = None \/ webgl pf = None ->
  exists this,
    constructor sid pf b = JS.Normal (this, b)
    /\ gl this = None /\ program this = None /\ texture this = None
    /\ sourceCanvas this = None /\ sourceContext this = None
    /\ animationFrameId this = None
    /\ this_mouseMoveHandler this = None /\ this_mouseLeaveHandler this = None
    /\ canvas this = canvasElement pf /\ container this = containerElement pf.
Proof.
  intro H. unfold constructor, init. cbn [canvas container].
  destruct (canvasElement pf) as [cv|], (containerElement pf) as [ct|];
    cbn [JS.truthy negb orb];
    try (eexists; split; [reflexivity|cbn; repeat split]).
  destruct H as [H|[H|H]]; try discriminate H. rewrite H.
  eexists; split; [reflexivity|cbn; repeat split].
Qed.

(** With both elements and a WebGL context the constructor runs [init]
    to its end. *)
Lemma constructor_steps (sid : string) (pf : Platform) (b : Browser)
      (cv ct : Node) (g : GLContext) :
  canvasElement pf = Some cv -> containerElement pf = Some ct ->
  webgl pf = Some g ->
  constructor sid pf b
  = JS.bind (setupWebGL pf (prepared sid pf cv ct g) b) (finishInit pf).
Proof.
  intros Cv Ct W. unfold constructor. cbn [canvas container].
  rewrite Cv, Ct. cbn [JS.truthy negb orb].
  erewrite init_steps by (try exact W; reflexivity).
  reflexivity.
Qed.

Lemma addEventListener_registered (tg : EventTarget) (ty : string)
      (h : Handler) (b : Browser) :
  registered {| target := tg; type := ty; callback := h |}
             (addEventListener tg ty h b) = true.
Proof.
  unfold addEventListener.
  destruct (registered _ b) eqn:R; [exact R|].
  unfold registered. cbn [listeners set_listeners].
  rewrite existsb_app. cbn [existsb]. unfold Listener_eqb. cbn [target type callback].
  rewrite String.eqb_refl.
  destruct tg, h; cbn; rewrite ?orb_true_r; reflexivity.
Qed.

Lemma addEventListener_keeps (l : Listener) (tg : EventTarget) (ty : string)
      (h : Handler) (b : Browser) :
  registered l b = true -> registered l (addEventListener tg ty h b) = true.
Proof.
  unfold addEventListener. intro R.
  destruct (registered {| target := tg; type := ty; callback := h |} b);
    [exact R|].
  unfold registered in *. cbn [listeners set_listeners].
  rewrite existsb_app, R. reflexivity.
Qed.

(** What registering a listener leaves alone. *)
Lemma addEventListener_fields (tg : EventTarget) (ty : string) (h : Handler)
      (b : Browser) :
  let b' := addEventListener tg ty h b in
  scheduler b' = scheduler b /\ glState b' = glState b /\ page b' = page b
  /\ canvasSize b' = canvasSize b /\ resizeTimeout b' = resizeTimeout b
  /\ recaptures b' = recaptures b /\ rand b' = rand b.
Proof.
  unfold addEventListener. destruct (registered _ b); repeat split.
Qed.

(** The browser after the listeners of [init] are registered. *)
Lemma finishInit_listeners (pf : Platform) (this : HeroCRTEffect) (b : Browser) :
  let b' := addEventListener Container "mouseleave" MouseLeaveHandler
              (addEventListener Container "mousemove" MouseMoveHandler
                 (setupResize pf this b)) in
  (scheduler b' = scheduler b /\ glState b' = glState b /\ page b' = page b
   /\ canvasSize b' = canvasSize b /\ recaptures b' = recaptures b
   /\ rand b' = rand b /\ resizeTimeout b' = None)
  /\ registered (resizeListener Window) b' = true
  /\ registered {| target := Container; type := "mousemove";
                   callback := MouseMoveHandler |} b' = true
  /\ registered {| target := Container; type := "mouseleave";
                   callback := MouseLeaveHandler |} b' = true
  /\ (hasResizeObserver pf && JS.truthy (container this) = true ->
      registered (resizeListener Observer) b' = true).
Proof.
  intro b'.
  assert (R : (scheduler (setupResize pf this b) = scheduler b
               /\ glState (setupResize pf this b) = glState b
               /\ page (setupResize pf this b) = page b
               /\ canvasSize (setupResize pf this b) = canvasSize b
               /\ recaptures (setupResize pf this b) = recaptures b
               /\ rand (setupResize pf this b) = rand b
               /\ resizeTimeout (setupResize pf this b) = None)
              /\ registered (resizeListener Window) (setupResize pf this b) = true
              /\ (hasResizeObserver pf && JS.truthy (container this) = true ->
                  registered (resizeListener Observer) (setupResize pf this b)
                  = true)).
  { unfold setupResize.
    pose proof (addEventListener_fields Window "resize" ResizeHandler
                  (set_resizeTimeout None b)) as F0.
    pose proof (addEventListener_registered Window "resize" ResizeHandler
                  (set_resizeTimeout None b)) as R0.
    cbv zeta in F0. cbn [scheduler glState page canvasSize recaptures rand
                           resizeTimeout set_resizeTimeout] in F0.
    destruct F0 as (F1 & F2 & F3 & F4 & F5 & F6 & F7).
    destruct (hasResizeObserver pf && JS.truthy (container this)).
    - pose proof (addEventListener_fields Observer "resize" ResizeHandler
                    (addEventListener Window "resize" ResizeHandler
                       (set_resizeTimeout None b))) as G0.
      cbv zeta in G0. destruct G0 as (G1 & G2 & G3 & G4 & G5 & G6 & G7).
      split; [repeat split; congruence|].
      split; [apply addEventListener_keeps; exact R0|].
      intros _. apply addEventListener_registered.
    - split; [repeat split; assumption|].
      split; [exact R0|]. discriminate. }
  destruct R as ((R1 & R2 & R3 & R4 & R5 & R6 & R7) & RW & RO).
  pose proof (addEventListener_fields Container "mousemove" MouseMoveHandler
                (setupResize pf this b)) as M0.
  cbv zeta in M0. destruct M0 as (M1 & M2 & M3 & M4 & M5 & M6 & M7).
  pose proof (addEventListener_fields Container "mouseleave" MouseLeaveHandler
                (addEventListener Container "mousemove" MouseMoveHandler
                   (setupResize pf this b))) as L0.
  cbv zeta in L0. fold b' in L0. destruct L0 as (L1 & L2 & L3 & L4 & L5 & L6 & L7).
  split; [repeat split; congruence|].
  split; [unfold b'; do 2 apply addEventListener_keeps; exact RW|].
  split; [unfold b'; apply addEventListener_keeps,
                     addEventListener_registered|].
  split; [apply addEventListener_registered|].
  intro H. unfold b'. do 2 apply addEventListener_keeps. exact (RO H).
Qed.

(** [setupWebGL] when a shader does not compile or the program does not
    link. *)
Lemma setupWebGL_failure (pf : Platform) (this : HeroCRTEffect) (b : Browser) :
  vertexCompiles pf && fragmentCompiles pf && programLinks pf = false ->
  program this = None ->
  exists this' b',
    setupWebGL pf this b = JS.Normal (this', b')
    /\ program this' = None /\ texture this' = texture this
    /\ sourceCanvas this' = sourceCanvas this
    /\ pointer this' = pointer this /\ params this' = params this
    /\ canvasSize b' = canvasSize b
    /\ viewport (glState b') = viewport (glState b)
    /\ textures (glState b') = textures (glState b)
    /\ (forall p, In p (programs (glState b')) -> In p (programs (glState b)))
    /\ rand b' = rand b.
Proof.
  intros F P. unfold setupWebGL, createShader, createProgram.
  destruct (vertexCompiles pf), (fragmentCompiles pf), (programLinks pf);
    try discriminate F; cbn;
    (eexists; eexists; split; [reflexivity|]);
    cbn; repeat split; try assumption; try exact (fun p H => H).
  intros p H. rewrite Nat.eqb_refl in H. cbn in H.
  apply filter_In in H. exact (proj1 H).
Qed.

(** [setupWebGL] when the shaders compile and the program links. *)
Lemma setupWebGL_success (pf : Platform) (this : HeroCRTEffect) (b : Browser)
      (cv ct : Node) (sc : Canvas) :
  vertexCompiles pf = true -> fragmentCompiles pf = true ->
  programLinks pf = true ->
  canvas this = Some cv -> container this = Some ct ->
  sourceCanvas this = Some sc ->
  let w := width (containerRect (page b)) in
  let h := height (containerRect (page b)) in
  exists this' b' p t,
    setupWebGL pf this b = JS.Normal (this', b')
    /\ program this' = Some p /\ texture this' = Some t
    /\ sourceCanvas this' = Some {| cwidth := w; cheight := h; pixels := [] |}
    /\ pointer this' = pointer this /\ params this' = params this
    /\ canvasSize b' = (w, h)
    /\ (JS.truthy (gl this) = true -> viewport (glState b') = (w, h))
    /\ programs (glState b') = p :: programs (glState b)
    /\ textures (glState b') = t :: textures (glState b)
    /\ rand b' = rand b.
Proof.
  intros V F L Cv Ct Sc w h. unfold setupWebGL, createShader.
  rewrite V, F. cbn [negb JS.truthy orb]. unfold createProgram.
  rewrite L. cbn [negb glState set_glState program set_program JS.truthy].
  cbn [createTexture]. unfold createTexture. cbn [set_glState glState].
  unfold resize. cbn [container canvas set_texture set_program sourceCanvas gl].
  rewrite Cv, Ct, Sc. cbn.
  destruct (JS.truthy (gl this));
    (eexists; eexists; eexists; eexists; split; [reflexivity|]);
    cbn; repeat split; try reflexivity; intro H; discriminate H.
Qed.

Lemma setTimeout_fields (tk : TimerTask) (delay : Z) (b : Browser) :
  let b' := snd (setTimeout tk delay b) in
  timers (scheduler b')
  = (timers (scheduler b)
     ++ [{| timerId := nextTimer (scheduler b);
            due := (now (scheduler b) + delay)%Z; task := tk |}])%list
  /\ frames (scheduler b') = frames (scheduler b)
  /\ nextFrame (scheduler b') = nextFrame (scheduler b)
  /\ now (scheduler b') = now (scheduler b)
  /\ listeners b' = listeners b /\ glState b' = glState b
  /\ page b' = page b /\ canvasSize b' = canvasSize b
  /\ resizeTimeout b' = resizeTimeout b /\ recaptures b' = recaptures b
  /\ rand b' = rand b.
Proof. cbn. repeat split. Qed.

(** X1: when the canvas, the container or a WebGL context is missing, the
    constructor returns without touching the browser (no listener, timer,
    frame or GL object), and the controller it leaves is inert: [render]
    and [destroy] do nothing on it and [captureContainer] answers null. *)
Theorem constructor_soft_fail (sid : string) (pf : Platform) (b : Browser) :
  canvasElement pf = None \/ containerElement pf = None \/ webgl pf = None ->
  exists this,
    constructor sid pf b = JS.Normal (this, b)
    /\ rendering this = false
    /\ (forall b', render this b' = (this, b'))
    /\ (forall b', destroy this b' = JS.Normal b')
    /\ (forall b', captureContainer this b' = JS.Normal (None, this)).
Proof.
  intro H.
  destruct (constructor_early sid pf b H)
    as (this & E & G & P & T & Sc & Sx & A & Mh & Lh & _).
  exists this. split; [exact E|].
  assert (R : rendering this = false) by (unfold rendering; rewrite G; reflexivity).
  split; [exact R|].
  split; [intro b'; apply render_inert; exact R|].
  split.
  - intro b'. rewrite destroy_spec. f_equal.
    unfold destroyed, deleted, released, unlistened.
    rewrite G, A, Mh. destruct (container this), b'; reflexivity.
  - intro b'. destruct (captureContainer_spec this b') as [N _].
    apply N. rewrite Sx. apply andb_false_r.
Qed.

Lemma constructor_soft_fail_witness :
  exists this,
    constructor "hero"
      {| canvasElement := Some 1%nat; containerElement := Some 2%nat;
         webgl := None; context2d := true;
         vertexCompiles := true; fragmentCompiles := true;
         programLinks := true; hasResizeObserver := true |}
      demoBrowser
    = JS.Normal (this, demoBrowser)
    /\ rendering this = false.
Proof.
  destruct (constructor_soft_fail "hero"
              {| canvasElement := Some 1%nat; containerElement := Some 2%nat;
                 webgl := None; context2d := true;
                 vertexCompiles := true; fragmentCompiles := true;
                 programLinks := true; hasResizeObserver := true |}
              demoBrowser) as (this & E & R & _).
  - right. right. reflexivity.
  - exists this. split; assumption.
Defined.

(** X2: when a shader does not compile or the program does not link, the
    constructor completes and the controller never draws and requests no
    frame; no program or texture stays live and the canvas keeps its size.
    [init] goes on all the same: the pointer listeners and the resize
    listener are registered and the timer of the initial capture is armed. *)
Theorem constructor_shader_failure (sid : string) (pf : Platform) (b : Browser)
        (cv ct : Node) (g : GLContext) :
  canvasElement pf = Some cv -> containerElement pf = Some ct ->
  webgl pf = Some g ->
  vertexCompiles pf && fragmentCompiles pf && programLinks pf = false ->
  exists this b',
    constructor sid pf b = JS.Normal (this, b')
    /\ (program this = None /\ texture this = None
        /\ animationFrameId this = None
        /\ forall b'', render this b'' = (this, b''))
    /\ (drawn (glState b') = drawn (glState b)
        /\ frames (scheduler b') = frames (scheduler b)
        /\ canvasSize b' = canvasSize b
        /\ textures (glState b') = textures (glState b)
        /\ forall p, In p (programs (glState b')) -> In p (programs (glState b)))
    /\ (registered {| target := Container; type := "mousemove";
                      callback := MouseMoveHandler |} b' = true
        /\ registered {| target := Container; type := "mouseleave";
                         callback := MouseLeaveHandler |} b' = true
        /\ registered (resizeListener Window) b' = true)
    /\ timers (scheduler b')
       = (timers (scheduler b)
          ++ [{| timerId := nextTimer (scheduler b);
                 due := (now (scheduler b) + 500)%Z;
                 task := InitialCapture |}])%list.
Proof.
  intros Cv Ct W F.
  rewrite (constructor_steps sid pf b cv ct g Cv Ct W).
  destruct (setupWebGL_failure pf (prepared sid pf cv ct g) b F eq_refl)
    as (t1 & b1 & E & P1 & T1 & _ & _ & _ & Cs & _ & Tx & Pr & _).
  rewrite E. cbn [JS.bind]. unfold finishInit. cbn [fst snd].
  apply setupWebGL_same in E.
  destruct E as (G1 & A1 & _ & _ & _ & _ & _ & _ & S1 & _ & _ & _ & D1 & _).
  pose proof (finishInit_listeners pf t1 b1) as L. cbv zeta in L.
  set (b4 := addEventListener Container "mouseleave" MouseLeaveHandler _) in *.
  destruct L as ((L1 & L2 & L3 & L4 & _) & RW & RM & RL & _).
  pose proof (setTimeout_fields InitialCapture 500 b4) as T. cbv zeta in T.
  set (b5 := snd (setTimeout InitialCapture 500 b4)) in *.
  destruct T as (Tm & Fr & _ & _ & Ls & Gs & _ & Cz & _).
  set (t2 := set_handlers (Some MouseMoveHandler) (Some MouseLeaveHandler) t1).
  assert (R : rendering t2 = false).
  { unfold rendering, t2. cbn. rewrite P1. apply andb_false_r. }
  rewrite (render_inert t2 b5 R).
  exists t2, b5. split; [reflexivity|].
  split.
  { unfold t2. cbn. rewrite P1, T1, A1. cbn. repeat split.
    intro b''. apply (render_inert _ b''). exact R. }
  split.
  { rewrite Gs, L2, Fr, L1, S1, Cz, L4.
    repeat split; try assumption. }
  split.
  { rewrite !(registered_listeners _ b4 b5 Ls). repeat split; assumption. }
  rewrite Tm, L1, S1. reflexivity.
Qed.

Lemma constructor_shader_failure_witness :
  let pf := {| canvasElement := Some 1%nat; containerElement := Some 2%nat;
               webgl := Some 3%nat; context2d := true;
               vertexCompiles := true; fragmentCompiles := false;
               programLinks := true; hasResizeObserver := true |} in
  exists this b',
    constructor "hero" pf demoBrowser = JS.Normal (this, b')
    /\ program this = None
    /\ drawn (glState b') = []
    /\ registered (resizeListener Window) b' = true.
Proof.
  intro pf.
  destruct (constructor_shader_failure "hero" pf demoBrowser 1%nat 2%nat 3%nat
              eq_refl eq_refl eq_refl eq_refl)
    as (this & b' & E & (P & _) & (D & _) & (_ & _ & R) & _).
  exists this, b'. repeat split; assumption.
Defined.





(** The constructor leaves a safe state. *)
Lemma constructor_safe (sid : string) (pf : Platform) (b : Browser) :
  timers (scheduler b) = [] ->
  (forall tg, registered (resizeListener tg) b = false) ->
  exists st, constructor sid pf b = JS.Normal st /\ safe st.
Proof.
  intros Tm Rg.
  destruct (constructor_completes sid pf b) as ([this b0] & E).
  exists (this, b0). split; [exact E|]. unfold safe. cbn [fst snd].
  destruct (canvasElement pf) as [cv|] eqn:Cv;
    [destruct (containerElement pf) as [ct|] eqn:Ct;
     [destruct (webgl pf) as [g|] eqn:W|]|].
  - left. rewrite (constructor_steps sid pf b cv ct g Cv Ct W) in E.
    destruct (setupWebGL pf (prepared sid pf cv ct g) b) as [[t1 b1]|e] eqn:E1;
      [|discriminate E].
    pose proof (setupWebGL_canvas pf _ t1 b b1 E1 eq_refl) as Sc.
    cbn [JS.bind] in E. unfold finishInit in E. cbn [fst snd] in E.
    injection E as E.
    match type of E with
    | render ?t ?x = _ =>
        destruct (render_fixed t x) as (_ & _ & _ & _ & _ & _ & Sc2 & _);
          rewrite E in Sc2
    end.
    cbn [fst] in Sc2. rewrite Sc2. exact Sc.
  - right.
    destruct (constructor_early sid pf b (or_intror (or_intror W)))
      as (this' & E' & _).
    rewrite E in E'. injection E' as _ <-. split; assumption.
  - right.
    destruct (constructor_early sid pf b (or_intror (or_introl Ct)))
      as (this' & E' & _).
    rewrite E in E'. injection E' as _ <-. split; assumption.
  - right.
    destruct (constructor_early sid pf b (or_introl Cv))
      as (this' & E' & _).
    rewrite E in E'. injection E' as _ <-. split; assumption.
Qed.

(** The constructor starts the frame loop, or leaves none. *)
Lemma constructor_oneFrame (sid : string) (pf : Platform) (b : Browser)
      (st : State) :
  frames (scheduler b) = [] ->
  constructor sid pf b = JS.Normal st -> oneFrame st.
Proof.
  intros Fr E.
  assert (Early : forall this, constructor sid pf b = JS.Normal (this, b) ->
                               gl this = None -> oneFrame st).
  { intros this E' G. rewrite E in E'. injection E' as ->.
    unfold oneFrame, rendering. cbn [fst snd]. rewrite G. exact Fr. }
  destruct (canvasElement pf) as [cv|] eqn:Cv;
    [destruct (containerElement pf) as [ct|] eqn:Ct;
     [destruct (webgl pf) as [g|] eqn:W|]|].
  - rewrite (constructor_steps sid pf b cv ct g Cv Ct W) in E.
    destruct (setupWebGL pf (prepared sid pf cv ct g) b) as [[t1 b1]|e] eqn:E1;
      [|discriminate E].
    apply setupWebGL_same in E1.
    destruct E1 as (_ & _ & _ & _ & _ & _ & _ & _ & S1 & _).
    cbn [JS.bind] in E. unfold finishInit in E. cbn [fst snd] in E.
    pose proof (finishInit_listeners pf t1 b1) as Ls. cbv zeta in Ls.
    set (b4 := addEventListener Container "mouseleave" MouseLeaveHandler _) in *.
    destruct Ls as ((L1 & _) & _).
    pose proof (setTimeout_fields InitialCapture 500 b4) as T. cbv zeta in T.
    set (b5 := snd (setTimeout InitialCapture 500 b4)) in *.
    destruct T as (_ & Frs & _).
    set (t2 := set_handlers (Some MouseMoveHandler) (Some MouseLeaveHandler) t1)
      in *.
    injection E as <-.
    unfold oneFrame. rewrite render_rendering.
    destruct (rendering t2) eqn:R.
    + destruct (render_browser t2 b5 R) as (F2 & _).
      destruct (render_draws t2 b5 R) as (A & _).
      exists (nextFrame (scheduler b5)).
      split; [|exact A]. rewrite F2, Frs, L1, S1, Fr. reflexivity.
    + rewrite (render_inert t2 b5 R). cbn [snd].
      rewrite Frs, L1, S1. exact Fr.
  - destruct (constructor_early sid pf b (or_intror (or_intror W)))
      as (this & E' & G & _). exact (Early this E' G).
  - destruct (constructor_early sid pf b (or_intror (or_introl Ct)))
      as (this & E' & G & _). exact (Early this E' G).
  - destruct (constructor_early sid pf b (or_introl Cv))
      as (this & E' & G & _). exact (Early this E' G).
Qed.

Lemma run_safe (tks : list Task) (st : State) :
  safe st -> exists st', run tks st = JS.Normal st' /\ safe st'.
Proof.
  revert st. induction tks as [|tk tks IH]; intros st S.
  - exists st. split; [reflexivity|exact S].
  - destruct (deliver_safe tk st S) as (st1 & E & S1).
    destruct (IH st1 S1) as (st' & E' & S').
    exists st'. cbn [run]. rewrite E. split; [exact E'|exact S'].
Qed.

Lemma run_oneFrame (tks : list Task) (st st' : State) :
  oneFrame st -> run tks st = JS.Normal st' -> oneFrame st'.
Proof.
  revert st. induction tks as [|tk tks IH]; intros st F.
  - intro H. injection H as <-. exact F.
  - cbn [run]. destruct (deliver tk st) as [st1|] eqn:E; [|discriminate].
    cbn [JS.bind]. apply IH. exact (deliver_oneFrame tk st st1 F E).
Qed.



(** X5: a controller built on a page without a pending frame has, after
    any sequence of tasks, exactly one animation frame pending if it
    renders, the one whose handle it keeps in [animationFrameId], and none
    if it does not: frames never pile up. *)
Theorem frame_loop_single (sid : string) (pf : Platform) (b : Browser)
        (tks : list Task) :
  timers (scheduler b) = [] ->
  (forall tg, registered (resizeListener tg) b = false) ->
  frames (scheduler b) = [] ->
  exists st0 st,
    constructor sid pf b = JS.Normal st0 /\ run tks st0 = JS.Normal st
    /\ if rendering (fst st)
       then exists id, frames (scheduler (snd st)) = [id]
                       /\ animationFrameId (fst st) = Some id
       else frames (scheduler (snd st)) = [].
Proof.
  intros Tm Rg Fr.
  destruct (constructor_safe sid pf b Tm Rg) as (st0 & E & S).
  destruct (run_safe tks st0 S) as (st & R & _).
  exists st0, st. split; [exact E|]. split; [exact R|].
  apply (run_oneFrame tks st0 st); [|exact R].
  exact (constructor_oneFrame sid pf b st0 Fr E).
Qed.

Lemma frame_loop_single_witness :
  exists st0 st,
    constructor "hero" demoPlatform demoBrowser = JS.Normal st0
    /\ run [AnimationFrame 1; AnimationFrame 1; AnimationFrame 2;
            Resized Observer; AnimationFrame 3] st0 = JS.Normal st
    /\ if rendering (fst st)
       then exists id, frames (scheduler (snd st)) = [id]
                       /\ animationFrameId (fst st) = Some id
       else frames (scheduler (snd st)) = [].
Proof.
  apply frame_loop_single.
  - reflexivity.
  - intro tg. reflexivity.
  - reflexivity.
Defined.

(** One pending frame, delivered. *)
Lemma deliver_pending_frame (id : positive) (this : HeroCRTEffect)
      (b : Browser) :
  rendering this = true -> frames (scheduler b) = [id] ->
  deliver (AnimationFrame id) (this, b)
  = JS.Normal (render this (cancelAnimationFrame id b))
  /\ frames (scheduler (cancelAnimationFrame id b)) = []
  /\ nextFrame (scheduler (cancelAnimationFrame id b)) = nextFrame (scheduler b)
  /\ glState (cancelAnimationFrame id b) = glState b
  /\ canvasSize (cancelAnimationFrame id b) = canvasSize b.
Proof.
  intros R F. cbn [deliver]. rewrite F. cbn [existsb].
  rewrite Pos.eqb_refl. cbn [orb]. split; [reflexivity|].
  cbn. rewrite F. cbn. rewrite Pos.eqb_refl. repeat split.
Qed.

(** X6: [n] animation frames in a row on a controller that renders: each
    one draws once with the parameters of the controller and the size of the
    canvas and requests the next, so that afterwards exactly one frame is
    pending, [n] draw calls were added, the time has advanced by [n] times
    0.016, and the latest draw call carries the time and the smoothed offset
    the controller has now. *)
Theorem render_loop (n : nat) (id : positive) (st : State) :
  rendering (fst st) = true ->
  frames (scheduler (snd st)) = [id] ->
  nextFrame (scheduler (snd st)) = Pos.succ id ->
  exists st',
    run (framesFrom id n) st = JS.Normal st'
    /\ rendering (fst st') = true
    /\ frames (scheduler (snd st')) = [Nat.iter n Pos.succ id]
    /\ nextFrame (scheduler (snd st')) = Pos.succ (Nat.iter n Pos.succ id)
    /\ time (fst st') == time (fst st) + inject_Z (Z.of_nat n) * 0.016
    /\ (exists us,
          drawn (glState (snd st')) = (us ++ drawn (glState (snd st)))%list
          /\ List.length us = n
          /\ Forall (fun u =>
                       u_resolution u = canvasSize (snd st)
                       /\ u_curvature u = curvature (params (fst st))
                       /\ u_vignette u = vignette (params (fst st))
                       /\ u_scanlineIntensity u
                          = scanlineIntensity (params (fst st))
                       /\ u_chromaticAberration u
                          = chromaticAberration (params (fst st))) us
          /\ forall u rest, us = u :: rest ->
               u_time u = time (fst st')
               /\ u_mouseOffset u
                  = (mouseX (pointer (fst st')), mouseY (pointer (fst st')))).
Proof.
  revert id st. induction n as [|n IH]; intros id [this b] R F N;
    cbn [fst snd] in *.
  - exists (this, b). cbn [framesFrom run fst snd Nat.iter].
    split; [reflexivity|]. split; [exact R|]. split; [exact F|].
    split; [exact N|]. split; [cbn; ring|].
    exists []. split; [reflexivity|]. split; [reflexivity|].
    split; [constructor|]. intros u rest H. discriminate H.
  - destruct (deliver_pending_frame id this b R F) as (D & F0 & N0 & G0 & C0).
    set (b0 := cancelAnimationFrame id b) in *.
    destruct (render_draws this b0 R) as (A & Tm & Dr).
    destruct (render_browser this b0 R) as (Fr & Nx & _).
    destruct (render_schedule this b0)
      as (_ & _ & _ & _ & _ & _ & Cz & _).
    destruct (render_fixed this b0) as (Pa & _).
    pose proof (render_rendering this b0) as Rr. rewrite R in Rr.
    destruct (render this b0) as [this1 b1] eqn:E. cbn [fst snd] in *.
    rewrite F0, N0, N in Fr. rewrite N0, N in Nx.
    destruct (IH (Pos.succ id) (this1, b1) Rr Fr Nx)
      as ([this' b'] & Rn & R' & F' & N' & T' & us & D' & Len & All & Hd).
    cbn [fst snd] in *.
    exists (this', b'). cbn [framesFrom run]. rewrite D. cbn [JS.bind fst snd].
    split; [exact Rn|]. split; [exact R'|].
    rewrite Nat.iter_succ_r.
    split; [exact F'|]. split; [exact N'|].
    split.
    { rewrite T', Tm, Nat2Z.inj_succ. unfold Z.succ. rewrite inject_Z_plus.
      ring. }
    rewrite Dr, G0, C0 in D'.
    match type of D' with
    | _ = (us ++ ?u0 :: _)%list => exists (us ++ [u0])%list
    end.
    split; [rewrite <- app_assoc; exact D'|].
    split; [rewrite length_app, Len; cbn; lia|].
    split.
    { apply Forall_app. split.
      - rewrite Cz, C0, Pa in All. exact All.
      - constructor; [|constructor]. cbn. repeat split. }
    intros u rest H. destruct us as [|u1 us1].
    + cbn in Len. subst n. cbn [framesFrom run] in Rn.
      injection Rn as <- <-.
      injection H as <- <-. cbn [u_time u_mouseOffset]. split; reflexivity.
    + injection H as <- <-. apply (Hd u1 us1). reflexivity.
Qed.

Lemma render_loop_witness :
  exists st',
    run (framesFrom 1 3) demoState = JS.Normal st'
    /\ frames (scheduler (snd st')) = [4%positive]
    /\ time (fst st') == time (fst demoState) + 3 * 0.016.
Proof.
  destruct (render_loop 3 1 demoState eq_refl eq_refl eq_refl)
    as (st' & R & _ & F & _ & T & _).
  exists st'. split; [exact R|]. split; [exact F|exact T].
Defined.


Lemma Listener_eqb_eq (l m : Listener) : Listener_eqb l m = true <-> l = m.
Proof.
  destruct l as [t1 y1 c1], m as [t2 y2 c2]. unfold Listener_eqb.
  cbn [target type callback]. split.
  - intro H. apply andb_prop in H as [H C]. apply andb_prop in H as [T Y].
    apply String.eqb_eq in Y. subst y2.
    destruct t1, t2; try discriminate T;
      destruct c1, c2; try discriminate C; reflexivity.
  - intro H. injection H as <- <- <-. rewrite String.eqb_refl.
    destruct t1, c1; reflexivity.
Qed.

(** Removing a listener leaves the others registered, and itself not. *)
Lemma registered_without (l k : Listener) (ls : list Listener) :
  existsb (Listener_eqb l) (without k ls)
  = negb (Listener_eqb k l) && existsb (Listener_eqb l) ls.
Proof.
  unfold without. induction ls as [|m ls IH].
  - cbn. rewrite andb_false_r. reflexivity.
  - cbn [filter existsb]. destruct (Listener_eqb k m) eqn:K; cbn [negb].
    + rewrite IH. apply Listener_eqb_eq in K. subst m.
      destruct (Listener_eqb k l) eqn:KL; cbn [negb andb]; [reflexivity|].
      destruct (Listener_eqb l k) eqn:LK; [|reflexivity].
      apply Listener_eqb_eq in LK. subst l.
      assert (T : Listener_eqb k k = true) by (apply Listener_eqb_eq; reflexivity).
      congruence.
    + cbn [existsb]. rewrite IH.
      destruct (Listener_eqb k l) eqn:KL; cbn [negb andb]; [|reflexivity].
      apply Listener_eqb_eq in KL. subst l. rewrite K. reflexivity.
Qed.

(** [destroy] on the listeners: the resize listeners stay. *)
Lemma unlistened_resize (this : HeroCRTEffect) (tg : EventTarget)
      (ls : list Listener) :
  existsb (Listener_eqb (resizeListener tg)) (unlistened this ls)
  = existsb (Listener_eqb (resizeListener tg)) ls.
Proof.
  unfold unlistened.
  destruct (container this); [|reflexivity].
  destruct (this_mouseMoveHandler this) as [mh|]; [|reflexivity].
  destruct (this_mouseLeaveHandler this) as [lh|];
    rewrite !registered_without; destruct tg, mh; try destruct lh; reflexivity.
Qed.



(** What no task changes. *)
Lemma deliver_fixed (tk : Task) (st st' : State) :
  deliver tk st = JS.Normal st' ->
  listeners (snd st') = listeners (snd st)
  /\ container (fst st') = container (fst st)
  /\ this_mouseMoveHandler (fst st') = this_mouseMoveHandler (fst st)
  /\ this_mouseLeaveHandler (fst st') = this_mouseLeaveHandler (fst st).
Proof.
  destruct st as [this b].
  destruct tk as [e| |tg|id|id|ms|pg]; cbn [deliver].
  - destruct (registered _ b); intro H; injection H as <-; repeat split.
  - destruct (registered _ b); intro H; injection H as <-; repeat split.
  - destruct (registered _ b); intro H; injection H as <-; [|repeat split].
    cbn [fst snd]. unfold resizeHandler.
    destruct (resizeTimeout b); repeat split.
  - destruct (existsb (Pos.eqb id) (frames (scheduler b)));
      intro H; injection H as <-; [|repeat split].
    destruct (render_fixed this (cancelAnimationFrame id b))
      as (_ & _ & _ & _ & _ & C & _ & _ & M & L).
    destruct (render_schedule this (cancelAnimationFrame id b))
      as (_ & _ & _ & Ls & _).
    cbn [fst snd]. rewrite C, M, L, Ls. repeat split.
  - destruct (pendingTimer id b) as [t|];
      [|intro H; injection H as <-; repeat split].
    destruct (due t <=? now (scheduler b))%Z;
      [|intro H; injection H as <-; repeat split].
    destruct st' as [this' b']. intro H. apply runTimer_same in H.
    destruct H as [(_ & C & _ & _ & _ & _ & _ & _ & _ & M & L)
                     (_ & _ & _ & Ls & _)].
    cbn [fst snd]. rewrite C, M, L, Ls. repeat split.
  - intro H; injection H as <-. repeat split.
  - intro H; injection H as <-. repeat split.
Qed.

Lemma run_tracked (tks : list Task) (st st' : State) :
  tracked st -> run tks st = JS.Normal st' -> tracked st'.
Proof.
  revert st. induction tks as [|tk tks IH]; intros st T.
  - intro H. injection H as <-. exact T.
  - cbn [run]. destruct (deliver tk st) as [st1|] eqn:E; [|discriminate].
    cbn [JS.bind]. apply IH.
    destruct (deliver_fixed tk st st1 E) as (Ls & C & M & L).
    unfold tracked, registered in *. rewrite Ls, C, M, L. exact T.
Qed.

Lemma constructor_tracked (sid : string) (pf : Platform) (b : Browser)
      (st : State) :
  listeners b = [] -> constructor sid pf b = JS.Normal st -> tracked st.
Proof.
  intros Ls E.
  assert (Early : constructor sid pf b = JS.Normal (fst st, b) -> tracked st).
  { intro E'. rewrite E in E'. injection E' as E'.
    unfold tracked, registered. rewrite E' at 1 2. cbn [snd]. rewrite Ls.
    cbn. intros [H|H]; discriminate H. }
  destruct (canvasElement pf) as [cv|] eqn:Cv;
    [destruct (containerElement pf) as [ct|] eqn:Ct;
     [destruct (webgl pf) as [g|] eqn:W|]|].
  - rewrite (constructor_steps sid pf b cv ct g Cv Ct W) in E.
    destruct (setupWebGL pf (prepared sid pf cv ct g) b) as [[t1 b1]|e] eqn:E1;
      [|discriminate E].
    apply setupWebGL_same in E1.
    destruct E1 as (_ & _ & _ & C1 & _).
    cbn [JS.bind] in E. unfold finishInit in E. cbn [fst snd] in E.
    injection E as <-. intros _.
    match goal with
    | |- context [render ?t ?x] =>
        destruct (render_fixed t x) as (_ & _ & _ & _ & _ & C & _ & _ & M & L)
    end.
    rewrite C, M, L. cbn. rewrite C1. repeat split.
  - destruct (constructor_early sid pf b (or_intror (or_intror W)))
      as (this & E' & _).
    apply Early. rewrite E'. rewrite E in E'. injection E' as ->. reflexivity.
  - destruct (constructor_early sid pf b (or_intror (or_introl Ct)))
      as (this & E' & _).
    apply Early. rewrite E'. rewrite E in E'. injection E' as ->. reflexivity.
  - destruct (constructor_early sid pf b (or_introl Cv))
      as (this & E' & _).
    apply Early. rewrite E'. rewrite E in E'. injection E' as ->. reflexivity.
Qed.

Lemma destroyed_schedule (this : HeroCRTEffect) (b : Browser) :
  timers (scheduler (destroyed this b)) = timers (scheduler b)
  /\ now (scheduler (destroyed this b)) = now (scheduler b)
  /\ nextTimer (scheduler (destroyed this b)) = nextTimer (scheduler b)
  /\ drawn (glState (destroyed this b)) = drawn (glState b).
Proof.
  unfold destroyed, released, deleted. cbn [scheduler glState].
  destruct (animationFrameId this), (gl this), (program this), (texture this);
    repeat split.
Qed.

Lemma destroyed_resize (this : HeroCRTEffect) (b : Browser) (tg : EventTarget) :
  registered (resizeListener tg) (destroyed this b)
  = registered (resizeListener tg) b.
Proof.
  unfold registered, destroyed. cbn [listeners]. apply unlistened_resize.
Qed.

Lemma destroyed_safe (this : HeroCRTEffect) (b : Browser) :
  safe (this, b) -> safe (this, destroyed this b).
Proof.
  unfold safe. cbn [fst snd]. intros [S|[T R]]; [left; exact S|right].
  destruct (destroyed_schedule this b) as (Tm & _).
  split; [rewrite Tm; exact T|].
  intro tg. rewrite destroyed_resize. apply R.
Qed.

(** [destroy] leaves no frame pending and no pointer listener. *)
Lemma destroyed_halted (this : HeroCRTEffect) (b : Browser) :
  oneFrame (this, b) -> tracked (this, b) -> halted (this, destroyed this b).
Proof.
  unfold oneFrame, tracked, halted. cbn [fst snd]. intros F T.
  split.
  - unfold destroyed, released. cbn [scheduler].
    destruct (rendering this).
    + destruct F as (id & F & A). rewrite A. cbn [frames]. rewrite F. cbn.
      rewrite Pos.eqb_refl. reflexivity.
    + destruct (animationFrameId this); [cbn [frames]; rewrite F|]; [reflexivity|exact F].
  - unfold registered in *. unfold destroyed. cbn [listeners].
    destruct (existsb (Listener_eqb moveListener) (listeners b)
              || existsb (Listener_eqb leaveListener) (listeners b)) eqn:E.
    + apply orb_prop in E. destruct (T E) as (C & M & L).
      unfold unlistened. rewrite M, L.
      destruct (container this); [|discriminate C].
      fold moveListener leaveListener. rewrite !registered_without.
      split; reflexivity.
    + apply orb_false_elim in E as [E1 E2].
      unfold unlistened.
      destruct (container this); [|split; assumption].
      destruct (this_mouseMoveHandler this); [|split; assumption].
      destruct (this_mouseLeaveHandler this);
        rewrite !registered_without, E1, E2, !andb_false_r; split; reflexivity.
Qed.

(** After teardown a task draws nothing, requests no frame and does not
    touch the pointer state. *)
Lemma deliver_halted (tk : Task) (st st' : State) :
  halted st -> deliver tk st = JS.Normal st' ->
  halted st' /\ drawn (glState (snd st')) = drawn (glState (snd st))
  /\ pointer (fst st') = pointer (fst st) /\ time (fst st') = time (fst st).
Proof.
  destruct st as [this b]. unfold halted. cbn [fst snd].
  intros (F & M & L).
  assert (Same : halted (this, b)
                 /\ drawn (glState b) = drawn (glState b)
                 /\ pointer this = pointer this /\ time this = time this).
  { repeat split; assumption. }
  destruct tk as [e| |tg|id|id|ms|pg]; cbn [deliver].
  - fold moveListener. rewrite M. cbv iota.
    intro H; injection H as <-. exact Same.
  - fold leaveListener. rewrite L. cbv iota.
    intro H; injection H as <-. exact Same.
  - fold (resizeListener tg).
    destruct (registered (resizeListener tg) b);
      intro H; injection H as <-; [|exact Same].
    unfold halted, resizeHandler, registered. cbn [fst snd].
    destruct (resizeTimeout b); cbn; repeat split; assumption.
  - rewrite F. cbn [existsb]. cbv iota.
    intro H; injection H as <-. exact Same.
  - destruct (pendingTimer id b) as [t|];
      [|intro H; injection H as <-; exact Same].
    destruct (due t <=? now (scheduler b))%Z;
      [|intro H; injection H as <-; exact Same].
    destruct st' as [this' b']. intro H. apply runTimer_same in H.
    destruct H as [(_ & _ & _ & _ & _ & _ & Tm & P & _)
                     (_ & _ & Sc & Ls & _ & _ & _ & D)].
    unfold halted, registered. cbn [fst snd]. rewrite Sc, Ls, D, P, Tm.
    repeat split; assumption.
  - intro H; injection H as <-. repeat split; assumption.
  - intro H; injection H as <-. repeat split; assumption.
Qed.

Lemma run_halted (tks : list Task) (st st' : State) :
  halted st -> run tks st = JS.Normal st' ->
  halted st' /\ drawn (glState (snd st')) = drawn (glState (snd st))
  /\ pointer (fst st') = pointer (fst st) /\ time (fst st') = time (fst st).
Proof.
  revert st. induction tks as [|tk tks IH]; intros st H.
  - intro E. injection E as <-. split; [exact H|]. repeat split.
  - cbn [run]. destruct (deliver tk st) as [st1|] eqn:E; [|discriminate].
    cbn [JS.bind]. intro R.
    destruct (deliver_halted tk st st1 H E) as (H1 & D1 & P1 & T1).
    destruct (IH st1 H1 R) as (H' & D' & P' & T').
    split; [exact H'|]. repeat split; congruence.
Qed.

(** X8: after [destroy], whatever the browser still delivers (frames,
    pointer events, resize events, timers), the controller draws nothing
    more, no animation frame is pending, and its pointer state and its time
    stay as they were: the effect is stopped. *)
Theorem destroy_stops_effect (sid : string) (pf : Platform) (b : Browser)
        (before after : list Task) :
  timers (scheduler b) = [] -> listeners b = [] ->
  frames (scheduler b) = [] ->
  exists st0 this b1 b2 st,
    constructor sid pf b = JS.Normal st0
    /\ run before st0 = JS.Normal (this, b1)
    /\ destroy this b1 = JS.Normal b2
    /\ run after (this, b2) = JS.Normal st
    /\ drawn (glState (snd st)) = drawn (glState b1)
    /\ frames (scheduler (snd st)) = []
    /\ pointer (fst st) = pointer this /\ time (fst st) = time this.
Proof.
  intros Tm Ls Fr.
  assert (Rg : forall tg, registered (resizeListener tg) b = false).
  { intro tg. unfold registered. rewrite Ls. reflexivity. }
  destruct (constructor_safe sid pf b Tm Rg) as (st0 & E & S0).
  pose proof (constructor_oneFrame sid pf b st0 Fr E) as F0.
  pose proof (constructor_tracked sid pf b st0 Ls E) as T0.
  destruct (run_safe before st0 S0) as ([this b1] & R1 & S1).
  pose proof (run_oneFrame before st0 _ F0 R1) as F1.
  pose proof (run_tracked before st0 _ T0 R1) as T1.
  pose proof (destroyed_halted this b1 F1 T1) as H2.
  destruct (run_safe after (this, destroyed this b1) (destroyed_safe this b1 S1))
    as (st & R2 & _).
  destruct (run_halted after _ st H2 R2) as ((F & _) & D & P & T).
  cbn [fst snd] in D, P, T.
  destruct (destroyed_schedule this b1) as (_ & _ & _ & Dd).
  exists st0, this, b1, (destroyed this b1), st.
  split; [exact E|]. split; [exact R1|]. split; [apply destroy_spec|].
  split; [exact R2|]. split; [congruence|].
  split; [exact F|]. split; assumption.
Qed.

Lemma destroy_stops_effect_witness :
  exists st0 this b1 b2 st,
    constructor "hero" demoPlatform demoBrowser = JS.Normal st0
    /\ run [Mousemove {| clientX := 600; clientY := 450 |}; AnimationFrame 1]
           st0 = JS.Normal (this, b1)
    /\ destroy this b1 = JS.Normal b2
    /\ run [AnimationFrame 2; Mousemove {| clientX := 10; clientY := 10 |};
            Resized Window; Elapse 500; Timeout 1; Timeout 2; AnimationFrame 2]
           (this, b2) = JS.Normal st
    /\ drawn (glState (snd st)) = drawn (glState b1)
    /\ pointer (fst st) = pointer this.
Proof.
  destruct (destroy_stops_effect "hero" demoPlatform demoBrowser
              [Mousemove {| clientX := 600; clientY := 450 |}; AnimationFrame 1]
              [AnimationFrame 2; Mousemove {| clientX := 10; clientY := 10 |};
               Resized Window; Elapse 500; Timeout 1; Timeout 2;
               AnimationFrame 2] eq_refl eq_refl eq_refl)
    as (st0 & this & b1 & b2 & st & E & R1 & D & R2 & Dr & _ & P & _).
  exists st0, this, b1, b2, st. repeat split; assumption.
Defined.

Lemma deliver_owns (tk : Task) (st st' : State) :
  owns st -> deliver tk st = JS.Normal st' -> owns st'.
Proof.
  destruct st as [this b]. unfold owns. cbn [fst snd]. intro O.
  destruct tk as [e| |tg|id|id|ms|pg]; cbn [deliver].
  - destruct (registered _ b); intro H; injection H as <-; exact O.
  - destruct (registered _ b); intro H; injection H as <-; exact O.
  - destruct (registered _ b); intro H; injection H as <-; [|exact O].
    cbn [fst snd]. unfold resizeHandler. destruct (resizeTimeout b); exact O.
  - destruct (existsb (Pos.eqb id) (frames (scheduler b)));
      intro H; injection H as <-; [|exact O].
    destruct (render_fixed this (cancelAnimationFrame id b))
      as (_ & G & P & T & _).
    destruct (render_schedule this (cancelAnimationFrame id b))
      as (_ & _ & _ & _ & _ & _ & _ & _ & Pr & Tx & _).
    cbn [fst snd]. rewrite G, P, T, Pr, Tx. exact O.
  - destruct (pendingTimer id b) as [t|];
      [|intro H; injection H as <-; exact O].
    destruct (due t <=? now (scheduler b))%Z;
      [|intro H; injection H as <-; exact O].
    destruct st' as [this' b']. intro H. apply runTimer_same in H.
    destruct H as [(_ & _ & G & P & T & _) (_ & _ & _ & _ & _ & Pr & Tx & _)].
    cbn [fst snd]. rewrite G, P, T, Pr, Tx. exact O.
  - intro H; injection H as <-. exact O.
  - intro H; injection H as <-. exact O.
Qed.

Lemma run_owns (tks : list Task) (st st' : State) :
  owns st -> run tks st = JS.Normal st' -> owns st'.
Proof.
  revert st. induction tks as [|tk tks IH]; intros st O.
  - intro H. injection H as <-. exact O.
  - cbn [run]. destruct (deliver tk st) as [st1|] eqn:E; [|discriminate].
    cbn [JS.bind]. apply IH. exact (deliver_owns tk st st1 O E).
Qed.

Lemma constructor_owns (sid : string) (pf : Platform) (b : Browser)
      (st : State) :
  programs (glState b) = [] -> textures (glState b) = [] ->
  constructor sid pf b = JS.Normal st -> owns st.
Proof.
  intros Pr Tx E.
  assert (Early : forall this,
             constructor sid pf b = JS.Normal (this, b) ->
             program this = None -> texture this = None -> owns st).
  { intros this E' P T. rewrite E in E'. injection E' as ->.
    unfold owns. cbn [fst snd]. rewrite P, T, Pr, Tx. repeat split. }
  destruct (canvasElement pf) as [cv|] eqn:Cv;
    [destruct (containerElement pf) as [ct|] eqn:Ct;
     [destruct (webgl pf) as [g|] eqn:W|]|].
  - rewrite (constructor_steps sid pf b cv ct g Cv Ct W) in E.
    assert (O1 : exists t1 b1,
               setupWebGL pf (prepared sid pf cv ct g) b = JS.Normal (t1, b1)
               /\ owns (t1, b1) /\ gl t1 = Some g).
    { destruct (vertexCompiles pf && fragmentCompiles pf && programLinks pf)
        eqn:F.
      - apply andb_prop in F as [F L]. apply andb_prop in F as [V F].
        destruct (setupWebGL_success pf (prepared sid pf cv ct g) b cv ct _
                    V F L eq_refl eq_refl eq_refl)
          as (t1 & b1 & p & t & E1 & P1 & T1 & _ & _ & _ & _ & _ & Pr1 & Tx1 & _).
        exists t1, b1. split; [exact E1|].
        apply setupWebGL_same in E1. destruct E1 as (G1 & _).
        split; [|exact G1].
        unfold owns. cbn [fst snd]. rewrite P1, T1, Pr1, Tx1, Pr, Tx, G1.
        repeat split; discriminate.
      - destruct (setupWebGL_failure pf (prepared sid pf cv ct g) b F eq_refl)
          as (t1 & b1 & E1 & P1 & T1 & _ & _ & _ & _ & _ & Tx1 & Pr1 & _).
        exists t1, b1. split; [exact E1|].
        apply setupWebGL_same in E1. destruct E1 as (G1 & _).
        split; [|exact G1].
        unfold owns. cbn [fst snd]. rewrite P1, T1, Tx1, Tx.
        split; [|repeat split].
        destruct (programs (glState b1)) as [|q qs]; [reflexivity|].
        exfalso. specialize (Pr1 q (or_introl eq_refl)). rewrite Pr in Pr1.
        exact Pr1. }
    destruct O1 as (t1 & b1 & E1 & O1 & G1). rewrite E1 in E.
    cbn [JS.bind] in E. unfold finishInit in E. cbn [fst snd] in E.
    pose proof (finishInit_listeners pf t1 b1) as Ls. cbv zeta in Ls.
    set (b4 := addEventListener Container "mouseleave" MouseLeaveHandler _) in *.
    destruct Ls as ((_ & L2 & _) & _).
    pose proof (setTimeout_fields InitialCapture 500 b4) as T. cbv zeta in T.
    set (b5 := snd (setTimeout InitialCapture 500 b4)) in *.
    destruct T as (_ & _ & _ & _ & _ & Gs & _).
    set (t2 := set_handlers (Some MouseMoveHandler) (Some MouseLeaveHandler) t1)
      in *.
    injection E as <-.
    destruct (render_fixed t2 b5) as (_ & G2 & P2 & T2 & _).
    destruct (render_schedule t2 b5)
      as (_ & _ & _ & _ & _ & _ & _ & _ & Prr & Txr & _).
    unfold owns in *. cbn [fst snd] in *.
    rewrite G2, P2, T2, Prr, Txr, Gs, L2. exact O1.
  - destruct (constructor_early sid pf b (or_intror (or_intror W)))
      as (this & E' & _ & P & T & _). exact (Early this E' P T).
  - destruct (constructor_early sid pf b (or_intror (or_introl Ct)))
      as (this & E' & _ & P & T & _). exact (Early this E' P T).
  - destruct (constructor_early sid pf b (or_introl Cv))
      as (this & E' & _ & P & T & _). exact (Early this E' P T).
Qed.

(** X9: on a WebGL context without objects, the controller creates at
    most one program and one texture, and [destroy], called after any
    sequence of tasks, deletes them: no program and no texture stays live,
    whichever step of the construction failed. *)
Theorem destroy_releases_gl (sid : string) (pf : Platform) (b : Browser)
        (tks : list Task) :
  programs (glState b) = [] -> textures (glState b) = [] ->
  timers (scheduler b) = [] -> listeners b = [] ->
  exists st0 this b1 b2,
    constructor sid pf b = JS.Normal st0
    /\ run tks st0 = JS.Normal (this, b1)
    /\ (List.length (programs (glState b1)) <= 1
        /\ List.length (textures (glState b1)) <= 1)%nat
    /\ destroy this b1 = JS.Normal b2
    /\ programs (glState b2) = [] /\ textures (glState b2) = [].
Proof.
  intros Pr Tx Tm Ls.
  assert (Rg : forall tg, registered (resizeListener tg) b = false).
  { intro tg. unfold registered. rewrite Ls. reflexivity. }
  destruct (constructor_safe sid pf b Tm Rg) as (st0 & E & S0).
  pose proof (constructor_owns sid pf b st0 Pr Tx E) as O0.
  destruct (run_safe tks st0 S0) as ([this b1] & R1 & _).
  pose proof (run_owns tks st0 _ O0 R1) as (P1 & T1 & G1). cbn [fst snd] in *.
  exists st0, this, b1, (destroyed this b1).
  split; [exact E|]. split; [exact R1|].
  split.
  { rewrite P1, T1. destruct (program this), (texture this); cbn; lia. }
  split; [apply destroy_spec|].
  unfold destroyed, deleted, deleteProgram, deleteTexture. cbn [glState].
  destruct (gl this) as [g|].
  - destruct (program this) as [p|], (texture this) as [t|];
      cbn [programs textures]; rewrite ?P1, ?T1; cbn;
      rewrite ?Nat.eqb_refl; split; reflexivity.
  - destruct (G1 eq_refl) as [P0 T0]. rewrite P0, T0 in *.
    split; assumption.
Qed.

Lemma destroy_releases_gl_witness :
  exists st0 this b1 b2,
    constructor "hero" demoPlatform demoBrowser = JS.Normal st0
    /\ run [AnimationFrame 1; Elapse 500; Timeout 1] st0 = JS.Normal (this, b1)
    /\ destroy this b1 = JS.Normal b2
    /\ programs (glState b2) = [] /\ textures (glState b2) = [].
Proof.
  destruct (destroy_releases_gl "hero" demoPlatform demoBrowser
              [AnimationFrame 1; Elapse 500; Timeout 1]
              eq_refl eq_refl eq_refl eq_refl)
    as (st0 & this & b1 & b2 & E & R & _ & D & P & T).
  exists st0, this, b1, b2. repeat split; assumption.
Defined.

(** ** Resize and capture *)




(** X11: [resize] relies on the offscreen canvas that [init] creates only
    once a WebGL context was obtained: on the controller of a page that has
    the canvas and the container but no WebGL, a call of [resize] throws a
    TypeError, while [render], [destroy] and [captureContainer] are safe
    there. *)
Theorem resize_without_webgl_throws (sid : string) (pf : Platform)
        (b : Browser) (cv ct : Node) :
  canvasElement pf = Some cv -> containerElement pf = Some ct ->
  webgl pf = None ->
  exists this,
    constructor sid pf b = JS.Normal (this, b)
    /\ (forall b', resize this b' = JS.Throw JS.TypeError)
    /\ (forall b', resizeCallback this b' = JS.Throw JS.TypeError)
    /\ (forall b', render this b' = (this, b'))
    /\ (forall b', exists b'', destroy this b' = JS.Normal b'')
    /\ (forall b', captureContainer this b' = JS.Normal (None, this)).
Proof.
  intros Cv Ct W.
  destruct (constructor_early sid pf b (or_intror (or_intror W)))
    as (this & E & G & P & T & Sc & Sx & A & Mh & Lh & C1 & C2).
  exists this. split; [exact E|].
  assert (Rz : forall b', resize this b' = JS.Throw JS.TypeError).
  { intro b'. unfold resize. rewrite C1, C2, Cv, Ct, Sc. reflexivity. }
  split; [exact Rz|].
  split; [intro b'; unfold resizeCallback; rewrite Rz; reflexivity|].
  split.
  { intro b'. apply render_inert. unfold rendering. rewrite G. reflexivity. }
  split; [intro b'; eexists; apply destroy_spec|].
  intro b'. destruct (captureContainer_spec this b') as [N _].
  apply N. rewrite Sx. apply andb_false_r.
Qed.

Lemma resize_without_webgl_throws_witness :
  let pf := {| canvasElement := Some 1%nat; containerElement := Some 2%nat;
               webgl := None; context2d := true;
               vertexCompiles := true; fragmentCompiles := true;
               programLinks := true; hasResizeObserver := true |} in
  exists this,
    constructor "hero" pf demoBrowser = JS.Normal (this, demoBrowser)
    /\ resize this demoBrowser = JS.Throw JS.TypeError.
Proof.
  intro pf.
  destruct (resize_without_webgl_throws "hero" pf demoBrowser 1%nat 2%nat
              eq_refl eq_refl eq_refl) as (this & E & Rz & _).
  exists this. split; [exact E|apply Rz].
Defined.





(** X13: a capture that yields a raster leaves the controller in a state
    in which a second capture of the same page yields the same raster and
    changes nothing: the offscreen canvas is overwritten, not painted over. *)
Theorem captureContainer_idempotent (this this' : HeroCRTEffect) (b : Browser)
        (c : Canvas) :
  captureContainer this b = JS.Normal (Some c, this') ->
  captureContainer this' b = JS.Normal (Some c, this')
  /\ sourceCanvas this' = Some c.
Proof.
  intro E.
  destruct (captureContainer_spec this b) as [N Sp].
  destruct (JS.truthy (container this) && JS.truthy (sourceContext this)) eqn:T.
  - destruct (sourceCanvas this) as [sc|] eqn:Sc.
    + rewrite (Sp sc eq_refl eq_refl) in E. injection E as <- <-.
      split; [|reflexivity].
      set (shot := snapshot this (page b) sc).
      destruct (captureContainer_spec
                  (set_sourceCanvas (Some shot)
                     (set_sourceContext
                        (Some {| fillStyle :=
                                   background (containerStyle (page b)) |})
                        this)) b) as [_ Sp'].
      rewrite (Sp' shot).
      * f_equal.
      * cbn. apply andb_prop in T as [T _]. rewrite T. reflexivity.
      * reflexivity.
    + unfold captureContainer in E. apply andb_prop in T as [T1 T2].
      rewrite T1, T2, Sc in E. discriminate E.
  - rewrite (N eq_refl) in E. discriminate E.
Qed.

Lemma captureContainer_idempotent_witness :
  let this := fst demoState in
  let b := set_page galleryPage (snd demoState) in
  exists c this',
    captureContainer this b = JS.Normal (Some c, this')
    /\ captureContainer this' b = JS.Normal (Some c, this').
Proof.
  intros this b.
  destruct (gallery_captured) as (c & this' & E & _).
  exists c, this'. split; [exact E|].
  exact (proj1 (captureContainer_idempotent this this' b c E)).
Defined.










(** ** What stays fixed during the life of a controller *)

Lemma deliver_params (tk : Task) (st st' : State) (P : EffectParameters) :
  params (fst st) = P /\ Forall (carries P) (drawn (glState (snd st))) ->
  deliver tk st = JS.Normal st' ->
  params (fst st') = P /\ Forall (carries P) (drawn (glState (snd st'))).
Proof.
  destruct st as [this b]. cbn [fst snd]. intros [Pa D].
  destruct tk as [e| |tg|id|id|ms|pg]; cbn [deliver].
  - destruct (registered _ b); intro H; injection H as <-;
      split; assumption.
  - destruct (registered _ b); intro H; injection H as <-;
      split; assumption.
  - destruct (registered _ b); intro H; injection H as <-;
      [|split; assumption].
    cbn [fst snd]. unfold resizeHandler.
    destruct (resizeTimeout b); split; assumption.
  - destruct (existsb (Pos.eqb id) (frames (scheduler b)));
      intro H; injection H as <-; [|split; assumption].
    destruct (render_fixed this (cancelAnimationFrame id b)) as (Pa' & _).
    split; [rewrite Pa'; exact Pa|].
    destruct (rendering this) eqn:R.
    + destruct (render_draws this (cancelAnimationFrame id b) R)
        as (_ & _ & Dr).
      rewrite Dr. constructor; [|exact D].
      unfold carries.
      cbn [u_curvature u_vignette u_scanlineIntensity u_chromaticAberration].
      rewrite Pa. repeat split.
    + rewrite (render_inert this _ R). exact D.
  - destruct (pendingTimer id b) as [t|];
      [|intro H; injection H as <-; split; assumption].
    destruct (due t <=? now (scheduler b))%Z;
      [|intro H; injection H as <-; split; assumption].
    destruct st' as [this' b']. intro H. apply runTimer_same in H.
    destruct H as [(_ & _ & _ & _ & _ & _ & _ & _ & Pa' & _)
                     (_ & _ & _ & _ & _ & _ & _ & Dr)].
    cbn [fst snd]. rewrite Pa', Dr. split; assumption.
  - intro H; injection H as <-. split; assumption.
  - intro H; injection H as <-. split; assumption.
Qed.

Lemma run_params (tks : list Task) (st st' : State) (P : EffectParameters) :
  params (fst st) = P /\ Forall (carries P) (drawn (glState (snd st))) ->
  run tks st = JS.Normal st' ->
  params (fst st') = P /\ Forall (carries P) (drawn (glState (snd st'))).
Proof.
  revert st. induction tks as [|tk tks IH]; intros st I.
  - intro H. injection H as <-. exact I.
  - cbn [run]. destruct (deliver tk st) as [st1|] eqn:E; [|discriminate].
    cbn [JS.bind]. apply IH. exact (deliver_params tk st st1 P I E).
Qed.

Lemma constructor_params (sid : string) (pf : Platform) (b : Browser)
      (st : State) (cv ct : Node) :
  canvasElement pf = Some cv -> containerElement pf = Some ct ->
  drawn (glState b) = [] ->
  constructor sid pf b = JS.Normal st ->
  params (fst st) = defaultParameters
  /\ Forall (carries defaultParameters) (drawn (glState (snd st))).
Proof.
  intros Cv Ct D E.
  destruct (webgl pf) as [g|] eqn:W.
  - rewrite (constructor_steps sid pf b cv ct g Cv Ct W) in E.
    destruct (setupWebGL pf (prepared sid pf cv ct g) b) as [[t1 b1]|e] eqn:E1;
      [|discriminate E].
    pose proof (setupWebGL_frame pf _ t1 b b1 E1) as (_ & Pa1 & _).
    apply setupWebGL_same in E1.
    destruct E1 as (_ & _ & _ & _ & _ & _ & _ & _ & _ & _ & _ & _ & D1 & _).
    cbn [JS.bind] in E. unfold finishInit in E. cbn [fst snd] in E.
    pose proof (finishInit_listeners pf t1 b1) as Ls. cbv zeta in Ls.
    set (b4 := addEventListener Container "mouseleave" MouseLeaveHandler _) in *.
    destruct Ls as ((_ & L2 & _) & _).
    pose proof (setTimeout_fields InitialCapture 500 b4) as T. cbv zeta in T.
    set (b5 := snd (setTimeout InitialCapture 500 b4)) in *.
    destruct T as (_ & _ & _ & _ & _ & Gs & _).
    set (t2 := set_handlers (Some MouseMoveHandler) (Some MouseLeaveHandler) t1)
      in *.
    assert (Pa2 : params t2 = defaultParameters) by exact Pa1.
    injection E as <-.
    destruct (render_fixed t2 b5) as (Pa' & _).
    split; [rewrite Pa'; exact Pa2|].
    destruct (rendering t2) eqn:R.
    + destruct (render_draws t2 b5 R) as (_ & _ & Dr).
      rewrite Dr, Gs, L2, D1, D. constructor; [|constructor].
      unfold carries.
      cbn [u_curvature u_vignette u_scanlineIntensity u_chromaticAberration].
      rewrite Pa2. repeat split.
    + rewrite (render_inert t2 b5 R). cbn [snd]. rewrite Gs, L2, D1, D.
      constructor.
  - unfold constructor, init in E. cbn [canvas container] in E.
    rewrite Cv, Ct, W in E. cbn in E. injection E as <-.
    cbn [fst snd]. rewrite D. split; [reflexivity|constructor].
Qed.

(** X29: the effect parameters are set once.  A controller built on a page
    that has the canvas and the container keeps, through any sequence of
    tasks, the parameters that the constructor assigns (curvature 0.12,
    vignette 0.74, scanline intensity 0.5, chromatic aberration 0.5, mouse
    sensitivity 0.008, momentum 0.85), and every draw call it ever makes
    carries them. *)
Theorem parameters_immutable (sid : string) (pf : Platform) (b : Browser)
        (cv ct : Node) (tks : list Task) :
  canvasElement pf = Some cv -> containerElement pf = Some ct ->
  timers (scheduler b) = [] ->
  (forall tg, registered (resizeListener tg) b = false) ->
  drawn (glState b) = [] ->
  exists st0 st,
    constructor sid pf b = JS.Normal st0 /\ run tks st0 = JS.Normal st
    /\ params (fst st) = defaultParameters
    /\ Forall (carries defaultParameters) (drawn (glState (snd st))).
Proof.
  intros Cv Ct Tm Rg D.
  destruct (constructor_safe sid pf b Tm Rg) as (st0 & E & S).
  destruct (run_safe tks st0 S) as (st & R & _).
  exists st0, st. split; [exact E|]. split; [exact R|].
  apply (run_params tks st0 st); [|exact R].
  exact (constructor_params sid pf b st0 cv ct Cv Ct D E).
Qed.

Lemma parameters_immutable_witness :
  exists st0 st,
    constructor "hero" demoPlatform demoBrowser = JS.Normal st0
    /\ run [AnimationFrame 1; Mousemove {| clientX := 600; clientY := 450 |};
            AnimationFrame 2; Resized Window; Elapse 600; Timeout 1; Timeout 2]
           st0 = JS.Normal st
    /\ curvature (params (fst st)) = 0.12
    /\ Forall (carries defaultParameters) (drawn (glState (snd st))).
Proof.
  destruct (parameters_immutable "hero" demoPlatform demoBrowser 1%nat 2%nat
              [AnimationFrame 1;
               Mousemove {| clientX := 600; clientY := 450 |};
               AnimationFrame 2; Resized Window; Elapse 600;
               Timeout 1; Timeout 2])
    as (st0 & st & E & R & P & D); try reflexivity.
  exists st0, st. split; [exact E|]. split; [exact R|].
  split; [rewrite P; reflexivity|exact D].
Defined.








(** ** Convergence of the smoothed offset *)

Lemma energyHover_decay (m v t mu : Q) :
  mu == 0.85 ->
  energyHover (m + (v + (t - m) * 0.1) * mu - t) ((v + (t - m) * 0.1) * mu)
  == 0.85 * energyHover (m - t) v.
Proof. intro M. unfold energyHover. rewrite M. ring. Qed.

Lemma energyIdle_decay (m v t mu : Q) :
  mu == 0.85 ->
  energyIdle (m + (v + (t - m) * 0.02) * mu - t) ((v + (t - m) * 0.02) * mu)
  == 0.85 * energyIdle (m - t) v.
Proof. intro M. unfold energyIdle. rewrite M. ring. Qed.

Lemma energyHover_distance (d v : Q) : 33 * (d * d) <= energyHover d v.
Proof.
  unfold energyHover.
  pose proof (Qsquare_nonneg (d + 13 * v)).
  pose proof (Qsquare_nonneg v). lra.
Qed.

(** The pointer state after a frame that renders without an idle nudge. *)
Lemma render_quiet_pointer (this : HeroCRTEffect) (b : Browser) :
  rendering this = true ->
  (isHovering (pointer this) = false -> nudges (rand b) = false) ->
  pointer (fst (render this b)) = interpolate (params this) (pointer this).
Proof.
  intros R Nn. rewrite (render_pointer this b R).
  destruct (isHovering (pointer this)) eqn:H; [reflexivity|].
  rewrite (idleGlitch_quiet (pointer this) (rand b) (Nn eq_refl)).
  reflexivity.
Qed.

(** X17: in a frame that renders without an idle nudge (the pointer is
    over the container, or the draws of that frame trigger no nudge), the
    target stays and, on each axis, a quadratic measure of the distance of
    offset and velocity from rest at the target shrinks by exactly the
    momentum 0.85: the smoothing is a damped spring that settles at the
    target. *)
Theorem render_energy_decay (this : HeroCRTEffect) (b : Browser) :
  rendering this = true -> momentum (params this) == 0.85 ->
  (isHovering (pointer this) = false -> nudges (rand b) = false) ->
  let p := pointer this in
  let p' := pointer (fst (render this b)) in
  let tx := targetMouseX p in
  let ty := targetMouseY p in
  targetMouseX p' = tx /\ targetMouseY p' = ty
  /\ isHovering p' = isHovering p
  /\ if isHovering p
     then energyHover (mouseX p' - tx) (velocityX p')
          == 0.85 * energyHover (mouseX p - tx) (velocityX p)
          /\ energyHover (mouseY p' - ty) (velocityY p')
             == 0.85 * energyHover (mouseY p - ty) (velocityY p)
     else energyIdle (mouseX p' - tx) (velocityX p')
          == 0.85 * energyIdle (mouseX p - tx) (velocityX p)
          /\ energyIdle (mouseY p' - ty) (velocityY p')
             == 0.85 * energyIdle (mouseY p - ty) (velocityY p).
Proof.
  intros R M Nn p p' tx ty.
  assert (E : p' = interpolate (params this) p)
    by (apply render_quiet_pointer; assumption).
  destruct (interpolate_fields (params this) p)
    as (Vx & Vy & Mx & My & Ex & Ey & Eh).
  rewrite <- E in Vx, Vy, Mx, My, Ex, Ey, Eh.
  split; [exact Ex|]. split; [exact Ey|]. split; [exact Eh|].
  rewrite Mx, My, Vx, Vy. fold tx ty.
  destruct (isHovering p).
  - split; apply energyHover_decay; exact M.
  - split; apply energyIdle_decay; exact M.
Qed.

Lemma render_energy_decay_witness :
  let this := fst demoState in
  let b := snd demoState in
  let p := pointer this in
  let p' := pointer (fst (render this b)) in
  isHovering p = false
  /\ energyIdle (mouseX p' - targetMouseX p) (velocityX p')
     == 0.85 * energyIdle (mouseX p - targetMouseX p) (velocityX p).
Proof.
  intros this b p p'.
  assert (H : isHovering p = false) by reflexivity.
  split; [exact H|].
  pose proof (render_energy_decay this b eq_refl (Qeq_refl _)
                (fun _ => eq_refl)) as D.
  cbv zeta in D. fold p p' in D. rewrite H in D.
  exact (proj1 (proj2 (proj2 (proj2 D)))).
Defined.

Lemma Qpower_succ (a : Q) (n : nat) :
  a ^ Z.of_nat (S n) == a * a ^ Z.of_nat n.
Proof.
  rewrite Nat2Z.inj_succ. unfold Z.succ.
  rewrite Qpower_plus' by lia. rewrite Qpower_1_r. ring.
Qed.

(** X18: while the pointer rests over the container, the smoothed offset
    closes in on the target: [n] frames leave the target where it is, draw
    no random number, and shrink the quadratic measure of each axis by
    0.85 to the power [n]; the squared distance between offset and target
    is at most a thirty-third of that measure. *)
Theorem hover_converges (n : nat) (id : positive) (st : State) :
  rendering (fst st) = true ->
  frames (scheduler (snd st)) = [id] ->
  nextFrame (scheduler (snd st)) = Pos.succ id ->
  isHovering (pointer (fst st)) = true ->
  momentum (params (fst st)) == 0.85 ->
  let p := pointer (fst st) in
  let tx := targetMouseX p in
  let ty := targetMouseY p in
  exists st',
    run (framesFrom id n) st = JS.Normal st'
    /\ rand (snd st') = rand (snd st)
    /\ let p' := pointer (fst st') in
       isHovering p' = true /\ targetMouseX p' = tx /\ targetMouseY p' = ty
       /\ energyHover (mouseX p' - tx) (velocityX p')
          == 0.85 ^ Z.of_nat n * energyHover (mouseX p - tx) (velocityX p)
       /\ energyHover (mouseY p' - ty) (velocityY p')
          == 0.85 ^ Z.of_nat n * energyHover (mouseY p - ty) (velocityY p)
       /\ 33 * ((mouseX p' - tx) * (mouseX p' - tx))
          <= 0.85 ^ Z.of_nat n * energyHover (mouseX p - tx) (velocityX p)
       /\ 33 * ((mouseY p' - ty) * (mouseY p' - ty))
          <= 0.85 ^ Z.of_nat n * energyHover (mouseY p - ty) (velocityY p).
Proof.
  cbv zeta. revert id st.
  induction n as [|n IH]; intros id [this b] R F N H M; cbn [fst snd] in *.
  - exists (this, b). cbn [framesFrom run fst snd].
    split; [reflexivity|]. split; [reflexivity|].
    split; [exact H|]. split; [reflexivity|]. split; [reflexivity|].
    change (0.85 ^ Z.of_nat 0) with 1.
    split; [ring|]. split; [ring|].
    split; (rewrite Qmult_1_l; apply energyHover_distance).
  - set (p := pointer this) in *.
    set (tx := targetMouseX p). set (ty := targetMouseY p).
    destruct (deliver_pending_frame id this b R F) as (D & F0 & N0 & _).
    set (b0 := cancelAnimationFrame id b) in *.
    assert (Nn : isHovering (pointer this) = false -> nudges (rand b0) = false)
      by (intro C; fold p in C; congruence).
    pose proof (render_quiet_pointer this b0 R Nn) as Ep.
    destruct (interpolate_fields (params this) (pointer this))
      as (Vx & Vy & Mx & My & Tx & Ty & Hv).
    rewrite <- Ep in Vx, Vy, Mx, My, Tx, Ty, Hv.
    fold p tx ty in Vx, Vy, Mx, My, Tx, Ty, Hv. rewrite H in Vx, Vy, Hv.
    assert (Ex : energyHover (mouseX (pointer (fst (render this b0))) - tx)
                             (velocityX (pointer (fst (render this b0))))
                 == 0.85 * energyHover (mouseX p - tx) (velocityX p)).
    { rewrite Mx, Vx. apply energyHover_decay. exact M. }
    assert (Ey : energyHover (mouseY (pointer (fst (render this b0))) - ty)
                             (velocityY (pointer (fst (render this b0))))
                 == 0.85 * energyHover (mouseY p - ty) (velocityY p)).
    { rewrite My, Vy. apply energyHover_decay. exact M. }
    clear Vx Vy Mx My Ep.
    destruct (render_browser this b0 R) as (Fr & Nx & _).
    destruct (render_fixed this b0) as (Pa & _).
    pose proof (render_rand_hovering this b0 H) as Rd.
    pose proof (render_rendering this b0) as Rr. rewrite R in Rr.
    destruct (render this b0) as [this1 b1] eqn:E. cbn [fst snd] in *.
    rewrite F0, N0, N in Fr. rewrite N0, N in Nx.
    assert (M1 : momentum (params this1) == 0.85) by (rewrite Pa; exact M).
    destruct (IH (Pos.succ id) (this1, b1) Rr Fr Nx Hv M1)
      as ([this' b'] & Rn & Rd' & H' & Tx' & Ty' & Ex' & Ey' & _).
    cbn [fst snd] in *. rewrite Tx in Tx', Ex'. rewrite Ty in Ty', Ey'.
    exists (this', b'). cbn [framesFrom run]. rewrite D. cbn [JS.bind fst snd].
    split; [exact Rn|]. split; [rewrite Rd', Rd; reflexivity|].
    split; [exact H'|]. split; [exact Tx'|]. split; [exact Ty'|].
    assert (Gx : energyHover (mouseX (pointer this') - tx)
                             (velocityX (pointer this'))
                 == 0.85 ^ Z.of_nat (S n)
                    * energyHover (mouseX p - tx) (velocityX p)).
    { rewrite Ex', Ex, Qpower_succ. ring. }
    assert (Gy : energyHover (mouseY (pointer this') - ty)
                             (velocityY (pointer this'))
                 == 0.85 ^ Z.of_nat (S n)
                    * energyHover (mouseY p - ty) (velocityY p)).
    { rewrite Ey', Ey, Qpower_succ. ring. }
    split; [exact Gx|]. split; [exact Gy|].
    split; [rewrite <- Gx|rewrite <- Gy]; apply energyHover_distance.
Qed.

Lemma hover_converges_witness :
  let st := completed (deliver (Mousemove {| clientX := 600; clientY := 450 |})
                               demoState) demoState in
  let p := pointer (fst st) in
  targetMouseX p == 0.002
  /\ exists st',
       run (framesFrom 1 20) st = JS.Normal st'
       /\ 33 * ((mouseX (pointer (fst st')) - targetMouseX p)
                * (mouseX (pointer (fst st')) - targetMouseX p))
          <= 0.85 ^ 20 * energyHover (mouseX p - targetMouseX p) (velocityX p).
Proof.
  intros st p. split; [reflexivity|].
  destruct (hover_converges 20 1 st eq_refl eq_refl eq_refl eq_refl
              (Qeq_refl _))
    as (st' & R & _ & _ & _ & _ & _ & _ & Dx & _).
  exists st'. split; [exact R|]. exact Dx.
Defined.

(** X21: of several [mousemove] events that arrive between two frames,
    only the last one counts: handling two events in a row leaves the
    controller as handling the second alone would, whether the pointer was
    over the container before or not; and a [mousemove] on a controller
    that is already hovering changes nothing but the target. *)
Theorem mouseMoveHandler_last_wins (e1 e2 : MouseEvent) (b : Browser)
        (this : HeroCRTEffect) :
  mouseMoveHandler e2 b (mouseMoveHandler e1 b this)
  = mouseMoveHandler e2 b this
  /\ (isHovering (pointer this) = true ->
      let p := pointer this in
      let p' := pointer (mouseMoveHandler e2 b this) in
      mouseX p' = mouseX p /\ mouseY p' = mouseY p
      /\ velocityX p' = velocityX p /\ velocityY p' = velocityY p
      /\ isHovering p' = true).
Proof.
  split.
  - unfold mouseMoveHandler. cbn.
    destruct (isHovering (pointer this)); reflexivity.
  - intros H p p'.
    destruct (mouseMoveHandler_pointer e2 b this)
      as (Hv & _ & _ & Mx & My & Vx & Vy).
    cbv zeta in Mx, My, Vx, Vy. rewrite H in Mx, My, Vx, Vy.
    repeat split; assumption.
Qed.

Lemma mouseMoveHandler_last_wins_witness :
  let e1 := {| clientX := 10; clientY := 10 |} in
  let e2 := {| clientX := 600; clientY := 450 |} in
  let st := mouseMoveHandler e1 (snd demoState) (fst demoState) in
  isHovering (pointer st) = true
  /\ mouseX (pointer (mouseMoveHandler e2 (snd demoState) st)) = mouseX (pointer st).
Proof.
  intros e1 e2 st. split; [reflexivity|].
  destruct (mouseMoveHandler_last_wins e1 e2 (snd demoState) st) as [_ K].
  exact (proj1 (K eq_refl)).
Defined.

(** ** Initialisation of a page *)

Lemma substring_all (s : string) : substring 0 (String.length s) s = s.
Proof.
  induction s as [|c s IH]; [reflexivity|]. cbn. rewrite IH. reflexivity.
Qed.

Lemma substring_append (p s : string) (n : nat) :
  substring (String.length p) n (p ++ s) = substring 0 n s.
Proof.
  induction p as [|c p IH]; [reflexivity|]. cbn. exact IH.
Qed.

Lemma substring_prefix (p s : string) :
  substring 0 (String.length p) (p ++ s) = p.
Proof.
  induction p as [|c p IH].
  - cbn. destruct s; reflexivity.
  - cbn. rewrite IH. reflexivity.
Qed.

Lemma length_append (p s : string) :
  String.length (p ++ s) = (String.length p + String.length s)%nat.
Proof.
  induction p as [|c p IH]; [reflexivity|]. cbn. rewrite IH. reflexivity.
Qed.

(** A string that starts with the search string has its first occurrence
    at the start. *)
Lemma index_prefix (p s : string) : index 0 p (p ++ s) = Some 0%nat.
Proof.
  destruct (index 0 p (p ++ s)) as [m|] eqn:E.
  - destruct m as [|m]; [reflexivity|]. exfalso.
    apply (index_correct2 _ _ _ _ E 0%nat); [lia|lia|].
    apply substring_prefix.
  - exfalso. destruct p as [|c p].
    + apply index_correct4 in E. lia.
    + apply (index_correct3 0 0 _ _ E); [discriminate|lia|].
      apply substring_prefix.
Qed.

Lemma replace_prefix (p r s : string) :
  replace p r (p ++ s) = (r ++ s)%string.
Proof.
  unfold replace. rewrite index_prefix. cbn [substring Nat.add].
  assert (Z : substring 0 0 (p ++ s) = ""%string) by (destruct (p ++ s)%string; reflexivity).
  rewrite Z. cbn [append].
  rewrite length_append, substring_append.
  replace (String.length p + String.length s - String.length p)%nat
    with (String.length s) by lia.
  rewrite substring_all. reflexivity.
Qed.

Lemma bind_Normal {A} (c : JS.Completion A) : JS.bind c JS.Normal = c.
Proof. destruct c; reflexivity. Qed.

Lemma forEach_filter {A S} (f : S -> A -> JS.Completion S) (keep : A -> bool)
      (xs : list A) (s : S) :
  JS.forEach (fun s x => if keep x then f s x else JS.Normal s) xs s
  = JS.forEach f (filter keep xs) s.
Proof.
  revert s. induction xs as [|x xs IH]; intro s; [reflexivity|].
  cbn [JS.forEach filter]. destruct (keep x).
  - cbn [JS.forEach]. destruct (f s x) as [s1|e]; [|reflexivity].
    cbn [JS.bind]. apply IH.
  - cbn [JS.bind]. apply IH.
Qed.

Lemma forEach_map {A B S} (f : S -> B -> JS.Completion S) (g : A -> B)
      (xs : list A) (s : S) :
  JS.forEach (fun s x => f s (g x)) xs s = JS.forEach f (map g xs) s.
Proof.
  revert s. induction xs as [|x xs IH]; intro s; [reflexivity|].
  cbn [JS.forEach map]. destruct (f s (g x)) as [s1|e]; [|reflexivity].
  cbn [JS.bind]. apply IH.
Qed.

Lemma forEach_completes {A S} (f : S -> A -> JS.Completion S) (xs : list A)
      (s : S) :
  (forall s0 x, exists s1, f s0 x = JS.Normal s1) ->
  exists s', JS.forEach f xs s = JS.Normal s'.
Proof.
  intro C. revert s. induction xs as [|x xs IH]; intro s.
  - exists s. reflexivity.
  - destruct (C s x) as (s1 & E). destruct (IH s1) as (s' & E').
    exists s'. cbn [JS.forEach]. rewrite E. exact E'.
Qed.

(** X19: [initHeroCRTEffects] calls the constructor once for each element
    whose [data-crt-enabled] attribute is exactly "true" and whose id,
    without its first "Hero-CRT-", is not empty, in document order and with
    that rest of the id as section id; it builds nothing for any other
    element, and it completes whenever the constructor does. *)
Theorem initHeroCRTEffects_constructs (S : Type)
        (new_HeroCRTEffect : string -> S -> JS.Completion S)
        (doc : list Document.Element) (s : S) :
  initHeroCRTEffects S new_HeroCRTEffect doc s
  = JS.forEach (fun s sectionId => new_HeroCRTEffect sectionId s)
               (sectionIds doc) s
  /\ (forall sectionId,
        In sectionId (sectionIds doc) <->
        sectionId <> ""%string
        /\ exists section,
             In section doc
             /\ Document.crtEnabled section = Some "true"%string
             /\ sectionId = replace "Hero-CRT-" "" (Document.id section))
  /\ ((forall sectionId s0, exists s1,
          new_HeroCRTEffect sectionId s0 = JS.Normal s1) ->
      exists s', initHeroCRTEffects S new_HeroCRTEffect doc s = JS.Normal s').
Proof.
  assert (E : initHeroCRTEffects S new_HeroCRTEffect doc s
              = JS.forEach (fun s sectionId => new_HeroCRTEffect sectionId s)
                           (sectionIds doc) s).
  { unfold initHeroCRTEffects, sectionIds. cbv zeta.
    rewrite <- (forEach_filter (fun s sid => new_HeroCRTEffect sid s)
                  (fun sid => negb (sid =? ""))%string).
    rewrite <- (forEach_map
                  (fun s sid => if negb (sid =? "")%string
                                then new_HeroCRTEffect sid s else JS.Normal s)
                  (fun section => replace "Hero-CRT-" "" (Document.id section))).
    reflexivity. }
  split; [exact E|]. split.
  - intro sid. unfold sectionIds, querySelectorAll. rewrite filter_In, in_map_iff.
    split.
    + intros [(section & R & I) N]. apply filter_In in I as [I En].
      split.
      * intro Z. subst sid. rewrite Z in N. discriminate N.
      * exists section. split; [exact I|]. split; [|symmetry; exact R].
        unfold enabled in En.
        destruct (Document.crtEnabled section) as [v|]; [|discriminate En].
        apply String.eqb_eq in En. subst v. reflexivity.
    + intros [N (section & I & En & R)]. split.
      * exists section. split; [symmetry; exact R|].
        apply filter_In. split; [exact I|]. unfold enabled. rewrite En.
        reflexivity.
      * destruct (String.eqb_spec sid ""); [contradiction|reflexivity].
  - intro C. rewrite E. apply forEach_completes. intros s0 sid. apply C.
Qed.

Lemma initHeroCRTEffects_constructs_witness :
  let doc := [ {| Document.id := "Hero-CRT-main";
                  Document.crtEnabled := Some "true" |};
               {| Document.id := "Hero-CRT-off";
                  Document.crtEnabled := Some "false" |};
               {| Document.id := "Hero-CRT-";
                  Document.crtEnabled := Some "true" |};
               {| Document.id := "footer";
                  Document.crtEnabled := Some "true" |} ]%string in
  sectionIds doc = ["main"; "footer"]%string
  /\ exists log,
       initHeroCRTEffects (list string)
         (fun sectionId log => JS.Normal (log ++ [sectionId])%list) doc []
       = JS.Normal log.
Proof.
  intro doc. split; [reflexivity|].
  apply (initHeroCRTEffects_constructs (list string)
           (fun sectionId log => JS.Normal (log ++ [sectionId])%list) doc []).
  intros sid s0. eexists. reflexivity.
Defined.

(** X20: the two entry points agree on the section id.  For an enabled
    section whose id is "Hero-CRT-" followed by a non-empty [x], and which
    [getElementById] finds under that id, [initHeroCRTEffects] strips the
    prefix and builds the controller of section [x], and the listener of
    [shopify:section:load], given [x], finds that same element and builds
    the controller of section [x] too. *)
Theorem sectionId_round_trip (S : Type)
        (new_HeroCRTEffect : string -> S -> JS.Completion S)
        (doc : list Document.Element) (section : Document.Element)
        (x : string) (s : S) :
  x <> ""%string ->
  Document.id section = ("Hero-CRT-" ++ x)%string ->
  Document.crtEnabled section = Some "true"%string ->
  getElementById doc (Document.id section) = Some section ->
  replace "Hero-CRT-" "" (Document.id section) = x
  /\ In x (sectionIds doc)
  /\ initHeroCRTEffects S new_HeroCRTEffect [section] s
     = new_HeroCRTEffect x s
  /\ sectionLoad S new_HeroCRTEffect doc (Some x) s = new_HeroCRTEffect x s.
Proof.
  intros N I En G.
  assert (R : replace "Hero-CRT-" "" (Document.id section) = x).
  { rewrite I. apply replace_prefix. }
  assert (Nb : negb (x =? "")%string = true).
  { destruct (String.eqb_spec x ""); [contradiction|reflexivity]. }
  assert (Eb : enabled section = true).
  { unfold enabled. rewrite En. reflexivity. }
  split; [exact R|]. split.
  - unfold sectionIds, querySelectorAll. apply filter_In. split; [|exact Nb].
    apply in_map_iff. exists section. split; [exact R|].
    apply filter_In. split; [|exact Eb].
    unfold getElementById in G. apply find_some in G. exact (proj1 G).
  - split.
    + unfold initHeroCRTEffects, querySelectorAll. cbn [filter].
      rewrite Eb. cbn [JS.forEach]. rewrite R, Nb. apply bind_Normal.
    + unfold sectionLoad. rewrite Nb, <- I, G, Eb. reflexivity.
Qed.

Lemma sectionId_round_trip_witness :
  let section := {| Document.id := "Hero-CRT-template--1__hero";
                    Document.crtEnabled := Some "true" |}%string in
  let doc := [ {| Document.id := "header"; Document.crtEnabled := None |};
               section ]%string in
  replace "Hero-CRT-" "" (Document.id section) = "template--1__hero"%string
  /\ sectionLoad (list string)
       (fun sectionId log => JS.Normal (log ++ [sectionId])%list)
       doc (Some "template--1__hero"%string) []
     = JS.Normal ["template--1__hero"%string].
Proof.
  intros section doc.
  destruct (sectionId_round_trip (list string)
              (fun sectionId log => JS.Normal (log ++ [sectionId])%list)
              doc section "template--1__hero" [])
    as (R & _ & _ & L); try reflexivity; [discriminate|].
  split; [exact R|exact L].
Defined.

(** ** The curvature warp at the centre *)

Section ShaderCentre.

Import Reals Lra.

Local Open Scope R_scope.

Lemma length_zero : Shader.length (0.5 - 0.5, 0.5 - 0.5) = 0.
Proof.
  unfold Shader.length. cbn [fst snd].
  replace ((0.5 - 0.5) * (0.5 - 0.5) + (0.5 - 0.5) * (0.5 - 0.5)) with 0 by lra.
  apply sqrt_0.
Qed.

(** C8: whatever the curvature, the warp leaves the centre of the texture
    where it is, inside the unit square, so [main] does not take the
    out-of-range branch there and returns the shaded sample. *)
Theorem distort_center (U : Shader.Uniform) :
  Shader.distort U (0.5, 0.5) = (0.5, 0.5)
  /\ (0 <= fst (Shader.distort U (0.5, 0.5)) <= 1
      /\ 0 <= snd (Shader.distort U (0.5, 0.5)) <= 1)
  /\ Shader.outOfRange (Shader.distort U (0.5, 0.5)) = false
  /\ Shader.main U (0.5, 0.5) = Shader.shade U (0.5, 0.5) (0.5, 0.5).
Proof.
  assert (D : Shader.distort U (0.5, 0.5) = (0.5, 0.5)).
  { unfold Shader.distort. cbn [fst snd]. rewrite length_zero.
    f_equal; lra. }
  assert (O : Shader.outOfRange (0.5, 0.5) = false).
  { unfold Shader.outOfRange. cbn [fst snd].
    destruct (Rlt_dec 0.5 0.0); [lra|].
    destruct (Rgt_dec 0.5 1.0); [lra|]. reflexivity. }
  split; [exact D|]. rewrite D. cbn [fst snd].
  split; [lra|]. split; [exact O|].
  unfold Shader.main. rewrite D, O. reflexivity.
Qed.

End ShaderCentre.

(** ** The fragment shader beyond the centre *)

Section ShaderRange.

Import Reals Lra.

Local Open Scope R_scope.

Lemma length_nonneg (v : Shader.vec2) : 0 <= Shader.length v.
Proof. unfold Shader.length. apply sqrt_pos. Qed.

Lemma length_square (v : Shader.vec2) :
  Shader.length v * Shader.length v = fst v * fst v + snd v * snd v.
Proof.
  unfold Shader.length. apply sqrt_sqrt.
  pose proof (Rle_0_sqr (fst v)). pose proof (Rle_0_sqr (snd v)).
  unfold Rsqr in *. lra.
Qed.

Lemma clamp_unit (x : R) : 0 <= Shader.clamp x 0 1 <= 1.
Proof.
  unfold Shader.clamp, Rmin, Rmax.
  destruct (Rle_dec x 0); destruct (Rle_dec _ 1); lra.
Qed.

Lemma smoothstep_unit (e0 e1 x : R) : 0 <= Shader.smoothstep e0 e1 x <= 1.
Proof.
  unfold Shader.smoothstep.
  pose proof (clamp_unit ((x - e0) / (e1 - e0))) as [L H].
  set (t := Shader.clamp ((x - e0) / (e1 - e0)) 0 1) in *.
  split.
  - apply Rmult_le_pos; [apply Rmult_le_pos; assumption|lra].
  - assert (0 <= (1 - t) * (1 - t) * (1 + 2 * t)).
    { apply Rmult_le_pos; [apply Rmult_le_pos; lra|lra]. }
    lra.
Qed.

Lemma vignette_range (U : Shader.Uniform) (uv : Shader.vec2) :
  0 <= Shader.u_vignette U ->
  1 - Shader.u_vignette U <= Shader.vignette U uv <= 1.
Proof.
  intro V. unfold Shader.vignette.
  pose proof (smoothstep_unit 0.3 0.8
                (Shader.distance uv (0.5, 0.5))) as [L H].
  set (s := Shader.smoothstep 0.3 0.8 _) in *.
  assert (0 <= s * Shader.u_vignette U) by (apply Rmult_le_pos; assumption).
  assert (0 <= (1 - s) * Shader.u_vignette U) by (apply Rmult_le_pos; lra).
  lra.
Qed.

Lemma scanlines_range (U : Shader.Uniform) (uv : Shader.vec2) :
  0 <= Shader.u_scanlineIntensity U * 0.3 <= 1 ->
  1 - Shader.u_scanlineIntensity U * 0.3 <= Shader.scanlines U uv <= 1.
Proof.
  intros [L H]. unfold Shader.scanlines, Shader.mix.
  pose proof (SIN_bound (snd uv * snd (Shader.u_resolution U) * 3.14159))
    as [S1 S2].
  set (s := sin _) in *. set (a := Shader.u_scanlineIntensity U * 0.3) in *.
  assert (0 <= (s * 0.5 + 0.5) * a) by (apply Rmult_le_pos; lra).
  assert (0 <= (1 - (s * 0.5 + 0.5)) * a) by (apply Rmult_le_pos; lra).
  lra.
Qed.

Lemma flicker_range (time : R) : 0.98 <= Shader.flicker time <= 1.02.
Proof.
  unfold Shader.flicker. pose proof (SIN_bound (time * 10.0)) as [L H]. lra.
Qed.

Lemma unit_product (a b : R) : 0 <= a <= 1 -> 0 <= b <= 1 -> 0 <= a * b <= 1.
Proof.
  intros [A0 A1] [B0 B1]. split; [apply Rmult_le_pos; assumption|].
  assert (0 <= (1 - a) * b) by (apply Rmult_le_pos; lra).
  lra.
Qed.

Lemma channel_range (c s v f : R) :
  0 <= c <= 1 -> 0 <= s <= 1 -> 0 <= v <= 1 -> 0.98 <= f <= 1.02 ->
  0 <= c * s * v * f <= 1.02.
Proof.
  intros C S V F.
  pose proof (unit_product _ _ (unit_product _ _ C S) V) as [P0 P1].
  set (p := c * s * v) in *. split; [apply Rmult_le_pos; lra|].
  assert (0 <= (1 - p) * f) by (apply Rmult_le_pos; lra).
  assert (0 <= p * (1.02 - f)) by (apply Rmult_le_pos; lra).
  lra.
Qed.

(** X22: on a texture with channels between 0 and 1, with vignette
    strength and scanline intensity between 0 and 1, every fragment the
    shader writes is opaque and its three colour channels lie between 0 and
    1.02: the effects only darken, and the flicker adds at most 2 percent. *)
Theorem main_color_range (U : Shader.Uniform) (v_texCoord : Shader.vec2) :
  unitTexture (Shader.u_texture U) ->
  0 <= Shader.u_vignette U <= 1 ->
  0 <= Shader.u_scanlineIntensity U <= 1 ->
  let c := Shader.main U v_texCoord in
  snd c = 1
  /\ 0 <= Shader.red c <= 1.02
  /\ 0 <= Shader.green c <= 1.02
  /\ 0 <= Shader.blue c <= 1.02.
Proof.
  intros T V S c. unfold c, Shader.main.
  destruct (Shader.outOfRange (Shader.distort U v_texCoord)).
  - unfold Shader.red, Shader.green, Shader.blue. cbn [fst snd]. lra.
  - unfold Shader.shade, Shader.chromaticAberration, Shader.scale,
      Shader.texture2D, Shader.red, Shader.green, Shader.blue.
    cbn [fst snd].
    pose proof (vignette_range U v_texCoord (proj1 V)) as Vr.
    assert (Sr : 0 <= Shader.u_scanlineIntensity U * 0.3 <= 1) by lra.
    pose proof (scanlines_range U v_texCoord Sr) as Sc.
    pose proof (flicker_range (Shader.u_time U)) as Fl.
    assert (V1 : 0 <= Shader.vignette U v_texCoord <= 1) by lra.
    assert (S1 : 0 <= Shader.scanlines U v_texCoord <= 1) by lra.
    split; [lra|].
    split; [apply channel_range; try assumption; exact (proj1 (T _))|].
    split; [apply channel_range; try assumption;
            exact (proj1 (proj2 (T _)))|].
    apply channel_range; try assumption. exact (proj2 (proj2 (T _))).
Qed.

Lemma main_color_range_witness :
  let c := Shader.main demoUniform (0.25, 0.75) in
  snd c = 1 /\ 0 <= Shader.red c <= 1.02.
Proof.
  intro c.
  destruct (main_color_range demoUniform (0.25, 0.75)) as (A & Rd & _).
  - intro uv. unfold Shader.red, Shader.green, Shader.blue. cbn. lra.
  - cbn. lra.
  - cbn. lra.
  - split; [exact A|exact Rd].
Defined.

Lemma outOfRange_spec (v : Shader.vec2) :
  Shader.outOfRange v = true
  <-> (fst v < 0 \/ fst v > 1 \/ snd v < 0 \/ snd v > 1).
Proof.
  unfold Shader.outOfRange.
  destruct (Rlt_dec (fst v) 0.0) as [A|A]; [split; [intro; lra|reflexivity]|].
  destruct (Rgt_dec (fst v) 1.0) as [B|B]; [split; [intro; lra|reflexivity]|].
  destruct (Rlt_dec (snd v) 0.0) as [C|C]; [split; [intro; lra|reflexivity]|].
  destruct (Rgt_dec (snd v) 1.0) as [D|D]; [split; [intro; lra|reflexivity]|].
  split; [discriminate|]. intro H. exfalso. lra.
Qed.

Lemma outOfRange_false (v : Shader.vec2) :
  Shader.outOfRange v = false <-> inSquare v.
Proof.
  unfold inSquare. pose proof (outOfRange_spec v) as S.
  destruct (Shader.outOfRange v).
  - split; [discriminate|]. intro H. destruct (proj1 S eq_refl); lra.
  - split; [|reflexivity]. intros _.
    assert (N : ~ (fst v < 0 \/ fst v > 1 \/ snd v < 0 \/ snd v > 1)).
    { intro H. apply S in H. discriminate H. }
    repeat split; apply Rnot_lt_le; intro; apply N; lra.
Qed.

(** The warp, by components. *)
Lemma distort_fields (U : Shader.Uniform) (uv : Shader.vec2) :
  let cx := fst uv - 0.5 in
  let cy := snd uv - 0.5 in
  let factor := 1 + Shader.u_curvature U * (cx * cx + cy * cy) in
  Shader.distort U uv = (0.5 + cx * factor, 0.5 + cy * factor).
Proof.
  intros cx cy factor. unfold Shader.distort. cbn [fst snd].
  fold cx cy.
  assert (E : 1.0 + Shader.u_curvature U * Shader.length (cx, cy)
                    * Shader.length (cx, cy) = factor).
  { unfold factor. rewrite Rmult_assoc, (length_square (cx, cy)).
    cbn [fst snd]. lra. }
  rewrite E. reflexivity.
Qed.

(** X23: with a positive curvature the warp pushes every texture
    coordinate on the border of the unit square, or beyond it, out of the
    square, so that the shader writes opaque black there: the picture gets a
    black rim. *)
Theorem curvature_blackens_border (U : Shader.Uniform) (uv : Shader.vec2) :
  0 < Shader.u_curvature U ->
  fst uv <= 0 \/ 1 <= fst uv \/ snd uv <= 0 \/ 1 <= snd uv ->
  Shader.outOfRange (Shader.distort U uv) = true
  /\ Shader.main U uv = (0.0, 0.0, 0.0, 1.0).
Proof.
  intros K B.
  assert (O : Shader.outOfRange (Shader.distort U uv) = true).
  { apply outOfRange_spec. rewrite distort_fields. cbn [fst snd].
    set (cx := fst uv - 0.5). set (cy := snd uv - 0.5).
    set (k := Shader.u_curvature U) in *.
    assert (X2 : 0 <= cx * cx) by apply Rle_0_sqr.
    assert (Y2 : 0 <= cy * cy) by apply Rle_0_sqr.
    set (d2 := cx * cx + cy * cy) in *.
    assert (Push : forall c, 0.5 <= c \/ c <= -0.5 -> 0.25 <= d2 ->
                             (0.5 <= c -> 0.5 < c * (1 + k * d2))
                             /\ (c <= -0.5 -> c * (1 + k * d2) < -0.5)).
    { intros c _ D.
      assert (P : 0 < k * d2) by (apply Rmult_lt_0_compat; lra).
      split; intro C.
      - assert (0 < c * (k * d2)) by (apply Rmult_lt_0_compat; lra). lra.
      - assert (0 < (- c) * (k * d2)) by (apply Rmult_lt_0_compat; lra). lra. }
    destruct B as [B|[B|[B|B]]].
    - left. assert (C : cx <= -0.5) by (unfold cx; lra).
      assert (D : 0.25 <= d2) by (unfold d2; nra).
      destruct (Push cx (or_intror C) D) as [_ P]. specialize (P C). lra.
    - right. left. assert (C : 0.5 <= cx) by (unfold cx; lra).
      assert (D : 0.25 <= d2) by (unfold d2; nra).
      destruct (Push cx (or_introl C) D) as [P _]. specialize (P C). lra.
    - right. right. left. assert (C : cy <= -0.5) by (unfold cy; lra).
      assert (D : 0.25 <= d2) by (unfold d2; nra).
      destruct (Push cy (or_intror C) D) as [_ P]. specialize (P C). lra.
    - right. right. right. assert (C : 0.5 <= cy) by (unfold cy; lra).
      assert (D : 0.25 <= d2) by (unfold d2; nra).
      destruct (Push cy (or_introl C) D) as [P _]. specialize (P C). lra. }
  split; [exact O|]. unfold Shader.main. rewrite O. reflexivity.
Qed.

Lemma curvature_blackens_border_witness :
  Shader.main demoUniform (0, 0.3) = (0.0, 0.0, 0.0, 1.0).
Proof.
  apply curvature_blackens_border.
  - cbn. lra.
  - left. cbn. lra.
Defined.

(** X24: with a curvature between -2 and 0 the warp keeps every texture
    coordinate of the unit square inside it, so that no fragment of the
    picture is blacked out; with curvature 0 the warp is the identity. *)
Theorem mild_curvature_keeps_square (U : Shader.Uniform) (uv : Shader.vec2) :
  -2 <= Shader.u_curvature U <= 0 -> inSquare uv ->
  inSquare (Shader.distort U uv)
  /\ Shader.main U uv = Shader.shade U uv (Shader.distort U uv)
  /\ (Shader.u_curvature U = 0 -> Shader.distort U uv = uv).
Proof.
  intros [K1 K2] [[X0 X1] [Y0 Y1]].
  assert (I : inSquare (Shader.distort U uv)).
  { unfold inSquare. rewrite distort_fields. cbn [fst snd].
    set (cx := fst uv - 0.5). set (cy := snd uv - 0.5).
    set (k := Shader.u_curvature U) in *.
    assert (Cx : -0.5 <= cx <= 0.5) by (unfold cx; lra).
    assert (Cy : -0.5 <= cy <= 0.5) by (unfold cy; lra).
    assert (X2 : 0 <= cx * cx <= 0.25) by nra.
    assert (Y2 : 0 <= cy * cy <= 0.25) by nra.
    set (d2 := cx * cx + cy * cy) in *.
    assert (D : 0 <= d2 <= 0.5) by (unfold d2; lra).
    assert (F : 0 <= 1 + k * d2 <= 1) by nra.
    set (f := 1 + k * d2) in *.
    repeat split; nra. }
  split; [exact I|]. split.
  - unfold Shader.main. rewrite (proj2 (outOfRange_false _) I). reflexivity.
  - intro Z. rewrite distort_fields. cbn zeta. rewrite Z.
    destruct uv as [x y]. cbn [fst snd]. f_equal; lra.
Qed.

Lemma mild_curvature_keeps_square_witness :
  let U := {| Shader.u_texture := Shader.u_texture demoUniform;
              Shader.u_resolution := (800, 600); Shader.u_time := 0;
              Shader.u_curvature := -1; Shader.u_vignette := 0.74;
              Shader.u_scanlineIntensity := 0.5;
              Shader.u_chromaticAberration := 0.5;
              Shader.u_mouseOffset := (0, 0) |} in
  inSquare (Shader.distort U (0, 1)).
Proof.
  intro U. apply mild_curvature_keeps_square.
  - cbn. lra.
  - unfold inSquare. cbn. lra.
Defined.

Lemma smoothstep_below (e0 e1 x : R) :
  e0 < e1 -> x <= e0 -> Shader.smoothstep e0 e1 x = 0.
Proof.
  intros E X. unfold Shader.smoothstep, Shader.clamp.
  assert (T : (x - e0) / (e1 - e0) <= 0).
  { unfold Rdiv. assert (0 < / (e1 - e0)) by (apply Rinv_0_lt_compat; lra).
    assert (0 <= (e0 - x) * / (e1 - e0)) by (apply Rmult_le_pos; lra). lra. }
  rewrite (Rmax_right _ _ T), Rmin_left by lra. lra.
Qed.

Lemma smoothstep_above (e0 e1 x : R) :
  e0 < e1 -> e1 <= x -> Shader.smoothstep e0 e1 x = 1.
Proof.
  intros E X. unfold Shader.smoothstep, Shader.clamp.
  assert (T : 1 <= (x - e0) / (e1 - e0)).
  { unfold Rdiv. assert (P : 0 < / (e1 - e0)) by (apply Rinv_0_lt_compat; lra).
    assert (0 <= (x - e1) * / (e1 - e0)) by (apply Rmult_le_pos; lra).
    assert (I : (e1 - e0) * / (e1 - e0) = 1) by (apply Rinv_r; lra). lra. }
  rewrite Rmax_left, Rmin_right by lra. lra.
Qed.

Lemma smoothstep_inside (e0 e1 x : R) :
  e0 < e1 -> x < e1 -> Shader.smoothstep e0 e1 x < 1.
Proof.
  intros E X. unfold Shader.smoothstep.
  pose proof (clamp_unit ((x - e0) / (e1 - e0))) as [L H].
  assert (T : Shader.clamp ((x - e0) / (e1 - e0)) 0 1 < 1).
  { unfold Shader.clamp.
    assert (D : (x - e0) / (e1 - e0) < 1).
    { unfold Rdiv.
      assert (P : 0 < / (e1 - e0)) by (apply Rinv_0_lt_compat; lra).
      assert (0 < (e1 - x) * / (e1 - e0)) by (apply Rmult_lt_0_compat; lra).
      assert (I : (e1 - e0) * / (e1 - e0) = 1) by (apply Rinv_r; lra). lra. }
    unfold Rmin, Rmax. destruct (Rle_dec _ 0); destruct (Rle_dec _ 1); lra. }
  set (t := Shader.clamp _ 0 1) in *.
  assert (0 < (1 - t) * (1 - t) * (1 + 2 * t)).
  { apply Rmult_lt_0_compat; [apply Rmult_lt_0_compat; lra|lra]. }
  lra.
Qed.

(** The distance of a point of the unit square from its centre is below
    0.8. *)
Lemma distance_in_square (uv : Shader.vec2) :
  inSquare uv -> Shader.distance uv (0.5, 0.5) < 0.8.
Proof.
  intros [[X0 X1] [Y0 Y1]]. unfold Shader.distance. cbn [fst snd].
  set (v := (fst uv - 0.5, snd uv - 0.5)).
  pose proof (length_nonneg v) as N. pose proof (length_square v) as S.
  cbn [fst snd v] in S.
  apply Rnot_le_lt. intro G.
  assert (0.64 <= Shader.length v * Shader.length v) by nra.
  assert (fst uv - 0.5 <= 0.5 /\ -0.5 <= fst uv - 0.5) by lra.
  assert (snd uv - 0.5 <= 0.5 /\ -0.5 <= snd uv - 0.5) by lra.
  nra.
Qed.

(** X25: the vignette factor lies between 1 minus the vignette strength
    and 1; it is exactly 1 (no darkening) within a distance of 0.3 from the
    centre, and it would reach its minimum only at a distance of 0.8 or
    more, which no point of the unit square has: with a positive strength
    even the corners keep more than the minimum. *)
Theorem vignette_profile (U : Shader.Uniform) (uv : Shader.vec2) :
  0 <= Shader.u_vignette U ->
  1 - Shader.u_vignette U <= Shader.vignette U uv <= 1
  /\ (Shader.distance uv (0.5, 0.5) <= 0.3 -> Shader.vignette U uv = 1)
  /\ (0.8 <= Shader.distance uv (0.5, 0.5) ->
      Shader.vignette U uv = 1 - Shader.u_vignette U)
  /\ (inSquare uv -> 0 < Shader.u_vignette U ->
      1 - Shader.u_vignette U < Shader.vignette U uv).
Proof.
  intro V. split; [apply vignette_range; exact V|].
  unfold Shader.vignette. cbv zeta. split; [|split].
  - intro D. rewrite smoothstep_below by lra. lra.
  - intro D. rewrite smoothstep_above by lra. lra.
  - intros I P. pose proof (distance_in_square uv I) as D.
    pose proof (smoothstep_inside 0.3 0.8 _ ltac:(lra) D) as S.
    set (s := Shader.smoothstep 0.3 0.8 _) in *.
    assert (0 < (1 - s) * Shader.u_vignette U)
      by (apply Rmult_lt_0_compat; lra).
    lra.
Qed.

Lemma vignette_profile_witness :
  1 - 0.74 < Shader.vignette demoUniform (1, 1)
  /\ Shader.vignette demoUniform (1, 1) <= 1.
Proof.
  destruct (vignette_profile demoUniform (1, 1)) as ([_ H] & _ & _ & C).
  - cbn. lra.
  - split; [|exact H]. apply C.
    + unfold inSquare. cbn. lra.
    + cbn. lra.
Defined.

(** X26: the pointer-driven part of the chromatic offset.  When the
    pointer offset is longer than 0.001, the red and blue samples are
    shifted by the baseline (0.003 times the chromatic aberration, along x)
    plus minus the pointer offset scaled by 1.5 times the aspect-corrected
    distance of the fragment from the centre: opposite to the pointer,
    growing with that distance, zero at the centre.  For a shorter pointer
    offset only the baseline is left. *)
Theorem aberration_opposes_pointer (U : Shader.Uniform)
        (uv distortedUV : Shader.vec2) :
  let m := Shader.u_mouseOffset U in
  let aspect := fst (Shader.u_resolution U) / snd (Shader.u_resolution U) in
  let d := Shader.length ((fst uv - 0.5) * aspect, snd uv - 0.5) in
  let shaded offset :=
    (Shader.scale (Shader.flicker (Shader.u_time U))
       (Shader.scale (Shader.vignette U uv)
          (Shader.scale (Shader.scanlines U uv)
             (Shader.chromaticAberration (Shader.u_texture U) distortedUV
                (Shader.u_chromaticAberration U * 0.003) offset))),
     1.0) in
  0 <= 1.5 * d
  /\ (Shader.length m > 0.001 ->
      Shader.shade U uv distortedUV
      = shaded (- (1.5 * d) * fst m, - (1.5 * d) * snd m))
  /\ (~ Shader.length m > 0.001 ->
      Shader.shade U uv distortedUV = shaded (0.0, 0.0))
  /\ (uv = (0.5, 0.5) -> d = 0).
Proof.
  intros m aspect d shaded.
  assert (D : 0 <= d) by apply length_nonneg.
  split; [lra|]. unfold Shader.shade. cbv zeta. cbn [fst snd].
  fold m aspect d. split; [|split].
  - intro G. destruct (Rgt_dec (Shader.length m) 0.001) as [_|N];
      [|contradiction].
    unfold shaded, Shader.normalize. cbn [fst snd].
    assert (Nz : Shader.length m <> 0) by lra.
    assert (Ex : - (fst m / Shader.length m) * d * Shader.length m * 1.5
                 = - (1.5 * d) * fst m) by (field; exact Nz).
    assert (Ey : - (snd m / Shader.length m) * d * Shader.length m * 1.5
                 = - (1.5 * d) * snd m) by (field; exact Nz).
    rewrite Ex, Ey. reflexivity.
  - intro N. destruct (Rgt_dec (Shader.length m) 0.001) as [G|_];
      [contradiction|]. reflexivity.
  - intro C. unfold d. rewrite C. cbn [fst snd].
    unfold Shader.length. cbn [fst snd].
    replace ((0.5 - 0.5) * aspect * ((0.5 - 0.5) * aspect)
             + (0.5 - 0.5) * (0.5 - 0.5)) with 0 by lra.
    apply sqrt_0.
Qed.

Lemma aberration_opposes_pointer_witness :
  let uv := (0.25, 0.75) in
  let d := Shader.length ((0.25 - 0.5) * (800 / 600), 0.75 - 0.5) in
  Shader.length (Shader.u_mouseOffset demoUniform) > 0.001
  /\ Shader.shade demoUniform uv uv
     = (Shader.scale (Shader.flicker 0.016)
          (Shader.scale (Shader.vignette demoUniform uv)
             (Shader.scale (Shader.scanlines demoUniform uv)
                (Shader.chromaticAberration (Shader.u_texture demoUniform) uv
                   (0.5 * 0.003)
                   (- (1.5 * d) * 0.002, - (1.5 * d) * 0)))),
        1.0).
Proof.
  intros uv d.
  assert (G : Shader.length (Shader.u_mouseOffset demoUniform) > 0.001).
  { unfold Shader.length. cbn [fst snd demoUniform Shader.u_mouseOffset].
    replace (0.002 * 0.002 + 0 * 0) with (0.002 * 0.002) by lra.
    rewrite sqrt_square by lra. lra. }
  split; [exact G|].
  destruct (aberration_opposes_pointer demoUniform uv uv) as (_ & E & _).
  exact (E G).
Defined.

(** X27: with curvature, vignette strength, scanline intensity and
    chromatic aberration all zero and the pointer offset no longer than
    0.001, the shader writes, at every texture coordinate of the unit
    square, the colour of the texture at that coordinate times the flicker
    factor, and alpha 1: every effect but the flicker is switched off. *)
Theorem shader_neutral (U : Shader.Uniform) (uv : Shader.vec2) :
  Shader.u_curvature U = 0 -> Shader.u_vignette U = 0 ->
  Shader.u_scanlineIntensity U = 0 -> Shader.u_chromaticAberration U = 0 ->
  ~ Shader.length (Shader.u_mouseOffset U) > 0.001 ->
  inSquare uv ->
  Shader.main U uv
  = (Shader.scale (Shader.flicker (Shader.u_time U))
       (rgb (Shader.u_texture U uv)), 1.0).
Proof.
  intros K V S C M I.
  assert (Dt : Shader.distort U uv = uv).
  { rewrite distort_fields. cbn zeta. rewrite K.
    destruct uv as [x y]. cbn [fst snd]. f_equal; lra. }
  unfold Shader.main. rewrite Dt, (proj2 (outOfRange_false uv) I).
  unfold Shader.shade. cbv zeta.
  destruct (Rgt_dec (Shader.length (Shader.u_mouseOffset U)) 0.001) as [G|_];
    [contradiction|].
  unfold Shader.chromaticAberration, Shader.texture2D, Shader.scanlines,
    Shader.vignette, Shader.mix, rgb, Shader.scale.
  rewrite V, S, C. cbn [fst snd].
  assert (Ex : fst uv + (0 * 0.003 + 0.0) = fst uv) by lra.
  assert (Ex' : fst uv - (0 * 0.003 + 0.0) = fst uv) by lra.
  assert (Ey : snd uv + 0.0 = snd uv) by lra.
  assert (Ey' : snd uv - 0.0 = snd uv) by lra.
  rewrite Ex, Ex', Ey, Ey'. destruct uv as [x y]. cbn [fst snd].
  f_equal. f_equal; [f_equal|]; lra.
Qed.

Lemma shader_neutral_witness :
  let U := {| Shader.u_texture := Shader.u_texture demoUniform;
              Shader.u_resolution := (800, 600); Shader.u_time := 0;
              Shader.u_curvature := 0; Shader.u_vignette := 0;
              Shader.u_scanlineIntensity := 0;
              Shader.u_chromaticAberration := 0;
              Shader.u_mouseOffset := (0, 0) |} in
  Shader.main U (0.25, 0.75)
  = (Shader.scale (Shader.flicker 0) (0.5, 0.5, 0.5), 1.0).
Proof.
  intro U. apply (shader_neutral U (0.25, 0.75)); try reflexivity.
  - unfold Shader.length. cbn [fst snd U Shader.u_mouseOffset].
    replace (0 * 0 + 0 * 0) with 0 by lra. rewrite sqrt_0. lra.
  - unfold inSquare. cbn. lra.
Defined.

End ShaderRange.

(** ** The quad *)

Section Quad.

Import Reals Lra.
Local Open Scope R_scope.

(** X28: the two triangles of [setupGeometry] cover the whole clip square:
    every point (x, y) with both coordinates between -1 and 1 is a fragment
    of one of them; and whichever triangle a fragment at (x, y) belongs to,
    the texture coordinate it receives is ((x + 1) / 2, (1 - y) / 2), inside
    the unit square, with the top edge of the canvas at the first row of the
    uploaded raster. *)
Theorem quad_covers_viewport (x y : R) :
  -1 <= x <= 1 -> -1 <= y <= 1 ->
  (exists n w,
      In n Geometry.triangles /\ Geometry.weights w
      /\ fst (Geometry.fragment n w) = (x, y))
  /\ (forall n w,
        In n Geometry.triangles -> Geometry.weights w ->
        fst (Geometry.fragment n w) = (x, y) ->
        snd (Geometry.fragment n w) = ((x + 1) / 2, (1 - y) / 2))
  /\ inSquare ((x + 1) / 2, (1 - y) / 2).
Proof.
  intros X Y. split; [|split].
  - destruct (Rle_dec (x + y) 0) as [L|G].
    + exists 0%nat, (- (x + y) / 2, (x + 1) / 2, (y + 1) / 2).
      split; [left; reflexivity|]. split.
      * cbn. repeat split; lra.
      * cbn. f_equal; lra.
    + exists 3%nat, ((1 - x) / 2, (1 - y) / 2, (x + y) / 2).
      split; [right; left; reflexivity|]. split.
      * cbn. repeat split; lra.
      * cbn. f_equal; lra.
  - intros n [[a b] c] N (A & B & C & S) P.
    destruct N as [<-|[<-|[]]]; cbn in P |- *;
      injection P as Px Py; f_equal; lra.
  - unfold inSquare. cbn [fst snd]. lra.
Qed.

Lemma quad_covers_viewport_witness :
  exists n w,
    In n Geometry.triangles /\ Geometry.weights w
    /\ Geometry.fragment n w = ((0.5, 0.5), (0.75, 0.25)).
Proof.
  destruct (quad_covers_viewport 0.5 0.5) as ((n & w & N & W & P) & T & _);
    [lra|lra|].
  exists n, w. split; [exact N|]. split; [exact W|].
  specialize (T n w N W P).
  destruct (Geometry.fragment n w) as [p t]. cbn [fst snd] in *. subst p t.
  f_equal. f_equal; lra.
Defined.

End Quad.
